(** * Asset resolution of minecraft-render: the [Minecraft] class

    A shallow embedding of the resolution engine of [class Minecraft]
    (multi-jar file lookup, the parsed-JSON cache, identifier parsing, the
    recursive parent-chain merge of block models, block-state batches and
    the lookups of single block states) and the properties of it that the
    specification states, with further properties read off the code.

    Conventions of the embedding.
    - JavaScript values are the trees of [value]; numbers are the integers.
    - An object used as a dictionary is an association list in the order
      of its enumeration for documents and for the jar table, a [gmap] for
      the path-keyed cache (whose order does not matter).  The jar table
      has the order of a plain object ([object_set]: array indices first,
      [__proto__] no key).  The keys of documents are taken not to be
      array indices, and the cache is read at paths that are not members
      of [Object.prototype] ([prototype_member]).
    - A promise is its outcome, [Fulfilled] or [Rejected]; awaited calls run
      in program order.  A recursion that would not terminate runs out of
      fuel ([None]).
    - [this] is the record [Minecraft]; a method is a function from the
      instance to a result and the instance afterwards. *)

From Stdlib Require Import ZArith List Ascii String Lia.
From stdpp Require Import base option list gmap strings pretty.

Local Open Scope Z_scope.
Local Open Scope string_scope.
Local Open Scope list_scope.
Local Open Scope stdpp_scope.

(** ** JavaScript values *)

#[local] Set Warnings "-register-all".

Inductive value : Type :=
  | VUndef
  | VNull
  | VBool (b : bool)
  | VNum (n : Z)
  | VStr (s : string)
  | VArr (elems : list value) (named : list (string * value))
  | VObj (props : list (string * value)).

(** The own properties of a plain object, in enumeration order. *)
Abbreviation props := (list (string * value)).

(** [ToBoolean]: what [if (x)] and [!x] test. *)
Definition truthy (v : value) : bool :=
  match v with
  | VUndef | VNull => false
  | VBool b => b
  | VNum n => negb (n =? 0)%Z
  | VStr s => negb (String.eqb s "")
  | VArr _ _ | VObj _ => true
  end.

(** [o[k]] on the own properties; an absent key reads [undefined]. *)
Fixpoint lookup_prop (k : string) (o : props) : value :=
  match o with
  | [] => VUndef
  | (k', v) :: o' => if String.eqb k k' then v else lookup_prop k o'
  end.

Fixpoint has_own {A : Type} (k : string) (o : list (string * A)) : bool :=
  match o with
  | [] => false
  | (k', _) :: o' => String.eqb k k' || has_own k o'
  end.

(** [o[k] = v] on a dictionary object: an existing key keeps its place, a
    new key goes last. *)
Fixpoint dict_set {A : Type} (k : string) (v : A) (o : list (string * A)) :
    list (string * A) :=
  match o with
  | [] => [(k, v)]
  | (k', v') :: o' =>
      if String.eqb k k' then (k, v) :: o' else (k', v') :: dict_set k v o'
  end.

(** [delete o[k]], as the rest pattern [{ parent, ...model }] leaves out a key. *)
Fixpoint remove_prop (k : string) (o : props) : props :=
  match o with
  | [] => []
  | (k', v') :: o' =>
      if String.eqb k k' then remove_prop k o' else (k', v') :: remove_prop k o'
  end.

(** Errors that the modelled code can raise; [ArchiveError] is whatever an
    archive throws. *)
Inductive js_error : Type :=
  | TypeError
  | SyntaxError
  | ArchiveError
  | Error (message : string).

Inductive outcome (A : Type) : Type :=
  | Fulfilled (a : A)
  | Rejected (e : js_error).
Arguments Fulfilled {A} a.
Arguments Rejected {A} e.

(** [v.k] for the property names the source reads ([parent], [display],
    [gui], [parents], [variants], [model], the empty selector): none is an
    index, [length] or a built-in member, so only own named properties
    answer.  Reading a property of [undefined] or [null] throws. *)
Definition get_member (v : value) (k : string) : outcome value :=
  match v with
  | VUndef | VNull => Rejected TypeError
  | VObj o => Fulfilled (lookup_prop k o)
  | VArr _ named => Fulfilled (lookup_prop k named)
  | VBool _ | VNum _ | VStr _ => Fulfilled VUndef
  end.

(** Index keys ["0"], ["1"], ... of an array or a string. *)
Fixpoint index_from {A : Type} (i : nat) (l : list A) : list (string * A) :=
  match l with
  | [] => []
  | x :: l' => (pretty i, x) :: index_from (S i) l'
  end.

Fixpoint chars (s : string) : list value :=
  match s with
  | EmptyString => []
  | String c s' => VStr (String c EmptyString) :: chars s'
  end.

(** The own enumerable properties that object destructuring copies. *)
Definition own_props (v : value) : props :=
  match v with
  | VObj o => o
  | VArr elems named => index_from 0%nat elems ++ named
  | VStr s => index_from 0%nat (chars s)
  | _ => []
  end.

(** ** Strings *)

(** [s.includes(c)] and [s.indexOf(c) != -1] for a one-character needle. *)
Fixpoint includes (c : ascii) (s : string) : bool :=
  match s with
  | EmptyString => false
  | String a s' => Ascii.eqb a c || includes c s'
  end.

(** [s.split(c)] for a one-character separator. *)
Fixpoint split (c : ascii) (s : string) : list string :=
  match s with
  | EmptyString => [EmptyString]
  | String a s' =>
      if Ascii.eqb a c then EmptyString :: split c s'
      else match split c s' with
           | [] => [String a EmptyString]
           | p :: ps => String a p :: ps
           end
  end.

Definition colon : ascii := ":"%char.
Definition slash : ascii := "/"%char.

(** ** Property keys of a plain object *)

Definition index_digit (c : ascii) : option N :=
  let n := N_of_ascii c in
  if ((48 <=? n) && (n <=? 57))%N then Some (n - 48)%N else None.

Fixpoint index_digits (acc : N) (s : string) : option N :=
  match s with
  | EmptyString => Some acc
  | String c s' =>
      match index_digit c with
      | Some d => index_digits (acc * 10 + d)%N s'
      | None => None
      end
  end.

(** A property key that is an array index: the decimal writing, without
    sign or leading zero, of an integer from 0 to 2^32 - 2. *)
Definition array_index (k : string) : option N :=
  match k with
  | EmptyString => None
  | String c k' =>
      match index_digit c with
      | None => None
      | Some d =>
          if (d =? 0)%N then match k' with EmptyString => Some 0%N | _ => None end
          else match index_digits d k' with
               | Some n => if (n <? 4294967295)%N then Some n else None
               | None => None
               end
      end
  end.

(** A new key that is the array index [i] takes its place among the keys
    of a plain object: [for ... in] enumerates the array indices first, in
    ascending order, then the other keys in the order of their creation. *)
Fixpoint insert_index {A : Type} (i : N) (k : string) (v : A) (o : list (string * A)) :
    list (string * A) :=
  match o with
  | [] => [(k, v)]
  | (k', v') :: o' =>
      match array_index k' with
      | Some i' => if (i' <? i)%N then (k', v') :: insert_index i k v o' else (k, v) :: o
      | None => (k, v) :: o
      end
  end.

(** [o[k] = v] on a plain object [o = {}], whose own keys are listed in the
    order of [for ... in].  A key that [o] has keeps its place.  The key
    [__proto__] that [o] has not is the accessor of [Object.prototype]:
    the assignment of an object sets the prototype of [o] and makes no
    key.  Any other new key is enumerated after the keys before it, but for
    an array index. *)
Definition object_set {A : Type} (k : string) (v : A) (o : list (string * A)) :
    list (string * A) :=
  if has_own k o then dict_set k v o
  else if String.eqb k "__proto__" then o
  else match array_index k with
       | Some i => insert_index i k v o
       | None => dict_set k v o
       end.

(** ** Identifiers *)

Record identifier : Type := { namespace : string; id : string }.

(** [Minecraft.id]: the array pattern [[namespace, id]] takes the first two
    pieces of the split; a name that includes the separator has at least
    two, so the empty defaults below are never read. *)
Definition Minecraft_id (name : string) : identifier :=
  if includes colon name then
    let parts := split colon name in
    {| namespace := nth 0 parts ""; id := nth 1 parts "" |}
  else
    {| namespace := "minecraft"; id := name |}.

(** ** Archives and the instance *)

(** Modelled from the spec: [Jar] ([./utils/jar] is not among the sources).
    [read(path)] gives the bytes, or fails or is absent when the path is
    missing; [entries(prefix)] lists entry names or fails. *)
Inductive read_result : Type :=
  | Thrown
  | Absent
  | Data (buf : string).

Record Jar : Type := {
  read : string -> read_result;
  entries : string -> option (list string)
}.

(** What the platform supplies: [JSON.parse] on the decoded text ([None] when
    it throws a [SyntaxError]), [path.basename] and [Jar.open]. *)
Class Runtime : Type := {
  JSON_parse : string -> option value;
  basename : string -> string;
  Jar_open : string -> Jar
}.

Inductive source : Type :=
  | Primary
  | Mod (modid : string).

(** An archive access, recorded in the order it happens. *)
Inductive io_event : Type :=
  | ERead (src : source) (path : string)
  | EEntries (src : source) (path : string)
  | EWarn (blockName : value).

Record Minecraft : Type := {
  jar : Jar;
  defaultNamespace : string;
  _cache : gmap string value;
  _modid_jars : list (string * Jar);
  io_log : list io_event
}.

Definition with_cache (c : gmap string value) (mc : Minecraft) : Minecraft :=
  {| jar := jar mc; defaultNamespace := defaultNamespace mc; _cache := c;
     _modid_jars := _modid_jars mc; io_log := io_log mc |}.

Definition with_modid_jars (t : list (string * Jar)) (mc : Minecraft) : Minecraft :=
  {| jar := jar mc; defaultNamespace := defaultNamespace mc; _cache := _cache mc;
     _modid_jars := t; io_log := io_log mc |}.

Definition log (e : io_event) (mc : Minecraft) : Minecraft :=
  {| jar := jar mc; defaultNamespace := defaultNamespace mc; _cache := _cache mc;
     _modid_jars := _modid_jars mc; io_log := io_log mc ++ [e] |}.

(** [Minecraft.open(file, namespace)]: [namespace] defaults to ['minecraft']. *)
Definition Minecraft_open `{Runtime} (file : string + Jar) (namespace : option string) :
    Minecraft :=
  {| jar := match file with inl p => Jar_open p | inr j => j end;
     defaultNamespace := default "minecraft" namespace;
     _cache := ∅;
     _modid_jars := [];
     io_log := [] |}.

(** ** Asynchronous methods: state and outcome *)

Definition M (A : Type) : Type := Minecraft -> outcome A * Minecraft.

Definition ret {A : Type} (a : A) : M A := fun mc => (Fulfilled a, mc).
Definition throw {A : Type} (e : js_error) : M A := fun mc => (Rejected e, mc).
Definition lift {A : Type} (o : outcome A) : M A := fun mc => (o, mc).

Definition bind {A B : Type} (c : M A) (k : A -> M B) : M B :=
  fun mc =>
    match c mc with
    | (Fulfilled a, mc1) => k a mc1
    | (Rejected e, mc1) => (Rejected e, mc1)
    end.

(** [try { ... await c ... } catch (err) { h }]. *)
Definition try_catch {A : Type} (c : M A) (h : js_error -> M A) : M A :=
  fun mc =>
    match c mc with
    | (Fulfilled a, mc1) => (Fulfilled a, mc1)
    | (Rejected e, mc1) => h e mc1
    end.

Notation "'let*' x ':=' c 'in' k" := (bind c (fun x => k))
  (at level 10, x pattern, c at level 100, k at level 200).

(** [await jar.read(path)]: a failing read rejects. *)
Definition jar_read (src : source) (j : Jar) (path : string) : M (option string) :=
  fun mc =>
    let mc1 := log (ERead src path) mc in
    match read j path with
    | Thrown => (Rejected ArchiveError, mc1)
    | Absent => (Fulfilled None, mc1)
    | Data buf => (Fulfilled (Some buf), mc1)
    end.

(** [registerModId(modid, path)]: [this._modid_jars[modid] = jar] on the
    plain object of the jar table.  With the mod id [__proto__] the jar
    becomes the prototype of the table and is no entry of it; what the
    loops of [getFile] and [getFileEntries] then reach through the
    prototype are the members of the jar, which are no jars (their reads
    fail inside the [try]) and are left out of the table. *)
Definition registerModId `{Runtime} (modid : string) (path : string + Jar) : M Jar :=
  fun mc =>
    let j := match path with inl p => Jar_open p | inr j => j end in
    (Fulfilled j, with_modid_jars (object_set modid j (_modid_jars mc)) mc).

(** The [for (let key in this._modid_jars)] loop of [getFile]. *)
Fixpoint getFile_mods (path : string) (jars : list (string * Jar)) : M (option string) :=
  match jars with
  | [] => ret None
  | (key, j) :: rest =>
      let* result := try_catch (jar_read (Mod key) j path) (fun _ => ret None) in
      match result with
      | Some buf => ret (Some buf)
      | None => getFile_mods path rest
      end
  end.

(** [getFile(path)]: a buffer, or [None] for [null]. *)
Definition getFile (path : string) : M (option string) :=
  fun mc =>
    (let* result := try_catch (jar_read Primary (jar mc) path) (fun _ => ret None) in
     match result with
     | Some buf => ret (Some buf)
     | None => getFile_mods path (_modid_jars mc)
     end) mc.

(** ** The parsed-document cache *)

(** [JSON.parse(JSON.stringify(v))] rebuilds the JSON part of [v]: a
    property holding [undefined] is left out, [undefined] in an array
    becomes [null], named properties of an array are not serialized. *)
Fixpoint json_copy (v : value) : value :=
  match v with
  | VArr elems _ =>
      VArr (map (fun e => match e with VUndef => VNull | _ => json_copy e end) elems) []
  | VObj o =>
      VObj ((fix copy_props (o : props) : props :=
               match o with
               | [] => []
               | (k, VUndef) :: o' => copy_props o'
               | (k, x) :: o' => (k, json_copy x) :: copy_props o'
               end) o)
  | _ => v
  end.

(** [clone(input)]: [JSON.stringify(undefined)] is [undefined], which
    [JSON.parse] rejects. *)
Definition clone (input : value) : outcome value :=
  match input with
  | VUndef => Rejected SyntaxError
  | _ => Fulfilled (json_copy input)
  end.

(** The argument of [parseJson(data : string | Object | Buffer)]. *)
Inductive parse_input : Type :=
  | InBuffer (bytes : string)
  | InObject (o : value)
  | InString (s : string)
  | InOther.

Definition JSON_parse_throwing `{Runtime} (str : string) : outcome value :=
  match JSON_parse str with
  | Some v => Fulfilled v
  | None => Rejected SyntaxError
  end.

(** [parseJson(data)]: a buffer is decoded, an object is serialized, a
    string is taken as it is; anything else gives [null]. *)
Definition parseJson `{Runtime} (data : parse_input) : outcome value :=
  match data with
  | InBuffer bytes => JSON_parse_throwing bytes
  | InObject o => clone o
  | InString s => JSON_parse_throwing s
  | InOther => Fulfilled VNull
  end.

(** The names that a plain object answers without holding them: the
    members of [Object.prototype], functions and, for [__proto__], the
    prototype itself, all truthy. *)
Definition prototype_member (name : string) : bool :=
  existsb (String.eqb name)
    ["constructor"; "toString"; "toLocaleString"; "valueOf"; "hasOwnProperty";
     "isPrototypeOf"; "propertyIsEnumerable"; "__proto__"; "__defineGetter__";
     "__defineSetter__"; "__lookupGetter__"; "__lookupSetter__"].

(** [this._cache[path]], for a [path] that is no [prototype_member]: the
    entry that the cache holds under [path], or [undefined].  (Under such a
    name the plain object answers with the member of its prototype; the
    properties that depend on what a path without entry reads as have
    [prototype_member path = false] for a hypothesis.) *)
Definition cache_at (path : string) (mc : Minecraft) : value :=
  default VUndef (_cache mc !! path).

Definition cache_store (path : string) (v : value) : M unit :=
  fun mc => (Fulfilled tt, with_cache (<[path := v]> (_cache mc)) mc).

(** [getParsedJson(path)]. *)
Definition getParsedJson `{Runtime} (path : string) : M value :=
  fun mc =>
    (let* _ :=
       if negb (truthy (cache_at path mc)) then
         let* data := getFile path in
         match data with
         | Some bytes =>
             let* parsed := lift (parseJson (InBuffer bytes)) in
             cache_store path parsed
         | None => ret tt
         end
       else ret tt in
     fun mc1 =>
       if truthy (cache_at path mc1) then lift (clone (cache_at path mc1)) mc1
       else ret VUndef mc1) mc.

(** ** Paths of named resources *)

(** [String(v)] as a template literal applies it to an array: the elements
    joined by commas, [null] and [undefined] as the empty string. *)
Fixpoint js_toString (v : value) : string :=
  match v with
  | VUndef => "undefined"
  | VNull => "null"
  | VBool true => "true"
  | VBool false => "false"
  | VNum n => pretty n
  | VStr s => s
  | VArr elems _ =>
      (fix join (l : list value) : string :=
         match l with
         | [] => ""
         | [e] => match e with VUndef | VNull => "" | _ => js_toString e end
         | e :: l' =>
             (match e with VUndef | VNull => "" | _ => js_toString e end)
               +:+ "," +:+ join l'
         end) elems
  | VObj _ => "[object Object]"
  end.

Definition is_str (s : string) (v : value) : bool :=
  match v with
  | VStr s' => String.eqb s s'
  | _ => false
  end.

(** The path [getModelFile(name = 'block/block')] builds.  A string goes
    through [id]; on an array [includes], [indexOf] compare elements and the
    template literals convert it; [split] is no method of an array, and
    [includes] is no method of the other values. *)
Definition model_path (name : value) : outcome string :=
  let of_string (name : string) :=
    let i := Minecraft_id name in
    let id := if includes slash (id i) then id i else "block/" +:+ id i in
    "assets/" +:+ namespace i +:+ "/models/" +:+ id +:+ ".json" in
  match name with
  | VUndef => Fulfilled (of_string "block/block")
  | VStr s => Fulfilled (of_string s)
  | VArr elems _ =>
      if existsb (is_str ":") elems then Rejected TypeError
      else
        let id := if existsb (is_str "/") elems then js_toString name
                  else "block/" +:+ js_toString name in
        Fulfilled ("assets/minecraft/models/" +:+ id +:+ ".json")
  | _ => Rejected TypeError
  end.

(** [getModelFile(name)].  The promise of [getParsedJson] is returned from
    the [try] block without being awaited, so the [catch] clause, which
    would throw [Unable to find model file], sees none of its outcomes. *)
Definition getModelFile `{Runtime} (name : value) : M value :=
  let* path := lift (model_path name) in
  getParsedJson path.

Definition texture_path (name : string) : string :=
  let i := Minecraft_id name in
  "assets/" +:+ namespace i +:+ "/textures/" +:+ id i +:+ ".png".

(** [getTextureFile(name = '')]: the read is awaited inside the [try]. *)
Definition getTextureFile (name : string) : M (option string) :=
  let path := texture_path name in
  try_catch (getFile path)
    (fun _ => throw (Error ("Unable to find texture file: " +:+ path))).

(** [getTextureMetadata(name = '')]. *)
Definition getTextureMetadata `{Runtime} (name : string) : M value :=
  let i := Minecraft_id name in
  let path := "assets/" +:+ namespace i +:+ "/textures/" +:+ name +:+ ".png.mcmeta" in
  try_catch (getParsedJson path) (fun _ => ret VNull).

(** ** Deep merge *)

(** Modelled from the spec: [deepAssign], the [assign-deep] import, whose
    code is not among the sources.  The spec: a deep merge where scalar and
    array fields at a given key fully replace the value at that key, but
    nested mapping fields are merged key-by-key rather than replaced
    wholesale.  [merge_value t s] is what a key holds after the merge when
    the target held [t] there and the source gives [s]. *)
Fixpoint merge_value (t s : value) : value :=
  match s with
  | VObj so =>
      match t with
      | VObj to =>
          VObj ((fix assign (src tgt : props) {struct src} : props :=
                   match src with
                   | [] => tgt
                   | (k, v) :: src' =>
                       assign src' (dict_set k (merge_value (lookup_prop k tgt) v) tgt)
                   end) so to)
      | _ => s
      end
  | _ => s
  end.

(** The keys of [src] are assigned onto [tgt], in the order of [src]. *)
Fixpoint assign_props (tgt src : props) : props :=
  match src with
  | [] => tgt
  | (k, v) :: src' =>
      assign_props (dict_set k (merge_value (lookup_prop k tgt) v) tgt) src'
  end.

(** [deepAssign(target, ...sources)] on an object [target]; a source that is
    no mapping has nothing to merge. *)
Definition deepAssign (target : props) (sources : list value) : props :=
  fold_left
    (fun t s => match s with VObj so => assign_props t so | _ => t end)
    sources target.

(** ** Model resolution *)

(** [let { parent, ...model } = file]. *)
Definition take_parent (file : value) : outcome (value * props) :=
  match get_member file "parent" with
  | Rejected e => Rejected e
  | Fulfilled parent => Fulfilled (parent, remove_prop "parent" (own_props file))
  end.

(** [!display || !display.gui] for [display = model.display]. *)
Definition no_gui (display : value) : bool :=
  negb (truthy display)
  || match get_member display "gui" with
     | Fulfilled gui => negb (truthy gui)
     | Rejected _ => true
     end.

(** The fallback rule: without a parent and without gui data the parent is
    the base block model. *)
Definition fallback_parent (parent display : value) : value :=
  if negb (truthy parent) && no_gui display then VStr "minecraft:block/block"
  else parent.

(** [parents.push(x)]; only an array has the method. *)
Definition push (parents x : value) : outcome value :=
  match parents with
  | VArr elems named => Fulfilled (VArr (elems ++ [x]) named)
  | _ => Rejected TypeError
  end.

(** The body of [if (parent) { ... }] after the recursive call: merge, make
    sure [parents] is there, append the parent. *)
Definition inherit (inherited : value) (own : value) (parent : value) : outcome props :=
  let model := deepAssign [] [inherited; own] in
  let model :=
    if negb (truthy (lookup_prop "parents" model))
    then dict_set "parents" (VArr [] []) model else model in
  match push (lookup_prop "parents" model) parent with
  | Rejected e => Rejected e
  | Fulfilled ps => Fulfilled (dict_set "parents" ps model)
  end.

(** Methods that may recurse without end: [None] when the fuel runs out. *)
Definition MF (A : Type) : Type := Minecraft -> option (outcome A * Minecraft).

Definition liftF {A : Type} (c : M A) : MF A := fun mc => Some (c mc).

Definition bindF {A B : Type} (c : MF A) (k : A -> MF B) : MF B :=
  fun mc =>
    match c mc with
    | None => None
    | Some (Fulfilled a, mc1) => k a mc1
    | Some (Rejected e, mc1) => Some (Rejected e, mc1)
    end.

Notation "'let+' x ':=' c 'in' k" := (bindF c (fun x => k))
  (at level 10, x pattern, c at level 100, k at level 200).

(** [getModel(blockName)]. *)
Fixpoint getModel `{Runtime} (fuel : nat) (blockName : value) : MF props :=
  match fuel with
  | O => fun _ => None
  | S fuel' =>
      let+ file := liftF (getModelFile blockName) in
      let+ (parent, model) := liftF (lift (take_parent file)) in
      let parent := fallback_parent parent (lookup_prop "display" model) in
      let+ model :=
        if truthy parent then
          let+ inherited := getModel fuel' parent in
          liftF (lift (inherit (VObj inherited) (VObj model) parent))
        else liftF (ret model) in
      liftF (ret (deepAssign model [VObj [("blockName", blockName)]]))
  end.

(** [o.k = v] in strict code: a property of an object or of an array is
    set; a primitive cannot take one. *)
Definition set_member (o : value) (k : string) (v : value) : outcome value :=
  match o with
  | VObj p => Fulfilled (VObj (dict_set k v p))
  | VArr elems named => Fulfilled (VArr elems (dict_set k v named))
  | _ => Rejected TypeError
  end.

(** The value at the first key that [for (let key in v)] visits, if any. *)
Definition first_in (v : value) : option value :=
  match v with
  | VObj ((_, x) :: _) => Some x
  | VArr (x :: _) _ => Some x
  | VArr [] ((_, x) :: _) => Some x
  | VStr (String c _) => Some (VStr (String c EmptyString))
  | _ => None
  end.

(** The variant that [getModelFromBlockState] picks. *)
Definition default_variant (block_state : value) : outcome value :=
  match get_member block_state "variants" with
  | Rejected e => Rejected e
  | Fulfilled variants =>
      match get_member variants "" with
      | Rejected e => Rejected e
      | Fulfilled v =>
          let v := if negb (truthy v) then default v (first_in variants) else v in
          Fulfilled match v with
                    | VArr elems _ => nth 0 elems VUndef
                    | _ => v
                    end
      end
  end.

(** [deepAssign] onto the model file itself, an object or an array. *)
Definition deepAssign_onto (target : value) (sources : list value) : value :=
  match target with
  | VObj p => VObj (deepAssign p sources)
  | VArr elems named => VArr elems (deepAssign named sources)
  | _ => target
  end.

(** [getModelFromBlockState(block_state)]: [undefined] when the model file of
    the variant is not found. *)
Definition getModelFromBlockState `{Runtime} (fuel : nat) (block_state : value) : MF value :=
  let+ variant := liftF (lift (default_variant block_state)) in
  let+ blockName := liftF (lift (get_member variant "model")) in
  let+ model_file := liftF (getModelFile blockName) in
  if negb (truthy model_file) then
    liftF (fun mc => (Fulfilled VUndef, log (EWarn blockName) mc))
  else
    let+ parent := liftF (lift (get_member model_file "parent")) in
    let+ model_file := liftF (lift (set_member model_file "parent" VUndef)) in
    let+ display := liftF (lift (get_member model_file "display")) in
    let parent := fallback_parent parent display in
    let+ model_file :=
      if truthy parent then
        let+ inherited := getModel fuel parent in
        let+ m := liftF (lift (inherit (VObj inherited) model_file parent)) in
        liftF (ret (VObj m))
      else liftF (ret model_file) in
    liftF (ret (deepAssign_onto model_file [VObj [("blockName", blockName)]])).

(** ** Block states *)

(** [name.endsWith(suffix)]. *)
Definition ends_with (suffix s : string) : bool :=
  let n := String.length s in
  let m := String.length suffix in
  (m <=? n)%nat && String.eqb (substring (n - m) m s) suffix.

(** [s.slice(0, -k)]. *)
Definition drop_last (k : nat) (s : string) : string :=
  substring 0 (String.length s - k) s.

(** [await jar.entries(path)]: the entry names; a failing listing rejects. *)
Definition jar_entries (src : source) (j : Jar) (path : string) : M (list string) :=
  fun mc =>
    let mc1 := log (EEntries src path) mc in
    match entries j path with
    | None => (Rejected ArchiveError, mc1)
    | Some l => (Fulfilled l, mc1)
    end.

Fixpoint getFileEntries_mods (path : string) (jars : list (string * Jar)) : M (list string) :=
  match jars with
  | [] => ret []
  | (key, j) :: rest =>
      let* result := try_catch (jar_entries (Mod key) j path) (fun _ => ret []) in
      match result with
      | [] => getFileEntries_mods path rest
      | _ => ret result
      end
  end.

(** [getFileEntries(path)]: the first listing that is not empty. *)
Definition getFileEntries (path : string) : M (list string) :=
  fun mc =>
    (let* result := try_catch (jar_entries Primary (jar mc) path) (fun _ => ret []) in
     match result with
     | [] => getFileEntries_mods path (_modid_jars mc)
     | _ => ret result
     end) mc.

(** The loop of [getBlockStates] over the listed files. *)
Fixpoint getBlockStates_loop `{Runtime} (namespace : string) (files : list string) :
    M (list value) :=
  match files with
  | [] => ret []
  | name :: rest =>
      if negb (ends_with ".json" name) then getBlockStates_loop namespace rest
      else
        let filename := drop_last 5 (basename name) in
        let* state := getParsedJson name in
        let* state := lift (set_member state "identifier"
                              (VStr (namespace +:+ ":" +:+ filename))) in
        let* states := getBlockStates_loop namespace rest in
        ret (state :: states)
  end.

(** [getBlockStates(namespace = this.defaultNamespace)]. *)
Definition getBlockStates `{Runtime} (namespace : option string) : M (list value) :=
  fun mc =>
    let namespace := default (defaultNamespace mc) namespace in
    (let* files := getFileEntries ("assets/" +:+ namespace +:+ "/blockstates") in
     getBlockStates_loop namespace files) mc.

(** How a promise settles. *)
Inductive settled : Type :=
  | fulfilled (v : value)
  | rejected (reason : js_error).

(** [Promise.allSettled] over one [getModelFromBlockState] per state: every
    promise is run to its end, whatever the outcome of the others. *)
Fixpoint allSettled_models `{Runtime} (fuel : nat) (states : list value) :
    Minecraft -> option (list settled * Minecraft) :=
  fun mc =>
    match states with
    | [] => Some ([], mc)
    | state :: rest =>
        match getModelFromBlockState fuel state mc with
        | None => None
        | Some (o, mc1) =>
            match allSettled_models fuel rest mc1 with
            | None => None
            | Some (os, mc2) =>
                Some (match o with
                      | Fulfilled v => fulfilled v
                      | Rejected e => rejected e
                      end :: os, mc2)
            end
        end
    end.

(** The second loop of [getBlockList]: the values of the fulfilled promises
    that are not falsy. *)
Fixpoint fulfilled_values (promises : list settled) : list value :=
  match promises with
  | [] => []
  | fulfilled v :: rest =>
      if truthy v then v :: fulfilled_values rest else fulfilled_values rest
  | rejected _ :: rest => fulfilled_values rest
  end.

(** [getBlockList(namespace = this.defaultNamespace)]. *)
Definition getBlockList `{Runtime} (fuel : nat) (namespace : option string) :
    MF (list value) :=
  let+ states := liftF (getBlockStates namespace) in
  fun mc =>
    match allSettled_models fuel states mc with
    | None => None
    | Some (promises, mc1) => Some (Fulfilled (fulfilled_values promises), mc1)
    end.

(** ** Single block states *)

(** [state.identifier == identifier] for a string [identifier]: a string is
    equal to the same string only, [undefined] and [null] to no string,
    an object to the string it converts to.  A number or a boolean would be
    compared as numbers, after a conversion of [identifier] that the
    embedding does not have; [getBlockStates] assigns a string to
    [identifier] in every state, so that case is not met and it is left
    unequal here. *)
Definition loose_eq_string (v : value) (s : string) : bool :=
  match v with
  | VStr s' => String.eqb s' s
  | VArr _ _ | VObj _ => String.eqb (js_toString v) s
  | VUndef | VNull | VBool _ | VNum _ => false
  end.

(** The loop of [getBlockState]: the first state with the identifier. *)
Fixpoint find_state (identifier : string) (blockstates : list value) : outcome value :=
  match blockstates with
  | [] => Fulfilled VUndef
  | state :: rest =>
      match get_member state "identifier" with
      | Rejected e => Rejected e
      | Fulfilled i =>
          if loose_eq_string i identifier then Fulfilled state
          else find_state identifier rest
      end
  end.

(** [getBlockState(identifier)]: the block states are those of the default
    namespace. *)
Definition getBlockState `{Runtime} (identifier : string) : M value :=
  let* blockstates := getBlockStates None in
  lift (find_state identifier blockstates).

(** The loop of [getBlockNameList]: the identifiers that are not falsy. *)
Fixpoint identifiers_of (states : list value) : outcome (list value) :=
  match states with
  | [] => Fulfilled []
  | state :: rest =>
      match get_member state "identifier" with
      | Rejected e => Rejected e
      | Fulfilled i =>
          match identifiers_of rest with
          | Rejected e => Rejected e
          | Fulfilled result => Fulfilled (if truthy i then i :: result else result)
          end
      end
  end.

(** [getBlockNameList(namespace = this.defaultNamespace)]. *)
Definition getBlockNameList `{Runtime} (namespace : option string) : M (list value) :=
  let* states := getBlockStates namespace in
  lift (identifiers_of states).

(** [getModelOfIdentifier(identifier)]: [undefined] when no block state has
    the identifier. *)
Definition getModelOfIdentifier `{Runtime} (fuel : nat) (identifier : string) : MF value :=
  let+ state := liftF (getBlockState identifier) in
  if truthy state then getModelFromBlockState fuel state
  else liftF (ret VUndef).

(** ** The older revision of the class *)

(** [src/minecraft.ts] is an earlier state of the same class: [getFile],
    [getParsedJson], [id], [getModelFile] and the texture methods are the
    same; [getModel] has no fallback parent, and [getBlockList] resolves the
    model files listed under [models/block] with [Promise.all]. *)
Module Legacy.

(** [getModel(blockName)] of [src/minecraft.ts]. *)
Fixpoint getModel `{Runtime} (fuel : nat) (blockName : value) : MF props :=
  match fuel with
  | O => fun _ => None
  | S fuel' =>
      let+ file := liftF (getModelFile blockName) in
      let+ (parent, model) := liftF (lift (take_parent file)) in
      let+ model :=
        if truthy parent then
          let+ inherited := getModel fuel' parent in
          liftF (lift (inherit (VObj inherited) (VObj model) parent))
        else liftF (ret model) in
      liftF (ret (deepAssign model [VObj [("blockName", blockName)]]))
  end.

(** [name.slice(start, -k)]. *)
Definition slice_between (start k : nat) (s : string) : string :=
  substring start (String.length s - k - start) s.

(** [getBlockNameList(namespace = this.defaultNamespace)]: the listing of
    the primary jar, not caught when it fails. *)
Definition getBlockNameList (namespace : option string) : M (list string) :=
  fun mc =>
    let namespace := default (defaultNamespace mc) namespace in
    let prefix := "assets/" +:+ namespace +:+ "/models/block/" in
    (let* names :=
       jar_entries Primary (jar mc) ("assets/" +:+ namespace +:+ "/models/block") in
     ret (map (fun name =>
                 namespace +:+ ":" +:+ slice_between (String.length prefix) 5 name)
            (List.filter (ends_with ".json") names))) mc.

(** [Promise.all]: every promise is run; the result is the list of the
    values, or the first rejection.  (A promise that does not end leaves
    the batch without result here.) *)
Fixpoint Promise_all {A : Type} (promises : list (MF A)) : MF (list A) :=
  fun mc =>
    match promises with
    | [] => Some (Fulfilled [], mc)
    | p :: rest =>
        match p mc with
        | None => None
        | Some (o, mc1) =>
            match Promise_all rest mc1 with
            | None => None
            | Some (os, mc2) =>
                Some (match o, os with
                      | Rejected e, _ => Rejected e
                      | Fulfilled _, Rejected e => Rejected e
                      | Fulfilled a, Fulfilled l => Fulfilled (a :: l)
                      end, mc2)
            end
        end
    end.

(** [getBlockList(namespace = this.defaultNamespace)] of [src/minecraft.ts]. *)
Definition getBlockList `{Runtime} (fuel : nat) (namespace : option string) :
    MF (list props) :=
  let+ names := liftF (getBlockNameList namespace) in
  Promise_all (map (fun block => getModel fuel (VStr block)) names).

End Legacy.

(** ** Objects by reference *)

(** A value as the program holds it: a primitive, or a reference to an
    object of the heap. *)
Inductive hvalue : Type :=
  | HUndef
  | HNull
  | HBool (b : bool)
  | HNum (n : Z)
  | HStr (s : string)
  | HRef (l : nat).

Inductive hobject : Type :=
  | HArray (elems : list hvalue) (named : list (string * hvalue))
  | HObject (props : list (string * hvalue)).

(** The heap, with the next free location. *)
Record Store : Type := { heap : gmap nat hobject; next : nat }.

Definition alloc (o : hobject) (st : Store) : hvalue * Store :=
  (HRef (next st), {| heap := <[next st := o]> (heap st); next := S (next st) |}).

(** [JSON.parse] builds its result out of new objects, the parts of an
    object before the object itself. *)
Fixpoint build (v : value) (st : Store) {struct v} : hvalue * Store :=
  match v with
  | VUndef => (HUndef, st)
  | VNull => (HNull, st)
  | VBool b => (HBool b, st)
  | VNum n => (HNum n, st)
  | VStr s => (HStr s, st)
  | VArr elems named =>
      let '(hs, st1) :=
        (fix build_list (l : list value) (st : Store) {struct l} :=
           match l with
           | [] => ([], st)
           | x :: l' =>
               let '(h, st1) := build x st in
               let '(hs, st2) := build_list l' st1 in
               (h :: hs, st2)
           end) elems st in
      let '(hn, st2) :=
        (fix build_props (o : props) (st : Store) {struct o} :=
           match o with
           | [] => ([], st)
           | (k, x) :: o' =>
               let '(h, st1) := build x st in
               let '(hs, st2) := build_props o' st1 in
               ((k, h) :: hs, st2)
           end) named st1 in
      alloc (HArray hs hn) st2
  | VObj o =>
      let '(ho, st1) :=
        (fix build_props (o : props) (st : Store) {struct o} :=
           match o with
           | [] => ([], st)
           | (k, x) :: o' =>
               let '(h, st1) := build x st in
               let '(hs, st2) := build_props o' st1 in
               ((k, h) :: hs, st2)
           end) o st in
      alloc (HObject ho) st1
  end.

Fixpoint build_list (l : list value) (st : Store) : list hvalue * Store :=
  match l with
  | [] => ([], st)
  | x :: l' =>
      let '(h, st1) := build x st in
      let '(hs, st2) := build_list l' st1 in
      (h :: hs, st2)
  end.

Fixpoint build_props (o : props) (st : Store) : list (string * hvalue) * Store :=
  match o with
  | [] => ([], st)
  | (k, x) :: o' =>
      let '(h, st1) := build x st in
      let '(hs, st2) := build_props o' st1 in
      ((k, h) :: hs, st2)
  end.

Definition on_snd {A B : Type} (f : A -> option B) (e : string * A) :
    option (string * B) :=
  x ← f (snd e); Some (fst e, x).

(** [JSON.stringify] reads the tree under a value; it fails on a structure
    that does not end, here when the fuel runs out. *)
Fixpoint reify (fuel : nat) (hp : gmap nat hobject) (r : hvalue) : option value :=
  match r with
  | HUndef => Some VUndef
  | HNull => Some VNull
  | HBool b => Some (VBool b)
  | HNum n => Some (VNum n)
  | HStr s => Some (VStr s)
  | HRef l =>
      match fuel with
      | O => None
      | S f =>
          match hp !! l with
          | None => None
          | Some (HArray elems named) =>
              es ← mapM (reify f hp) elems;
              ns ← mapM (on_snd (reify f hp)) named;
              Some (VArr es ns)
          | Some (HObject o) =>
              ps ← mapM (on_snd (reify f hp)) o;
              Some (VObj ps)
          end
      end
  end.

Definition children (o : hobject) : list hvalue :=
  match o with
  | HArray elems named => elems ++ map snd named
  | HObject o => map snd o
  end.

(** The objects that a value reaches. *)
Inductive reach (hp : gmap nat hobject) : hvalue -> nat -> Prop :=
  | reach_here (l : nat) : reach hp (HRef l) l
  | reach_child (l l' : nat) (o : hobject) (c : hvalue) :
      hp !! l = Some o -> In c (children o) -> reach hp c l' -> reach hp (HRef l) l'.

Definition htruthy (r : hvalue) : bool :=
  match r with
  | HUndef | HNull => false
  | HBool b => b
  | HNum n => negb (n =? 0)%Z
  | HStr s => negb (String.eqb s "")
  | HRef _ => true
  end.

(** The instance with its cache holding references ([_cache_ref] stands for
    [_cache]; the archives and the log are those of [instance]). *)
Record MinecraftRef : Type := {
  instance : Minecraft;
  _cache_ref : gmap string hvalue;
  store : Store
}.

(** [clone(input)] on references: the tree is read, and built again out of
    new objects. *)
Definition clone_ref (input : hvalue) (st : Store) : outcome hvalue * Store :=
  match reify (next st) (heap st) input with
  | None => (Rejected TypeError, st)
  | Some v =>
      match clone v with
      | Rejected e => (Rejected e, st)
      | Fulfilled v' => let '(r, st') := build v' st in (Fulfilled r, st')
      end
  end.

(** [getParsedJson(path)] on references: the same method, with the parsed
    document and every clone as objects of the heap. *)
Definition getParsedJson_ref `{Runtime} (path : string) (m : MinecraftRef) :
    outcome hvalue * MinecraftRef :=
  let cached := default HUndef (_cache_ref m !! path) in
  let filled :=
    if negb (htruthy cached) then
      match getFile path (instance m) with
      | (Fulfilled (Some bytes), i1) =>
          match parseJson (InBuffer bytes) with
          | Fulfilled v =>
              let '(r, st1) := build v (store m) in
              (Fulfilled tt,
               {| instance := i1; _cache_ref := <[path := r]> (_cache_ref m);
                  store := st1 |})
          | Rejected e =>
              (Rejected e,
               {| instance := i1; _cache_ref := _cache_ref m; store := store m |})
          end
      | (Fulfilled None, i1) =>
          (Fulfilled tt,
           {| instance := i1; _cache_ref := _cache_ref m; store := store m |})
      | (Rejected e, i1) =>
          (Rejected e,
           {| instance := i1; _cache_ref := _cache_ref m; store := store m |})
      end
    else (Fulfilled tt, m) in
  match filled with
  | (Rejected e, m1) => (Rejected e, m1)
  | (Fulfilled _, m1) =>
      let cached := default HUndef (_cache_ref m1 !! path) in
      if htruthy cached then
        let '(o, st') := clone_ref cached (store m1) in
        (o, {| instance := instance m1; _cache_ref := _cache_ref m1; store := st' |})
      else (Fulfilled HUndef, m1)
  end.

(** A store is well formed when nothing lies at or above its next free
    location. *)
Definition wf_store (st : Store) : Prop :=
  forall l, (next st <= l)%nat -> heap st !! l = None.

(** What building a tree does to the store. *)
Definition built (st st' : Store) (rs : list hvalue) : Prop :=
  wf_store st'
  /\ (next st <= next st')%nat
  /\ (forall l, (l < next st)%nat -> heap st' !! l = heap st !! l)
  /\ (forall c l, In c rs -> reach (heap st') c l -> (next st <= l < next st')%nat).

Definition build_ok (v : value) : Prop :=
  forall st r st', wf_store st -> build v st = (r, st') ->
    built st st' [r]
    /\ forall fuel, (next st' <= fuel)%nat -> reify fuel (heap st') r = Some v.

(** ** A concrete runtime for the examples *)

Definition dquote : ascii := ascii_of_nat 34.
Definition squote : ascii := ascii_of_nat 39.
Definition backslash : ascii := ascii_of_nat 92.

(** JSON text is written with single quotes in the examples; [jq] puts the
    double quotes in. *)
Fixpoint jq (s : string) : string :=
  match s with
  | EmptyString => EmptyString
  | String c s' => String (if Ascii.eqb c squote then dquote else c) (jq s')
  end.

Definition is_ws (c : ascii) : bool :=
  let n := nat_of_ascii c in
  Nat.eqb n 32 || Nat.eqb n 9 || Nat.eqb n 10 || Nat.eqb n 13.

Definition digit_of (c : ascii) : option Z :=
  let n := nat_of_ascii c in
  if (48 <=? n)%nat && (n <=? 57)%nat then Some (Z.of_nat (n - 48)) else None.

Fixpoint skip_ws (s : string) : string :=
  match s with
  | String c s' => if is_ws c then skip_ws s' else s
  | EmptyString => s
  end.

Fixpoint read_digits (acc : Z) (s : string) : Z * string :=
  match s with
  | String c s' =>
      match digit_of c with
      | Some d => read_digits (acc * 10 + d) s'
      | None => (acc, s)
      end
  | EmptyString => (acc, s)
  end.

(** An integer: no leading zero, and no fraction or exponent after it (this
    reader refuses them). *)
Definition read_number (s : string) : option (Z * string) :=
  let '(sign, s1) :=
    match s with
    | String c s' => if Ascii.eqb c "-" then (-1, s') else (1, s)
    | EmptyString => (1, s)
    end in
  match s1 with
  | String c s2 =>
      match digit_of c with
      | Some d =>
          let '(n, r) := if (d =? 0)%Z then (0, s2) else read_digits d s2 in
          match r with
          | String c' _ =>
              if bool_decide (is_Some (digit_of c')) || Ascii.eqb c' "." || Ascii.eqb c' "e"
                 || Ascii.eqb c' "E"
              then None else Some (sign * n, r)
          | EmptyString => Some (sign * n, r)
          end
      | None => None
      end
  | EmptyString => None
  end.

(** The characters of a string up to its closing quote; escapes and control
    characters are refused. *)
Fixpoint read_string (s : string) : option (string * string) :=
  match s with
  | EmptyString => None
  | String c s' =>
      if Ascii.eqb c dquote then Some (EmptyString, s')
      else if Ascii.eqb c backslash || (nat_of_ascii c <? 32)%nat then None
      else match read_string s' with
           | Some (str, r) => Some (String c str, r)
           | None => None
           end
  end.

Fixpoint strip_prefix (p s : string) : option string :=
  match p, s with
  | EmptyString, _ => Some s
  | String a p', String b s' => if Ascii.eqb a b then strip_prefix p' s' else None
  | String _ _, EmptyString => None
  end.

Fixpoint read_value (fuel : nat) (s : string) : option (value * string) :=
  match fuel with
  | O => None
  | S f =>
      match skip_ws s with
      | EmptyString => None
      | String c r =>
          if Ascii.eqb c "n" then r' ← strip_prefix "ull" r; Some (VNull, r')
          else if Ascii.eqb c "t" then r' ← strip_prefix "rue" r; Some (VBool true, r')
          else if Ascii.eqb c "f" then r' ← strip_prefix "alse" r; Some (VBool false, r')
          else if Ascii.eqb c dquote then '(str, r') ← read_string r; Some (VStr str, r')
          else if Ascii.eqb c "[" then
            match skip_ws r with
            | String c' r' =>
                if Ascii.eqb c' "]" then Some (VArr [] [], r') else read_elems f r []
            | EmptyString => None
            end
          else if Ascii.eqb c "{" then
            match skip_ws r with
            | String c' r' =>
                if Ascii.eqb c' "}" then Some (VObj [], r') else read_members f r []
            | EmptyString => None
            end
          else '(n, r') ← read_number (String c r); Some (VNum n, r')
      end
  end
with read_elems (fuel : nat) (s : string) (acc : list value) : option (value * string) :=
  match fuel with
  | O => None
  | S f =>
      '(v, r) ← read_value f s;
      match skip_ws r with
      | String c r' =>
          if Ascii.eqb c "," then read_elems f r' (acc ++ [v])
          else if Ascii.eqb c "]" then Some (VArr (acc ++ [v]) [], r')
          else None
      | EmptyString => None
      end
  end
with read_members (fuel : nat) (s : string) (acc : props) : option (value * string) :=
  match fuel with
  | O => None
  | S f =>
      match skip_ws s with
      | String q r =>
          if Ascii.eqb q dquote then
            '(k, r1) ← read_string r;
            match skip_ws r1 with
            | String c r2 =>
                if Ascii.eqb c ":" then
                  '(v, r3) ← read_value f r2;
                  match skip_ws r3 with
                  | String c' r4 =>
                      if Ascii.eqb c' "," then read_members f r4 (dict_set k v acc)
                      else if Ascii.eqb c' "}" then Some (VObj (dict_set k v acc), r4)
                      else None
                  | EmptyString => None
                  end
                else None
            | EmptyString => None
            end
          else None
      | EmptyString => None
      end
  end.

(** [JSON.parse] on the fragment above: one value, then only white space. *)
Definition json_parse (s : string) : option value :=
  '(v, r) ← read_value (2 * String.length s + 2) s;
  match skip_ws r with
  | EmptyString => Some v
  | String _ _ => None
  end.

(** [path.basename] of a POSIX path that does not end in a separator. *)
Definition posix_basename (s : string) : string := List.last (split slash s) "".

(** An archive holding the given files; a missing entry makes the read
    fail, and a listing gives the entries under the prefix. *)
Definition jar_of_files (files : list (string * string)) : Jar :=
  {| read := fun path =>
       match List.find (fun f => String.eqb path (fst f)) files with
       | Some f => Data (snd f)
       | None => Thrown
       end;
     entries := fun path =>
       Some (List.filter (fun name => bool_decide (is_Some (strip_prefix path name)))
               (List.map fst files)) |}.

Definition example_runtime : Runtime :=
  {| JSON_parse := json_parse;
     basename := posix_basename;
     Jar_open := fun _ => jar_of_files [] |}.

(** ** What the archives hold *)

Definition logs (l : list io_event) (mc : Minecraft) : Minecraft :=
  {| jar := jar mc; defaultNamespace := defaultNamespace mc; _cache := _cache mc;
     _modid_jars := _modid_jars mc; io_log := io_log mc ++ l |}.

(** The archives in the order of the code: the primary jar, then the jar
    table as [for ... in] enumerates it. *)
Definition tagged (jars : list (string * Jar)) : list (source * Jar) :=
  map (fun e => (Mod (fst e), snd e)) jars.

Definition sources (mc : Minecraft) : list (source * Jar) :=
  (Primary, jar mc) :: tagged (_modid_jars mc).

Definition has_data (path : string) (j : Jar) : bool :=
  match read j path with
  | Data _ => true
  | _ => false
  end.

(** The bytes of the first archive that has [path]. *)
Fixpoint first_data (path : string) (srcs : list (source * Jar)) : option string :=
  match srcs with
  | [] => None
  | (_, j) :: rest =>
      match read j path with
      | Data buf => Some buf
      | _ => first_data path rest
      end
  end.

(** The reads made until one of the archives has [path]. *)
Fixpoint reads_until (path : string) (srcs : list (source * Jar)) : list io_event :=
  match srcs with
  | [] => []
  | (s, j) :: rest =>
      ERead s path :: if has_data path j then [] else reads_until path rest
  end.

(** Every truthy cache entry is the parse of the file at its path. *)
Definition coherent `{Runtime} (mc : Minecraft) : Prop :=
  forall path v, _cache mc !! path = Some v -> truthy v = true ->
    exists bytes, first_data path (sources mc) = Some bytes /\ JSON_parse bytes = Some v.

(** The document at [path] as the archives give it: what [getParsedJson]
    answers, whatever the cache holds. *)
Definition document `{Runtime} (mc : Minecraft) (path : string) : outcome value :=
  match first_data path (sources mc) with
  | None => Fulfilled VUndef
  | Some bytes =>
      match JSON_parse bytes with
      | None => Rejected SyntaxError
      | Some v => if truthy v then clone v else Fulfilled VUndef
      end
  end.

Definition same_archives (mc mc' : Minecraft) : Prop :=
  jar mc = jar mc' /\ _modid_jars mc = _modid_jars mc'
  /\ defaultNamespace mc = defaultNamespace mc'.

(** [n] calls of [getParsedJson(path)], one after the other. *)
Fixpoint after_calls `{Runtime} (n : nat) (path : string) (mc : Minecraft) : Minecraft :=
  match n with
  | O => mc
  | S n' => snd (getParsedJson path (after_calls n' path mc))
  end.

(** ** Fixtures of the examples *)

Definition primary_files : list (string * string) :=
  [("assets/minecraft/textures/block/stone.png", "stone of the primary jar")].

Definition create_files : list (string * string) :=
  [("assets/minecraft/textures/block/stone.png", "stone of create");
   ("assets/create/textures/block/cog.png", "cog of create")].

Definition botania_files : list (string * string) :=
  [("assets/create/textures/block/cog.png", "cog of botania")].

(** An instance opened on [primary_files] with namespace [mymod], after
    [registerModId('create', ...)] and [registerModId('botania', ...)]. *)
Definition two_mods : Minecraft :=
  let mc := @Minecraft_open example_runtime (inr (jar_of_files primary_files)) (Some "mymod") in
  let mc := snd (@registerModId example_runtime "create" (inr (jar_of_files create_files)) mc) in
  snd (@registerModId example_runtime "botania" (inr (jar_of_files botania_files)) mc).

(** An instance whose jar holds a model file with the text [null]. *)
Definition null_model : Minecraft :=
  @Minecraft_open example_runtime
    (inr (jar_of_files [("assets/minecraft/models/block/void.json", "null")])) None.

(** ** Model chains *)

(** The model document that [getModelFile(name)] finds in the archives. *)
Definition model_document `{Runtime} (mc : Minecraft) (name : value) : outcome value :=
  match model_path name with
  | Fulfilled path => document mc path
  | Rejected e => Rejected e
  end.

(** [lineage mc name levels]: the model chain that starts at [name], from
    the nearest level to the root, each level with the reference it was
    reached by and its own fields (the document without [parent]).  The
    parent of a level is the one the code follows: the [parent] of the
    document, or the base block model by the fallback rule. *)
Inductive lineage `{Runtime} (mc : Minecraft) : value -> list (value * props) -> Prop :=
  | lineage_root (name file parent : value) (own : props) :
      model_document mc name = Fulfilled file ->
      take_parent file = Fulfilled (parent, own) ->
      truthy (fallback_parent parent (lookup_prop "display" own)) = false ->
      lineage mc name [(name, own)]
  | lineage_step (name file parent : value) (own : props) (rest : list (value * props)) :
      model_document mc name = Fulfilled file ->
      take_parent file = Fulfilled (parent, own) ->
      truthy (fallback_parent parent (lookup_prop "display" own)) = true ->
      lineage mc (fallback_parent parent (lookup_prop "display" own)) rest ->
      lineage mc name ((name, own) :: rest).

(** What the key [k] holds after the levels are merged, the nearest level
    last: a level that has the key merges its value over the inherited one,
    a level without it passes the inherited value on. *)
Fixpoint flattened (k : string) (levels : list props) : value :=
  match levels with
  | [] => VUndef
  | own :: rest =>
      if has_own k own then merge_value (flattened k rest) (lookup_prop k own)
      else flattened k rest
  end.

(** The [parents] of a resolved chain: none for a root, else the references
    followed, the last one first. *)
Definition lineage_parents (levels : list (value * props)) : value :=
  match levels with
  | [] | [_] => VUndef
  | _ :: rest => VArr (rev (map fst rest)) []
  end.

Definition is_mapping (v : value) : bool :=
  match v with
  | VObj _ => true
  | _ => false
  end.

(** A level whose own fields have distinct keys and no [parents] among
    them, as a model document has. *)
Definition plain_level (l : value * props) : Prop :=
  has_own "parents" (snd l) = false /\ List.NoDup (map fst (snd l)).

(** A jar with the chain [a -> b -> c]; [c] has gui data and no parent. *)
Definition chain_files : list (string * string) :=
  [("assets/minecraft/models/block/a.json",
    jq "{ 'parent': 'minecraft:block/b', 'textures': { 'all': 'block/a' } }");
   ("assets/minecraft/models/block/b.json",
    jq "{ 'parent': 'minecraft:block/c', 'ambientocclusion': false,
          'textures': { 'all': 'block/b', 'particle': 'block/b' } }");
   ("assets/minecraft/models/block/c.json",
    jq "{ 'display': { 'gui': { 'rotation': [30, 225, 0] } },
          'elements': [1], 'ambientocclusion': true }");
   ("assets/minecraft/models/block/named.json",
    jq "{ 'parent': 'minecraft:block/c', 'blockName': 'custom' }");
   ("assets/minecraft/models/block/heir.json",
    jq "{ 'parent': 'minecraft:block/named' }")].

Definition chain : Minecraft :=
  @Minecraft_open example_runtime (inr (jar_of_files chain_files)) None.

(** ** Independence of the cache *)

(** Two states of an instance over the same archives, each with a coherent
    cache. *)
Definition agree `{Runtime} (mc mc' : Minecraft) : Prop :=
  same_archives mc mc' /\ coherent mc /\ coherent mc'.

(** [c] answers the same from states that agree, and leaves states that
    agree, over the archives it started with. *)
Definition transparentM `{Runtime} {A : Type} (c : M A) : Prop :=
  forall mc mc', agree mc mc' ->
    fst (c mc) = fst (c mc')
    /\ agree (snd (c mc)) (snd (c mc'))
    /\ same_archives mc (snd (c mc)).

Definition transparent `{Runtime} {A : Type} (c : MF A) : Prop :=
  forall mc mc', agree mc mc' ->
    match c mc, c mc' with
    | Some (o, m), Some (o', m') => o = o' /\ agree m m' /\ same_archives mc m
    | None, None => True
    | _, _ => False
    end.


(** What one block state adds to the list of [getBlockList], resolved on
    its own from the state [mc]. *)
Definition contribution `{Runtime} (fuel : nat) (mc : Minecraft) (block_state : value) :
    list value :=
  match getModelFromBlockState fuel block_state mc with
  | Some (Fulfilled v, _) => if truthy v then [v] else []
  | _ => []
  end.

(** A jar with three block states: the model chain of [lamp] is broken (its
    parent is in no archive), the model file of [ghost] is missing, and
    [stone] resolves, through the fallback rule, to the base block model. *)
Definition world_files : list (string * string) :=
  [("assets/minecraft/blockstates/lamp.json",
    jq "{ 'variants': { 'lit=false': [ { 'model': 'minecraft:block/lamp' },
                                       { 'model': 'minecraft:block/lamp_on' } ] } }");
   ("assets/minecraft/blockstates/ghost.json",
    jq "{ 'variants': { '': { 'model': 'minecraft:block/ghost' } } }");
   ("assets/minecraft/blockstates/notes.txt", "not a block state");
   ("assets/minecraft/blockstates/stone.json",
    jq "{ 'variants': { 'fire': { 'model': 'minecraft:block/lamp' },
                        '': { 'model': 'minecraft:block/stone' } } }");
   ("assets/minecraft/models/block/block.json",
    jq "{ 'display': { 'gui': { 'rotation': [30, 225, 0] } } }");
   ("assets/minecraft/models/block/stone.json",
    jq "{ 'textures': { 'all': 'block/stone' } }");
   ("assets/minecraft/models/block/lamp.json",
    jq "{ 'parent': 'minecraft:block/nowhere' }")].

Definition world : Minecraft :=
  @Minecraft_open example_runtime (inr (jar_of_files world_files)) None.

Definition empty_store : Store := {| heap := ∅; next := 0 |}.

(** The instance on the chain fixture, with its objects in a heap, after a
    first [getParsedJson] of the model file of [a]. *)
Definition chain_once : MinecraftRef :=
  snd (@getParsedJson_ref example_runtime "assets/minecraft/models/block/a.json"
         {| instance := chain; _cache_ref := ∅; store := empty_store |}).

(** [views m mc]: the instance [mc], whose cache holds trees, is what the
    instance [m], whose cache holds references, looks like when every
    cached reference is read. *)
Definition views (m : MinecraftRef) (mc : Minecraft) : Prop :=
  mc = with_cache (_cache mc) (instance m)
  /\ forall path,
       match _cache_ref m !! path, _cache mc !! path with
       | Some r, Some v => reify (next (store m)) (heap (store m)) r = Some v
       | None, None => True
       | _, _ => False
       end.

(** An outcome that is a reference reads as an outcome that is a tree. *)
Definition reads_as (st : Store) (o : outcome hvalue) (o' : outcome value) : Prop :=
  match o, o' with
  | Fulfilled r, Fulfilled v => reify (next st) (heap st) r = Some v
  | Rejected e, Rejected e' => e = e'
  | _, _ => False
  end.

(** The values that [JSON.parse] can give: no [undefined] anywhere, no named
    property on an array. *)
Fixpoint is_json (v : value) : bool :=
  match v with
  | VUndef => false
  | VArr elems named =>
      forallb is_json elems && match named with [] => true | _ => false end
  | VObj o => forallb (fun e => is_json (snd e)) o
  | _ => true
  end.

(** ** What the archives list *)

(** What [jar.entries(path)] adds to a search: a listing that fails counts
    for an empty one. *)
Definition listed (path : string) (j : Jar) : list string :=
  default [] (entries j path).

(** The first listing that is not empty, the archives taken in order. *)
Fixpoint first_listing (path : string) (srcs : list (source * Jar)) : list string :=
  match srcs with
  | [] => []
  | (_, j) :: rest =>
      match listed path j with
      | [] => first_listing path rest
      | l => l
      end
  end.

(** The listings asked for until one is not empty. *)
Fixpoint listings_until (path : string) (srcs : list (source * Jar)) : list io_event :=
  match srcs with
  | [] => []
  | (s, j) :: rest =>
      EEntries s path :: match listed path j with
                         | [] => listings_until path rest
                         | _ => []
                         end
  end.

(** The identifier that [getBlockStates] gives to the state of an entry. *)
Definition block_identifier `{Runtime} (namespace name : string) : value :=
  VStr (namespace +:+ ":" +:+ drop_last 5 (basename name)).

(** The resolution of [block_state] comes to an end within [fuel]. *)
Definition settles `{Runtime} (fuel : nat) (mc : Minecraft) (block_state : value) : bool :=
  match getModelFromBlockState fuel block_state mc with
  | Some _ => true
  | None => false
  end.

(** The values that can take a property: objects and arrays. *)
Definition is_object (v : value) : bool :=
  match v with
  | VObj _ | VArr _ _ => true
  | _ => false
  end.

(** ** Resolutions that go on *)

(** [follows mc name next]: resolving [name], [getModel] goes on to resolve
    [next], the [parent] of the document of [name] or the base block model
    by the fallback rule. *)
Definition follows `{Runtime} (mc : Minecraft) (name next : value) : Prop :=
  exists file parent own,
    model_document mc name = Fulfilled file
    /\ take_parent file = Fulfilled (parent, own)
    /\ fallback_parent parent (lookup_prop "display" own) = next
    /\ truthy next = true.

(** ** More fixtures *)

(** An instance whose jar holds a model file that is not valid JSON. *)
Definition broken_files : list (string * string) :=
  [("assets/minecraft/models/block/broken.json", jq "{ 'parent': 'block/cube', }");
   ("assets/minecraft/textures/block/lava.png.mcmeta", jq "{ 'animation': ")].

Definition broken : Minecraft :=
  @Minecraft_open example_runtime (inr (jar_of_files broken_files)) None.

(** A jar of a mod with one model, and the metadata of one texture. *)
Definition gear_files : list (string * string) :=
  [("assets/create/models/block/gear.json", jq "{ 'parent': 'minecraft:block/c' }");
   ("assets/create/textures/block/gear.png.mcmeta", jq "{ 'animation': {} }")].

(** The chain fixture with the jar of the mod registered. *)
Definition geared : Minecraft :=
  snd (@registerModId example_runtime "create" (inr (jar_of_files gear_files)) chain).

(** Two models that name each other as parent. *)
Definition loop_files : list (string * string) :=
  [("assets/minecraft/models/block/ping.json", jq "{ 'parent': 'minecraft:block/pong' }");
   ("assets/minecraft/models/block/pong.json", jq "{ 'parent': 'minecraft:block/ping' }")].

Definition loop : Minecraft :=
  @Minecraft_open example_runtime (inr (jar_of_files loop_files)) None.

(** A jar whose base block model has no gui data. *)
Definition bare_files : list (string * string) :=
  [("assets/minecraft/models/block/block.json", jq "{ 'elements': [] }");
   ("assets/minecraft/models/block/stone.json",
    jq "{ 'textures': { 'all': 'block/stone' } }")].

Definition bare : Minecraft :=
  @Minecraft_open example_runtime (inr (jar_of_files bare_files)) None.

(** A jar with a block-state file that holds [null] beside a valid one. *)
Definition spoiled_files : list (string * string) :=
  [("assets/minecraft/blockstates/stone.json",
    jq "{ 'variants': { '': { 'model': 'minecraft:block/stone' } } }");
   ("assets/minecraft/blockstates/void.json", "null");
   ("assets/minecraft/models/block/block.json",
    jq "{ 'display': { 'gui': { 'rotation': [30, 225, 0] } } }");
   ("assets/minecraft/models/block/stone.json",
    jq "{ 'textures': { 'all': 'block/stone' } }")].

Definition spoiled : Minecraft :=
  @Minecraft_open example_runtime (inr (jar_of_files spoiled_files)) None.

(** A jar for the older revision: two models under [models/block], one of
    them in a directory of its own. *)
Definition nested_files : list (string * string) :=
  [("assets/minecraft/models/block/c.json",
    jq "{ 'display': { 'gui': { 'rotation': [30, 225, 0] } } }");
   ("assets/minecraft/models/block/sub/d.json", jq "{ 'parent': 'minecraft:block/c' }")].

Definition nested : Minecraft :=
  @Minecraft_open example_runtime (inr (jar_of_files nested_files)) None.

(** An instance on an archive that fails at every access. *)
Definition unreadable : Minecraft :=
  @Minecraft_open example_runtime
    (inr {| read := fun _ => Thrown; entries := fun _ => None |}) None.

(** ** Documents that stay in the cache *)

(** [keeps mc mc']: every document that the cache of [mc] holds is in the
    cache of [mc'], under the same path. *)
Definition keeps (mc mc' : Minecraft) : Prop :=
  forall path, truthy (cache_at path mc) = true -> cache_at path mc' = cache_at path mc.

(** * Properties *)

Example json_parse_object :
  json_parse (jq "{ 'parent': 'block/cube', 'n': [1, -20, null, true], 'o': {} }")
  = Some (VObj [("parent", VStr "block/cube");
                ("n", VArr [VNum 1; VNum (-20); VNull; VBool true] []);
                ("o", VObj [])]).
Proof. vm_compute. reflexivity. Qed.

Example json_parse_refuses : json_parse (jq "{ 'a': 1, }") = None.
Proof. vm_compute. reflexivity. Qed.

Example json_parse_falsy :
  json_parse "null" = Some VNull /\ json_parse " 0" = Some (VNum 0)
  /\ json_parse "false" = Some (VBool false) /\ json_parse (jq "''") = Some (VStr "").
Proof. vm_compute. repeat split; reflexivity. Qed.

Example id_plain : Minecraft_id "stone" = {| namespace := "minecraft"; id := "stone" |}.
Proof. reflexivity. Qed.

Example id_prefixed :
  Minecraft_id "create:block/cog" = {| namespace := "create"; id := "block/cog" |}.
Proof. reflexivity. Qed.

Example id_two_separators :
  Minecraft_id "a:b:c" = {| namespace := "a"; id := "b" |}.
Proof. reflexivity. Qed.

Example index_from_pretty :
  index_from 0%nat [VNull; VNull] = [("0", VNull); ("1", VNull)].
Proof. vm_compute. reflexivity. Qed.

(** ** Dictionaries *)

Lemma lookup_dict_set_eq (k : string) (v : value) (o : props) :
  lookup_prop k (dict_set k v o) = v.
Proof.
  induction o as [|[k' v'] o IH]; simpl.
  - now rewrite String.eqb_refl.
  - destruct (String.eqb k k') eqn:E; simpl; rewrite ?String.eqb_refl, ?E; auto.
Qed.

Lemma lookup_dict_set_ne (k k' : string) (v : value) (o : props) :
  k <> k' -> lookup_prop k (dict_set k' v o) = lookup_prop k o.
Proof.
  intros Hne. induction o as [|[k2 v2] o IH]; simpl.
  - destruct (String.eqb k k') eqn:E; [apply String.eqb_eq in E; congruence | reflexivity].
  - destruct (String.eqb k' k2) eqn:E2; simpl.
    + apply String.eqb_eq in E2; subst k2.
      destruct (String.eqb k k') eqn:E; [apply String.eqb_eq in E; congruence | reflexivity].
    + destruct (String.eqb k k2); auto.
Qed.

Lemma dict_set_new {A : Type} (k : string) (v : A) (o : list (string * A)) :
  has_own k o = false -> dict_set k v o = o ++ [(k, v)].
Proof.
  induction o as [|[k' v'] o IH]; simpl; [reflexivity|].
  destruct (String.eqb k k'); simpl; [discriminate|].
  intros Hn. now rewrite IH.
Qed.

Lemma dict_set_old {A : Type} (k : string) (v v0 : A) (pre post : list (string * A)) :
  has_own k pre = false ->
  dict_set k v (pre ++ (k, v0) :: post) = pre ++ (k, v) :: post.
Proof.
  induction pre as [|[k' v'] pre IH]; simpl.
  - now rewrite String.eqb_refl.
  - destruct (String.eqb k k'); simpl; [discriminate|].
    intros Hn. now rewrite IH.
Qed.

Lemma has_own_app {A : Type} (k : string) (a b : list (string * A)) :
  has_own k (a ++ b) = has_own k a || has_own k b.
Proof.
  induction a as [|[k' v'] a IH]; [reflexivity|]. cbn [app has_own].
  now rewrite IH, orb_assoc.
Qed.

Lemma array_index_not_proto (k : string) (i : N) :
  array_index k = Some i -> k <> "__proto__".
Proof. intros Hk ->. discriminate. Qed.

(** A new key that is no array index goes last. *)
Lemma object_set_new {A : Type} (k : string) (v : A) (o : list (string * A)) :
  has_own k o = false -> k <> "__proto__" -> array_index k = None ->
  object_set k v o = o ++ [(k, v)].
Proof.
  intros Hn Hp Hi. unfold object_set. rewrite Hn, Hi.
  destruct (String.eqb_spec k "__proto__"); [contradiction | now apply dict_set_new].
Qed.

(** A key that is there keeps its place. *)
Lemma object_set_old {A : Type} (k : string) (v v0 : A) (pre post : list (string * A)) :
  has_own k pre = false ->
  object_set k v (pre ++ (k, v0) :: post) = pre ++ (k, v) :: post.
Proof.
  intros Hn. unfold object_set. rewrite has_own_app. cbn [has_own].
  rewrite String.eqb_refl, orb_true_r. now apply dict_set_old.
Qed.

Lemma object_set_proto {A : Type} (v : A) (o : list (string * A)) :
  has_own "__proto__" o = false -> object_set "__proto__" v o = o.
Proof. intros Hn. unfold object_set. now rewrite Hn. Qed.

Lemma insert_index_spec {A : Type} (i : N) (k : string) (v : A)
    (pre post : list (string * A)) :
  Forall (fun e => exists i', array_index (fst e) = Some i' /\ (i' < i)%N) pre ->
  (forall e rest i', post = e :: rest -> array_index (fst e) = Some i' -> (i <= i')%N) ->
  insert_index i k v (pre ++ post) = pre ++ (k, v) :: post.
Proof.
  intros Hpre Hpost. induction Hpre as [|[k' v'] pre (i' & Hi' & Hlt) _ IH];
    cbn [app insert_index].
  - destruct post as [|[k' v'] post]; [reflexivity|]. cbn [insert_index].
    destruct (array_index k') as [i'|] eqn:Hi'; [|reflexivity].
    pose proof (Hpost (k', v') post i' eq_refl Hi') as Hle.
    destruct (N.ltb_spec i' i); [lia | reflexivity].
  - cbn [fst] in Hi'. rewrite Hi'. destruct (N.ltb_spec i' i); [|lia]. now rewrite IH.
Qed.

(** A new key that is an array index goes after the smaller indices and
    before every other key. *)
Lemma object_set_index {A : Type} (i : N) (k : string) (v : A)
    (pre post : list (string * A)) :
  has_own k (pre ++ post) = false ->
  array_index k = Some i ->
  Forall (fun e => exists i', array_index (fst e) = Some i' /\ (i' < i)%N) pre ->
  (forall e rest i', post = e :: rest -> array_index (fst e) = Some i' -> (i <= i')%N) ->
  object_set k v (pre ++ post) = pre ++ (k, v) :: post.
Proof.
  intros Hn Hi Hpre Hpost. unfold object_set. rewrite Hn, Hi.
  destruct (String.eqb_spec k "__proto__") as [->|_]; [discriminate|].
  now apply insert_index_spec.
Qed.

(** ** Lookup across the archives *)

Lemma logs_nil (mc : Minecraft) : logs [] mc = mc.
Proof. destruct mc; unfold logs; simpl. now rewrite app_nil_r. Qed.

Lemma log_logs (e : io_event) (l : list io_event) (mc : Minecraft) :
  logs l (log e mc) = logs (e :: l) mc.
Proof. destruct mc; unfold logs, log; simpl. now rewrite <- app_assoc. Qed.

Lemma getFile_mods_spec (path : string) (jars : list (string * Jar)) (mc : Minecraft) :
  getFile_mods path jars mc
  = (Fulfilled (first_data path (tagged jars)), logs (reads_until path (tagged jars)) mc).
Proof.
  revert mc. induction jars as [|[key j] jars IH]; intros mc; simpl.
  - unfold ret. now rewrite logs_nil.
  - unfold bind, try_catch, jar_read, has_data.
    destruct (read j path) eqn:E; simpl; unfold ret; simpl.
    + rewrite IH. now rewrite log_logs.
    + rewrite IH. now rewrite log_logs.
    + now rewrite <- (log_logs _ []), logs_nil.
Qed.

Lemma getFile_spec (path : string) (mc : Minecraft) :
  getFile path mc
  = (Fulfilled (first_data path (sources mc)), logs (reads_until path (sources mc)) mc).
Proof.
  unfold getFile, sources, bind, try_catch, jar_read; simpl. unfold has_data.
  destruct (read (jar mc) path) eqn:E; simpl; unfold ret; simpl.
  - rewrite getFile_mods_spec. now rewrite log_logs.
  - rewrite getFile_mods_spec. now rewrite log_logs.
  - now rewrite <- (log_logs _ []), logs_nil.
Qed.

Lemma first_data_none (path : string) (srcs : list (source * Jar)) :
  first_data path srcs = None <-> Forall (fun s => has_data path (snd s) = false) srcs.
Proof.
  induction srcs as [|[s j] srcs IH]; simpl.
  - split; auto.
  - unfold has_data at 1. split.
    + intros Hf. destruct (read j path) eqn:E; try discriminate;
        (constructor; [simpl; unfold has_data; now rewrite E | now apply IH]).
    + intros Hall. inversion Hall as [|x l Hx Hl]; subst. simpl in Hx.
      unfold has_data in Hx. destruct (read j path); try discriminate; now apply IH.
Qed.

Lemma first_data_skip (path : string) (pre post : list (source * Jar)) :
  Forall (fun s => has_data path (snd s) = false) pre ->
  first_data path (pre ++ post) = first_data path post
  /\ reads_until path (pre ++ post)
     = map (fun s => ERead (fst s) path) pre ++ reads_until path post.
Proof.
  induction pre as [|[s j] pre IH]; simpl; intros Hall; [auto|].
  inversion Hall as [|x l Hx Hl]; subst. simpl in Hx.
  destruct (IH Hl) as [IH1 IH2]. rewrite Hx.
  unfold has_data in Hx. destruct (read j path); try discriminate; rewrite IH1, IH2; auto.
Qed.

(** C4 as the spec states it fails: the registered jars are not always
    asked in the order of their registration.  The table is a plain object
    and [for ... in] enumerates a mod id that is an array index before the
    others: with [create] registered first and [1] second, both with the
    file, [getFile] returns the file of [1]. *)
Lemma registration_order_not_kept :
  ~ (forall (mc0 : Minecraft) (id1 id2 : string) (j1 j2 : Jar) (path buf1 buf2 : string),
       _modid_jars mc0 = [] -> id1 <> id2 ->
       has_data path (jar mc0) = false ->
       read j1 path = Data buf1 -> read j2 path = Data buf2 ->
       fst (getFile path
              (snd (@registerModId example_runtime id2 (inr j2)
                      (snd (@registerModId example_runtime id1 (inr j1) mc0)))))
       = Fulfilled (Some buf1)).
Proof.
  intros Hclaim.
  specialize (Hclaim (@Minecraft_open example_runtime (inr (jar_of_files primary_files)) None)
                "create" "1" (jar_of_files create_files) (jar_of_files botania_files)
                "assets/create/textures/block/cog.png" "cog of create" "cog of botania"
                eq_refl ltac:(discriminate) eq_refl eq_refl eq_refl).
  vm_compute in Hclaim. discriminate.
Qed.

(** C4, amended.  [getFile] reads the primary jar first and returns its
    content whenever that read gives a buffer, whatever the other jars hold;
    when the primary read fails or gives nothing it asks the jars of the
    table in the order of their enumeration, skips every one that fails or
    gives nothing, and returns the content of the first that has the path;
    it returns [null] exactly when no archive has the path, and it never
    rejects.  The enumeration is the order of registration for the mod ids
    that are neither array indices nor [__proto__]: such a new mod id goes
    last, and a mod id registered again keeps its place and takes the new
    jar.  A new mod id that is an array index goes after the smaller
    indices and before every other mod id; the mod id [__proto__] makes no
    entry. *)
Theorem getFile_primary_then_registered `{Runtime} (path : string) (mc : Minecraft) :
  (forall buf, read (jar mc) path = Data buf ->
     getFile path mc = (Fulfilled (Some buf), logs [ERead Primary path] mc))
  /\ (forall pre key j post buf,
        has_data path (jar mc) = false ->
        _modid_jars mc = pre ++ (key, j) :: post ->
        Forall (fun e => has_data path (snd e) = false) pre ->
        read j path = Data buf ->
        getFile path mc
        = (Fulfilled (Some buf),
           logs (ERead Primary path
                   :: map (fun e => ERead (Mod (fst e)) path) (pre ++ [(key, j)])) mc))
  /\ (fst (getFile path mc) = Fulfilled None
      <-> Forall (fun s => has_data path (snd s) = false) (sources mc))
  /\ (forall e, fst (getFile path mc) <> Rejected e)
  /\ (forall modid j,
        has_own modid (_modid_jars mc) = false ->
        modid <> "__proto__" -> array_index modid = None ->
        _modid_jars (snd (registerModId modid (inr j) mc)) = _modid_jars mc ++ [(modid, j)])
  /\ (forall modid j j0 pre post,
        _modid_jars mc = pre ++ (modid, j0) :: post ->
        has_own modid pre = false ->
        _modid_jars (snd (registerModId modid (inr j) mc)) = pre ++ (modid, j) :: post)
  /\ (forall modid j i pre post,
        _modid_jars mc = pre ++ post ->
        has_own modid (pre ++ post) = false ->
        array_index modid = Some i ->
        Forall (fun e => exists i', array_index (fst e) = Some i' /\ (i' < i)%N) pre ->
        (forall e rest i', post = e :: rest -> array_index (fst e) = Some i' -> (i <= i')%N) ->
        _modid_jars (snd (registerModId modid (inr j) mc)) = pre ++ (modid, j) :: post)
  /\ (forall j,
        has_own "__proto__" (_modid_jars mc) = false ->
        _modid_jars (snd (registerModId "__proto__" (inr j) mc)) = _modid_jars mc).
Proof.
  repeat split.
  - intros buf Hr. rewrite getFile_spec. unfold sources; simpl.
    unfold has_data. now rewrite Hr.
  - intros pre key j post buf Hp Ht Hpre Hr. rewrite getFile_spec.
    unfold sources; simpl. rewrite Hp, Ht.
    unfold has_data in Hp. destruct (read (jar mc) path) eqn:E; try discriminate.
    all: unfold tagged; rewrite map_app; simpl.
    all: edestruct (first_data_skip path (map (fun e => (Mod (fst e), snd e)) pre)) as [H1 H2];
      [ apply Forall_map; eapply Forall_impl; [exact Hpre | simpl; auto] | ].
    all: rewrite H1, H2; simpl; unfold has_data; rewrite Hr.
    all: do 2 f_equal; f_equal; rewrite map_app, map_map; simpl; reflexivity.
  - rewrite getFile_spec; cbn [fst]. intros Hf.
    apply first_data_none. now inversion Hf.
  - rewrite getFile_spec; cbn [fst]. intros Hall.
    apply first_data_none in Hall. now rewrite Hall.
  - intros e. rewrite getFile_spec; cbn [fst]. discriminate.
  - intros modid j Hn Hp Hi. cbn [registerModId snd with_modid_jars _modid_jars].
    now apply object_set_new.
  - intros modid j j0 pre post Ht Hn. cbn [registerModId snd with_modid_jars _modid_jars].
    rewrite Ht. now apply object_set_old.
  - intros modid j i pre post Ht Hn Hi Hpre Hpost.
    cbn [registerModId snd with_modid_jars _modid_jars]. rewrite Ht.
    now apply (object_set_index i).
  - intros j Hn. cbn [registerModId snd with_modid_jars _modid_jars].
    now apply object_set_proto.
Qed.

Lemma getFile_primary_then_registered_witness :
  fst (getFile "assets/minecraft/textures/block/stone.png" two_mods)
  = Fulfilled (Some "stone of the primary jar")
  /\ getFile "assets/create/textures/block/cog.png" two_mods
     = (Fulfilled (Some "cog of create"),
        logs [ERead Primary "assets/create/textures/block/cog.png";
              ERead (Mod "create") "assets/create/textures/block/cog.png"] two_mods)
  /\ map fst (_modid_jars
                (snd (@registerModId example_runtime "quark" (inr (jar_of_files [])) two_mods)))
     = ["create"; "botania"; "quark"]
  /\ map fst (_modid_jars
                (snd (@registerModId example_runtime "1" (inr (jar_of_files [])) two_mods)))
     = ["1"; "create"; "botania"].
Proof.
  split; [|split; [|split]].
  - destruct (getFile_primary_then_registered (H := example_runtime)
                "assets/minecraft/textures/block/stone.png" two_mods) as [Hprimary _].
    rewrite (Hprimary "stone of the primary jar" eq_refl). reflexivity.
  - destruct (getFile_primary_then_registered (H := example_runtime)
                "assets/create/textures/block/cog.png" two_mods) as (_ & Hmods & _).
    apply (Hmods [] "create" (jar_of_files create_files)
             [("botania", jar_of_files botania_files)] "cog of create");
      [reflexivity | reflexivity | constructor | reflexivity].
  - destruct (getFile_primary_then_registered (H := example_runtime) "" two_mods)
      as (_ & _ & _ & _ & Hlast & _).
    rewrite (Hlast "quark" (jar_of_files []) eq_refl ltac:(discriminate) eq_refl).
    reflexivity.
  - destruct (getFile_primary_then_registered (H := example_runtime) "" two_mods)
      as (_ & _ & _ & _ & _ & _ & Hindex & _).
    rewrite (Hindex "1" (jar_of_files []) 1%N [] (_modid_jars two_mods)
               eq_refl eq_refl eq_refl ltac:(constructor)).
    + reflexivity.
    + intros e rest i' Hpost Hi'. vm_compute in Hpost. injection Hpost as <- _.
      discriminate.
Defined.

(** ** Identifiers *)

Lemma includes_app (c : ascii) (s t : string) :
  includes c (s +:+ t) = includes c s || includes c t.
Proof.
  induction s as [|a s IH]; simpl; [reflexivity|].
  rewrite IH. now rewrite orb_assoc.
Qed.

Lemma split_no_separator (c : ascii) (s : string) :
  includes c s = false -> split c s = [s].
Proof.
  induction s as [|a s IH]; simpl; [reflexivity|].
  intros Hn. apply orb_false_iff in Hn as [Ha Hs].
  rewrite Ha, (IH Hs). reflexivity.
Qed.

Lemma split_at_first (c : ascii) (s t : string) :
  includes c s = false -> split c (s +:+ String c t) = s :: split c t.
Proof.
  induction s as [|a s IH]; simpl.
  - now rewrite Ascii.eqb_refl.
  - intros Hn. apply orb_false_iff in Hn as [Ha Hs].
    rewrite Ha, (IH Hs). reflexivity.
Qed.

(** The defaults of the array pattern in [id] are never read. *)
Lemma split_two_pieces (c : ascii) (s : string) :
  includes c s = true -> (2 <= length (split c s))%nat.
Proof.
  induction s as [|a s IH]; simpl; [discriminate|].
  destruct (Ascii.eqb a c); simpl.
  - intros _. destruct s; simpl; [lia|]. destruct (Ascii.eqb _ c); [simpl; lia|].
    destruct (split c s); simpl; lia.
  - intros Hs. specialize (IH Hs). destruct (split c s); simpl in *; lia.
Qed.

(** C5 as the spec states it fails: a name without prefix does not get the
    namespace the instance was opened with. *)
Lemma id_ignores_defaultNamespace :
  ~ (forall (mc : Minecraft) (name : string),
       includes colon name = false ->
       namespace (Minecraft_id name) = defaultNamespace mc).
Proof.
  intros Hclaim. specialize (Hclaim two_mods "stone" eq_refl).
  vm_compute in Hclaim. discriminate.
Qed.

(** C5, amended.  A name without a namespace prefix gets the fixed
    namespace [minecraft], whatever default namespace the instance was
    constructed with, and keeps the whole name as its id; a name [ns:id]
    with one separator gives namespace [ns] and id [id]. *)
Theorem id_fixed_namespace (mc : Minecraft) :
  (forall name, includes colon name = false ->
     Minecraft_id name = {| namespace := "minecraft"; id := name |})
  /\ (forall ns local,
        includes colon ns = false -> includes colon local = false ->
        Minecraft_id (ns +:+ ":" +:+ local) = {| namespace := ns; id := local |}).
Proof.
  split.
  - intros name Hn. unfold Minecraft_id. now rewrite Hn.
  - intros ns local Hns Hlocal. unfold Minecraft_id.
    rewrite includes_app. simpl. rewrite orb_true_r.
    change (":" +:+ local) with (String colon local).
    rewrite (split_at_first _ _ _ Hns), (split_no_separator _ _ Hlocal). reflexivity.
Qed.

Lemma id_fixed_namespace_witness :
  defaultNamespace two_mods = "mymod"
  /\ Minecraft_id "stone" = {| namespace := "minecraft"; id := "stone" |}
  /\ Minecraft_id "create:block/cog" = {| namespace := "create"; id := "block/cog" |}.
Proof.
  split; [reflexivity|]. split.
  - apply (id_fixed_namespace two_mods); reflexivity.
  - apply (proj2 (id_fixed_namespace two_mods) "create" "block/cog"); reflexivity.
Defined.

(** ** The cache *)

Section Cache.
Context `{Runtime}.

Lemma cache_at_store (path : string) (v : value) (mc : Minecraft) :
  cache_at path (with_cache (<[path := v]> (_cache mc)) mc) = v.
Proof. unfold cache_at; simpl. now rewrite lookup_insert_eq. Qed.

Lemma getParsedJson_hit (path : string) (mc : Minecraft) :
  truthy (cache_at path mc) = true ->
  getParsedJson path mc = (clone (cache_at path mc), mc).
Proof.
  intros Ht. unfold getParsedJson, bind. rewrite Ht. simpl. unfold ret, lift.
  now rewrite Ht.
Qed.

Lemma getParsedJson_miss (path : string) (mc : Minecraft) :
  truthy (cache_at path mc) = false ->
  let mc1 := logs (reads_until path (sources mc)) mc in
  getParsedJson path mc =
    match first_data path (sources mc) with
    | None => (Fulfilled VUndef, mc1)
    | Some bytes =>
        match JSON_parse bytes with
        | None => (Rejected SyntaxError, mc1)
        | Some v =>
            (if truthy v then clone v else Fulfilled VUndef,
             with_cache (<[path := v]> (_cache mc1)) mc1)
        end
    end.
Proof.
  intros Hf mc1. unfold getParsedJson, bind. rewrite Hf. cbn [negb].
  rewrite getFile_spec. fold mc1.
  assert (Hc : cache_at path mc1 = cache_at path mc) by reflexivity.
  destruct (first_data path (sources mc)) as [bytes|].
  - unfold lift, parseJson, JSON_parse_throwing.
    destruct (JSON_parse bytes) as [v|]; [|reflexivity].
    unfold cache_store. rewrite cache_at_store.
    destruct (truthy v); reflexivity.
  - unfold ret. now rewrite Hc, Hf.
Qed.

Lemma same_archives_refl (mc : Minecraft) : same_archives mc mc.
Proof. repeat split. Qed.

Lemma same_archives_trans (a b c : Minecraft) :
  same_archives a b -> same_archives b c -> same_archives a c.
Proof. unfold same_archives. intros (?&?&?) (?&?&?). repeat split; congruence. Qed.

Lemma same_archives_sym (a b : Minecraft) : same_archives a b -> same_archives b a.
Proof. unfold same_archives. intros (?&?&?). repeat split; congruence. Qed.

Lemma same_archives_sources (a b : Minecraft) :
  same_archives a b -> sources a = sources b.
Proof. unfold same_archives, sources. intros (-> & -> & _). reflexivity. Qed.

Lemma same_archives_document (a b : Minecraft) (path : string) :
  same_archives a b -> document a path = document b path.
Proof. intros Hs. unfold document. now rewrite (same_archives_sources _ _ Hs). Qed.

Lemma same_archives_logs (l : list io_event) (mc : Minecraft) :
  same_archives mc (logs l mc).
Proof. repeat split. Qed.

(** A fresh instance has an empty cache. *)
Lemma coherent_open (file : string + Jar) (ns : option string) :
  coherent (Minecraft_open file ns).
Proof. intros path v Hl. simpl in Hl. now rewrite lookup_empty in Hl. Qed.

Lemma coherent_registerModId_fresh (modid : string) (p : string + Jar) (mc : Minecraft) :
  _cache mc = ∅ -> coherent (snd (registerModId modid p mc)).
Proof. intros He path v Hl. simpl in Hl. rewrite He in Hl. now rewrite lookup_empty in Hl. Qed.

(** Under a coherent cache [getParsedJson] answers with the document of the
    archives, and leaves a coherent cache over the same archives. *)
Lemma getParsedJson_document (path : string) (mc : Minecraft) :
  coherent mc ->
  fst (getParsedJson path mc) = document mc path
  /\ coherent (snd (getParsedJson path mc))
  /\ same_archives mc (snd (getParsedJson path mc)).
Proof.
  intros Hc. destruct (truthy (cache_at path mc)) eqn:Ht.
  - rewrite (getParsedJson_hit _ _ Ht). simpl. split; [|split; [assumption|apply same_archives_refl]].
    unfold cache_at in *. destruct (_cache mc !! path) as [v|] eqn:El; simpl in *; [|discriminate].
    destruct (Hc path v El Ht) as (bytes & Hb & Hp).
    unfold document. now rewrite Hb, Hp, Ht.
  - rewrite (getParsedJson_miss _ _ Ht). unfold document.
    destruct (first_data path (sources mc)) as [bytes|] eqn:Hb; simpl.
    + destruct (JSON_parse bytes) as [v|] eqn:Hp; simpl.
      * split; [reflexivity|]. split; [|repeat split].
        intros p w Hl Hw. simpl in Hl.
        destruct (decide (path = p)) as [->|Hne].
        -- rewrite lookup_insert_eq in Hl. injection Hl as <-. eauto.
        -- rewrite lookup_insert_ne in Hl by assumption. exact (Hc p w Hl Hw).
      * split; [reflexivity|]. split; [exact Hc | repeat split].
    + split; [reflexivity|]. split; [exact Hc | repeat split].
Qed.

End Cache.

Section FalsyDocuments.
Context `{Runtime}.

Lemma after_calls_falsy (path : string) (mc : Minecraft) (bytes : string) (v : value) :
  first_data path (sources mc) = Some bytes ->
  JSON_parse bytes = Some v ->
  truthy v = false ->
  truthy (cache_at path mc) = false ->
  forall n,
    sources (after_calls n path mc) = sources mc
    /\ truthy (cache_at path (after_calls n path mc)) = false.
Proof.
  intros Hb Hp Hv Hc n. induction n as [|n [IHs IHc]]; [auto|].
  cbn [after_calls]. rewrite (getParsedJson_miss _ _ IHc). rewrite IHs, Hb, Hp.
  cbn [snd]. split; [exact IHs|]. now rewrite cache_at_store.
Qed.

End FalsyDocuments.

(** C10 as it is stated fails: the falsy document is stored under its path. *)
Lemma falsy_document_is_stored :
  ~ (forall (R : Runtime) (path : string) (mc : Minecraft) (bytes : string) (v : value),
       first_data path (sources mc) = Some bytes ->
       JSON_parse bytes = Some v ->
       truthy v = false ->
       _cache mc !! path = None ->
       _cache (snd (getParsedJson path mc)) !! path = None).
Proof.
  intros Hclaim.
  specialize (Hclaim example_runtime "assets/minecraft/models/block/void.json"
                null_model "null" VNull eq_refl eq_refl eq_refl eq_refl).
  vm_compute in Hclaim. discriminate.
Qed.

(** C10, amended.  For a [path] that is no name of a member of
    [Object.prototype] (under such a name the cache, a plain object,
    answers with the inherited member): when the file at [path] exists and
    parses to a falsy document and the instance holds no truthy entry for
    [path], every call of [getParsedJson(path)] returns [undefined], reads
    the archives again (the primary jar first) and parses again, and stores
    the falsy value under [path]: an entry that no later call takes for a
    hit. *)
Theorem getParsedJson_falsy_document `{Runtime}
    (path : string) (mc : Minecraft) (bytes : string) (v : value) :
  prototype_member path = false ->
  first_data path (sources mc) = Some bytes ->
  JSON_parse bytes = Some v ->
  truthy v = false ->
  truthy (cache_at path mc) = false ->
  forall n,
    let mcn := after_calls n path mc in
    let mcn' := logs (reads_until path (sources mc)) mcn in
    getParsedJson path mcn
    = (Fulfilled VUndef, with_cache (<[path := v]> (_cache mcn')) mcn')
    /\ (exists rest, reads_until path (sources mc) = ERead Primary path :: rest)
    /\ _cache (after_calls (S n) path mc) !! path = Some v.
Proof.
  intros _ Hb Hp Hv Hc n mcn mcn'.
  destruct (after_calls_falsy path mc bytes v Hb Hp Hv Hc n) as [Hs Hcn].
  fold mcn in Hs, Hcn.
  assert (Hcall : getParsedJson path mcn
                  = (Fulfilled VUndef, with_cache (<[path := v]> (_cache mcn')) mcn')).
  { rewrite (getParsedJson_miss _ _ Hcn). rewrite Hs, Hb, Hp, Hv. reflexivity. }
  split; [exact Hcall|]. split.
  - unfold sources. cbn [reads_until]. eauto.
  - cbn [after_calls]. fold mcn. rewrite Hcall. cbn [snd with_cache _cache].
    apply lookup_insert_eq.
Qed.

Lemma getParsedJson_falsy_document_witness :
  fst (@getParsedJson example_runtime "assets/minecraft/models/block/void.json"
         (@after_calls example_runtime 2 "assets/minecraft/models/block/void.json" null_model))
  = Fulfilled VUndef.
Proof.
  destruct (@getParsedJson_falsy_document example_runtime
              "assets/minecraft/models/block/void.json" null_model "null" VNull
              eq_refl eq_refl eq_refl eq_refl eq_refl 2%nat) as [Hcall _].
  rewrite Hcall. reflexivity.
Defined.

(** ** Named resources that are missing *)

(** C7 fails on the code: [getFile] swallows every failure and answers
    [null], so the [catch] of [getTextureFile] never runs; a texture that no
    archive has is answered with [null], and no call is rejected. *)
Theorem getTextureFile_missing_is_null (name : string) (mc : Minecraft) :
  (forall e, fst (getTextureFile name mc) <> Rejected e)
  /\ (Forall (fun s => has_data (texture_path name) (snd s) = false) (sources mc) ->
      fst (getTextureFile name mc) = Fulfilled None).
Proof.
  unfold getTextureFile, try_catch. rewrite getFile_spec. cbn [fst]. split.
  - discriminate.
  - intros Hall. apply first_data_none in Hall. now rewrite Hall.
Qed.

Lemma getTextureFile_missing_is_null_witness :
  texture_path "create:block/gear" = "assets/create/textures/block/gear.png"
  /\ fst (getTextureFile "create:block/gear" two_mods) = Fulfilled None.
Proof.
  split; [reflexivity|].
  apply (getTextureFile_missing_is_null "create:block/gear" two_mods).
  repeat constructor.
Defined.

(** C6 fails on the code: for a model file that no archive has,
    [getModelFile] is fulfilled with [undefined]; the error that names the
    path is never thrown.  The resolution of the chain then fails in
    [getModel], on the destructuring, with a [TypeError]. *)
Theorem getModelFile_missing_is_undefined `{Runtime} (name : string) (mc : Minecraft) :
  let i := Minecraft_id name in
  let path := "assets/" +:+ namespace i +:+ "/models/"
              +:+ (if includes slash (id i) then id i else "block/" +:+ id i)
              +:+ ".json" in
  coherent mc ->
  Forall (fun s => has_data path (snd s) = false) (sources mc) ->
  fst (getModelFile (VStr name) mc) = Fulfilled VUndef
  /\ forall n, fst <$> getModel (S n) (VStr name) mc = Some (Rejected TypeError).
Proof.
  intros i path Hc Hall.
  assert (Hfile : fst (getModelFile (VStr name) mc) = Fulfilled VUndef).
  { unfold getModelFile, bind, lift, model_path. fold i. fold path.
    destruct (getParsedJson_document path mc Hc) as (Hd & _).
    rewrite Hd. unfold document. apply first_data_none in Hall. now rewrite Hall. }
  split; [exact Hfile|].
  intros n. cbn [getModel]. unfold bindF at 1. unfold liftF at 1.
  destruct (getModelFile (VStr name) mc) as [o mc1]. cbn [fst] in Hfile. subst o.
  reflexivity.
Qed.

Lemma getModelFile_missing_is_undefined_witness :
  fst (@getModelFile example_runtime (VStr "create:gear") two_mods) = Fulfilled VUndef
  /\ fst <$> @getModel example_runtime 1 (VStr "create:gear") two_mods
     = Some (Rejected TypeError).
Proof.
  destruct (@getModelFile_missing_is_undefined example_runtime "create:gear" two_mods)
    as [Hfile Hmodel].
  - apply (@coherent_registerModId_fresh example_runtime). reflexivity.
  - repeat constructor.
  - split; [exact Hfile | exact (Hmodel 0%nat)].
Defined.

(** ** Deep merge, key by key *)

Lemma has_own_In {A : Type} (k : string) (o : list (string * A)) :
  has_own k o = true <-> In k (map fst o).
Proof.
  induction o as [|[k' v] o IH]; simpl; [split; [discriminate | tauto]|].
  rewrite orb_true_iff, IH, String.eqb_eq. split; intros [?|?]; auto.
Qed.

Lemma lookup_absent (k : string) (o : props) :
  has_own k o = false -> lookup_prop k o = VUndef.
Proof.
  induction o as [|[k' v] o IH]; simpl; [reflexivity|].
  destruct (String.eqb k k'); simpl; [discriminate | exact IH].
Qed.

Lemma keys_dict_set {A : Type} (k : string) (v : A) (o : list (string * A)) :
  map fst (dict_set k v o) = if has_own k o then map fst o else map fst o ++ [k].
Proof.
  induction o as [|[k' v'] o IH]; simpl; [reflexivity|].
  destruct (String.eqb k k') eqn:E; simpl.
  - apply String.eqb_eq in E. now subst.
  - rewrite IH. now destruct (has_own k o).
Qed.

Lemma has_own_dict_set {A : Type} (k k' : string) (v : A) (o : list (string * A)) :
  has_own k (dict_set k' v o) = String.eqb k k' || has_own k o.
Proof.
  induction o as [|[k2 v2] o IH]; simpl; [reflexivity|].
  destruct (String.eqb k' k2) eqn:E; simpl.
  - apply String.eqb_eq in E; subst. now destruct (String.eqb k k2).
  - rewrite IH. destruct (String.eqb k k'), (String.eqb k k2); reflexivity.
Qed.

Lemma NoDup_dict_set {A : Type} (k : string) (v : A) (o : list (string * A)) :
  List.NoDup (map fst o) -> List.NoDup (map fst (dict_set k v o)).
Proof.
  intros Hn. rewrite keys_dict_set. destruct (has_own k o) eqn:E; [exact Hn|].
  apply NoDup_ListNoDup. apply NoDup_app. repeat split.
  - now apply NoDup_ListNoDup.
  - intros x Hx Hk. apply list_elem_of_singleton in Hk. subst x.
    apply list_elem_of_In in Hx. apply has_own_In in Hx. congruence.
  - apply NoDup_singleton.
Qed.

Lemma merge_value_mappings (to so : props) :
  merge_value (VObj to) (VObj so) = VObj (assign_props to so).
Proof.
  cbn [merge_value]. f_equal. revert to.
  induction so as [|[k v] so IH]; intros to; [reflexivity|].
  cbn [assign_props]. rewrite <- IH. reflexivity.
Qed.

Lemma merge_value_replaces (t s : value) :
  is_mapping t && is_mapping s = false -> merge_value t s = s.
Proof. destruct s; try reflexivity. destruct t; try reflexivity. discriminate. Qed.

Lemma NoDup_assign_props (tgt src : props) :
  List.NoDup (map fst tgt) -> List.NoDup (map fst (assign_props tgt src)).
Proof.
  revert tgt. induction src as [|[k v] src IH]; intros tgt Hn; simpl; [exact Hn|].
  apply IH. now apply NoDup_dict_set.
Qed.

Lemma lookup_assign_props_absent (k : string) (tgt src : props) :
  has_own k src = false ->
  lookup_prop k (assign_props tgt src) = lookup_prop k tgt.
Proof.
  revert tgt. induction src as [|[k' v] src IH]; intros tgt; simpl; [reflexivity|].
  destruct (String.eqb k k') eqn:E; simpl; [discriminate|].
  intros Hn. rewrite (IH _ Hn). apply lookup_dict_set_ne.
  intros ->. now rewrite String.eqb_refl in E.
Qed.

(** The key-by-key reading of the merge, for a source whose keys are
    distinct. *)
Lemma lookup_assign_props (k : string) (tgt src : props) :
  List.NoDup (map fst src) ->
  lookup_prop k (assign_props tgt src)
  = if has_own k src then merge_value (lookup_prop k tgt) (lookup_prop k src)
    else lookup_prop k tgt.
Proof.
  revert tgt. induction src as [|[k' v] src IH]; intros tgt Hn; simpl; [reflexivity|].
  inversion Hn as [|x l Hnotin Hn']; subst.
  destruct (String.eqb k k') eqn:E; simpl.
  - apply String.eqb_eq in E; subst k'.
    rewrite lookup_assign_props_absent.
    + apply lookup_dict_set_eq.
    + destruct (has_own k src) eqn:Ho; [|reflexivity].
      apply has_own_In in Ho. contradiction.
  - rewrite (IH _ Hn'). rewrite lookup_dict_set_ne; [reflexivity|].
    intros ->. now rewrite String.eqb_refl in E.
Qed.

Lemma has_own_assign_props (k : string) (tgt src : props) :
  has_own k (assign_props tgt src) = has_own k tgt || has_own k src.
Proof.
  revert tgt. induction src as [|[k' v] src IH]; intros tgt; simpl.
  - now rewrite orb_false_r.
  - rewrite IH, has_own_dict_set.
    destruct (String.eqb k k'), (has_own k tgt), (has_own k src); reflexivity.
Qed.

Lemma lookup_assign_onto_empty (k : string) (src : props) :
  List.NoDup (map fst src) -> lookup_prop k (assign_props [] src) = lookup_prop k src.
Proof.
  intros Hn. rewrite (lookup_assign_props _ _ _ Hn). simpl.
  destruct (has_own k src) eqn:E.
  - apply merge_value_replaces. reflexivity.
  - symmetry. now apply lookup_absent.
Qed.

(** ** Resolution of a model chain *)

Section Resolution.
Context `{Runtime}.

Lemma getModelFile_document (name : value) (mc : Minecraft) :
  coherent mc ->
  fst (getModelFile name mc) = model_document mc name
  /\ coherent (snd (getModelFile name mc))
  /\ same_archives mc (snd (getModelFile name mc)).
Proof.
  intros Hc. unfold getModelFile, model_document, bind, lift.
  destruct (model_path name) as [path|e]; cbn [fst snd].
  - now apply getParsedJson_document.
  - split; [reflexivity|]. split; [assumption | apply same_archives_refl].
Qed.

Lemma same_archives_model_document (a b : Minecraft) (name : value) :
  same_archives a b -> model_document a name = model_document b name.
Proof.
  intros Hs. unfold model_document. destruct (model_path name); [|reflexivity].
  now apply same_archives_document.
Qed.

(** One level of [getModel], spelled out. *)
Lemma getModel_S (n : nat) (name : value) (mc : Minecraft) :
  getModel (S n) name mc =
    match getModelFile name mc with
    | (Rejected e, mc1) => Some (Rejected e, mc1)
    | (Fulfilled file, mc1) =>
        match take_parent file with
        | Rejected e => Some (Rejected e, mc1)
        | Fulfilled (parent0, own) =>
            let parent := fallback_parent parent0 (lookup_prop "display" own) in
            if truthy parent then
              match getModel n parent mc1 with
              | None => None
              | Some (Rejected e, mc2) => Some (Rejected e, mc2)
              | Some (Fulfilled inherited, mc2) =>
                  match inherit (VObj inherited) (VObj own) parent with
                  | Rejected e => Some (Rejected e, mc2)
                  | Fulfilled m =>
                      Some (Fulfilled (deepAssign m [VObj [("blockName", name)]]), mc2)
                  end
              end
            else Some (Fulfilled (deepAssign own [VObj [("blockName", name)]]), mc1)
        end
    end.
Proof.
  cbn [getModel]. unfold bindF, liftF, lift, ret.
  destruct (getModelFile name mc) as [[file|e] mc1]; [|reflexivity].
  destruct (take_parent file) as [[parent0 own]|e]; [|reflexivity].
  cbv zeta.
  destruct (truthy (fallback_parent parent0 (lookup_prop "display" own))); [|reflexivity].
  destruct (getModel n _ mc1) as [[[inh|e] mc2]|]; reflexivity.
Qed.

(** What [inherit] gives when it does not throw: the merge of the own
    fields over the inherited ones, with the parent appended to [parents]. *)
Lemma inherit_fulfilled (inh own m : props) (parent : value) :
  inherit (VObj inh) (VObj own) parent = Fulfilled m ->
  let merged := assign_props (assign_props [] inh) own in
  (forall k, k <> "parents" -> lookup_prop k m = lookup_prop k merged)
  /\ (List.NoDup (map fst merged) -> List.NoDup (map fst m))
  /\ ((truthy (lookup_prop "parents" merged) = false
       /\ lookup_prop "parents" m = VArr [parent] [])
      \/ exists elems named,
           lookup_prop "parents" merged = VArr elems named
           /\ lookup_prop "parents" m = VArr (elems ++ [parent]) named).
Proof.
  intros Hi merged. unfold inherit, deepAssign in Hi. cbn [fold_left] in Hi.
  fold merged in Hi.
  destruct (truthy (lookup_prop "parents" merged)) eqn:Ht; cbn [negb] in Hi.
  - destruct (lookup_prop "parents" merged) as [| | | | |elems named|] eqn:Hp;
      cbn [push] in Hi; try discriminate.
    injection Hi as <-. split; [|split].
    + intros k Hk. now apply lookup_dict_set_ne.
    + apply NoDup_dict_set.
    + right. exists elems, named. split; [reflexivity | apply lookup_dict_set_eq].
  - rewrite lookup_dict_set_eq in Hi. cbn [push app] in Hi. injection Hi as <-.
    split; [|split].
    + intros k Hk. now rewrite !lookup_dict_set_ne.
    + intros Hn. now do 2 apply NoDup_dict_set.
    + left. split; [reflexivity | apply lookup_dict_set_eq].
Qed.

(** [inherit] succeeds when the merged [parents] is falsy or an array. *)
Lemma inherit_pushable (inh own : props) (parent : value) :
  let merged := assign_props (assign_props [] inh) own in
  (truthy (lookup_prop "parents" merged) = false
   \/ exists elems named, lookup_prop "parents" merged = VArr elems named) ->
  exists m, inherit (VObj inh) (VObj own) parent = Fulfilled m.
Proof.
  intros merged Hp. unfold inherit, deepAssign. cbn [fold_left]. fold merged.
  destruct Hp as [Hf | (elems & named & Hp)].
  - rewrite Hf. cbn [negb]. rewrite lookup_dict_set_eq. cbn [push]. eauto.
  - rewrite Hp. cbn [truthy negb]. rewrite Hp. cbn [push]. eauto.
Qed.

Lemma model_path_not_mapping (name : value) (path : string) :
  model_path name = Fulfilled path -> is_mapping name = false.
Proof. destruct name; simpl; intros Hp; try reflexivity; discriminate. Qed.

Lemma model_document_not_mapping (mc : Minecraft) (name file : value) :
  model_document mc name = Fulfilled file -> is_mapping name = false.
Proof.
  unfold model_document. destruct (model_path name) eqn:E; [|discriminate].
  intros _. eapply model_path_not_mapping; eassumption.
Qed.

(** The stamp [deepAssign(model, { blockName })]. *)
Lemma stamp_spec (m : props) (name : value) :
  is_mapping name = false ->
  deepAssign m [VObj [("blockName", name)]] = dict_set "blockName" name m.
Proof.
  intros Hn. unfold deepAssign. cbn [fold_left assign_props].
  rewrite merge_value_replaces; [reflexivity|].
  rewrite Hn. apply andb_false_r.
Qed.

Lemma lineage_head (mc : Minecraft) (name : value) (levels : list (value * props)) :
  lineage mc name levels -> exists own rest, levels = (name, own) :: rest.
Proof. intros Hl. destruct Hl; eauto. Qed.

Lemma lineage_same_archives (a b : Minecraft) (name : value) (levels : list (value * props)) :
  same_archives a b -> lineage a name levels -> lineage b name levels.
Proof.
  intros Hs Hl. induction Hl as [name file parent own Hd Ht Hf
                                | name file parent own rest Hd Ht Hf Hl IH].
  - eapply lineage_root; eauto. now rewrite <- (same_archives_model_document _ _ _ Hs).
  - eapply lineage_step; eauto. now rewrite <- (same_archives_model_document _ _ _ Hs).
Qed.

End Resolution.

Section Chains.
Context `{Runtime}.

(** The resolution of a chain of plain levels: it succeeds, its [parents]
    are the references followed with the root first, and every other key
    holds the levels merged. *)
Lemma getModel_lineage (mc0 : Minecraft) (name : value) (levels : list (value * props)) :
  lineage mc0 name levels ->
  Forall plain_level levels ->
  forall mc n, coherent mc -> same_archives mc0 mc ->
  exists model mc',
    getModel (length levels + n) name mc = Some (Fulfilled model, mc')
    /\ coherent mc' /\ same_archives mc0 mc'
    /\ List.NoDup (map fst model)
    /\ lookup_prop "parents" model = lineage_parents levels
    /\ lookup_prop "blockName" model = name
    /\ forall k, k <> "parents" -> k <> "blockName" ->
         lookup_prop k model = flattened k (map snd levels).
Proof.
  induction 1 as [name file parent own Hd Ht Hf
                 | name file parent own rest Hd Ht Hf Hl IH];
    intros Hok mc n Hc Hs.
  - apply Forall_inv in Hok. destruct Hok as [Hnp Hnd]. cbn [snd] in Hnp, Hnd.
    cbn [length Nat.add]. rewrite getModel_S.
    destruct (getModelFile_document name mc Hc) as (Hdoc & Hc1 & Hs1).
    destruct (getModelFile name mc) as [o mc1]. cbn [fst snd] in Hdoc, Hc1, Hs1.
    rewrite <- (same_archives_model_document _ _ _ Hs), Hd in Hdoc. subst o.
    rewrite Ht. cbv zeta. rewrite Hf.
    rewrite (stamp_spec _ _ (model_document_not_mapping _ _ _ Hd)).
    eexists _, _. split; [reflexivity|].
    split; [exact Hc1|]. split; [eapply same_archives_trans; eassumption|].
    split; [now apply NoDup_dict_set|].
    split; [rewrite lookup_dict_set_ne by discriminate; now apply lookup_absent|].
    split; [apply lookup_dict_set_eq|].
    intros k Hk1 Hk2. rewrite lookup_dict_set_ne by assumption.
    cbn [map snd flattened]. destruct (has_own k own) eqn:E.
    + symmetry. apply merge_value_replaces. reflexivity.
    + now apply lookup_absent.
  - pose proof (Forall_inv Hok) as [Hnp Hnd]. cbn [snd] in Hnp, Hnd.
    pose proof (Forall_inv_tail Hok) as Hok'.
    cbn [length Nat.add]. rewrite getModel_S.
    destruct (getModelFile_document name mc Hc) as (Hdoc & Hc1 & Hs1).
    destruct (getModelFile name mc) as [o mc1]. cbn [fst snd] in Hdoc, Hc1, Hs1.
    rewrite <- (same_archives_model_document _ _ _ Hs), Hd in Hdoc. subst o.
    rewrite Ht. cbv zeta. rewrite Hf.
    destruct (IH Hok' mc1 n Hc1 (same_archives_trans _ _ _ Hs Hs1))
      as (inh & mc2 & Hrun & Hc2 & Hs2 & Hndi & Hpi & Hbi & Hki).
    rewrite Hrun.
    destruct (lineage_head _ _ _ Hl) as (ownp & rest' & ->).
    set (p := fallback_parent parent (lookup_prop "display" own)) in *.
    assert (Hmp : lookup_prop "parents" (assign_props (assign_props [] inh) own)
                  = lineage_parents ((p, ownp) :: rest')).
    { rewrite lookup_assign_props_absent by assumption.
      rewrite lookup_assign_onto_empty by assumption. exact Hpi. }
    destruct (inherit_pushable inh own p) as [m Hm].
    { rewrite Hmp. destruct rest'; [left; reflexivity | right; cbn; eauto]. }
    rewrite Hm.
    destruct (inherit_fulfilled _ _ _ _ Hm) as (Hkm & Hndm & Hpm).
    rewrite (stamp_spec _ _ (model_document_not_mapping _ _ _ Hd)).
    eexists _, _. split; [reflexivity|].
    split; [exact Hc2|]. split; [exact Hs2|].
    split.
    { apply NoDup_dict_set, Hndm. apply NoDup_assign_props, NoDup_assign_props. constructor. }
    split.
    { rewrite lookup_dict_set_ne by discriminate.
      rewrite Hmp in Hpm. destruct Hpm as [[Hfalsy ->] | (elems & named & Heq & ->)].
      - destruct rest'; [reflexivity | discriminate].
      - destruct rest'; [discriminate|]. cbn [lineage_parents] in Heq.
        injection Heq as <- <-. reflexivity. }
    split; [apply lookup_dict_set_eq|].
    intros k Hk1 Hk2. rewrite lookup_dict_set_ne by assumption.
    rewrite (Hkm k Hk1). rewrite (lookup_assign_props _ _ _ Hnd).
    rewrite lookup_assign_onto_empty by assumption. rewrite (Hki k Hk1 Hk2).
    reflexivity.
Qed.

Lemma fallback_parent_truthy (parent display : value) :
  truthy parent = true -> fallback_parent parent display = parent.
Proof. intros Ht. unfold fallback_parent. now rewrite Ht. Qed.

Lemma flattened_absent (k : string) (levels : list props) :
  Forall (fun own => has_own k own = false) levels -> flattened k levels = VUndef.
Proof.
  induction 1 as [|own levels Hown _ IH]; cbn [flattened]; [reflexivity|].
  now rewrite Hown.
Qed.

Lemma flattened_survives (k : string) (pre post : list props) (own : props) :
  Forall (fun o => has_own k o = false) pre ->
  Forall (fun o => has_own k o = false) post ->
  flattened k (pre ++ own :: post) = lookup_prop k own.
Proof.
  intros Hpre Hpost. induction Hpre as [|o pre Ho _ IH]; cbn [app flattened].
  - rewrite (flattened_absent _ _ Hpost). destruct (has_own k own) eqn:E.
    + apply merge_value_replaces. reflexivity.
    + symmetry. now apply lookup_absent.
  - now rewrite Ho.
Qed.

End Chains.

(** C1 as the spec states it fails: on the chain [a -> b -> c] the lineage
    of [a] is [[c, b]], the root first, not [[b, c]]. *)
Lemma parents_not_nearest_first :
  exists model mc',
    @getModel example_runtime 3 (VStr "minecraft:block/a") chain
    = Some (Fulfilled model, mc')
    /\ lookup_prop "parents" model
       = VArr [VStr "minecraft:block/c"; VStr "minecraft:block/b"] []
    /\ lookup_prop "parents" model
       <> VArr [VStr "minecraft:block/b"; VStr "minecraft:block/c"] [].
Proof.
  eexists _, _. split; [vm_compute; reflexivity|].
  split; [vm_compute; reflexivity|]. vm_compute. discriminate.
Qed.

(** C1, amended.  For a chain A -> B -> C of model documents without a
    [parents] field of their own, where C names no parent and does not
    trigger the fallback rule, [getModel(A)] returns a descriptor whose
    [parents] lists the ancestors farthest first, [[C, B]]: each level
    appends its own parent after the recursive call has returned with the
    lineage of that parent. *)
Theorem getModel_parents_root_first `{Runtime} (mc : Minecraft) (a b c : string)
    (fa fb fc pc : value) (ownA ownB ownC : props) :
  coherent mc ->
  model_document mc (VStr a) = Fulfilled fa ->
  take_parent fa = Fulfilled (VStr b, ownA) -> b <> "" ->
  model_document mc (VStr b) = Fulfilled fb ->
  take_parent fb = Fulfilled (VStr c, ownB) -> c <> "" ->
  model_document mc (VStr c) = Fulfilled fc ->
  take_parent fc = Fulfilled (pc, ownC) ->
  truthy (fallback_parent pc (lookup_prop "display" ownC)) = false ->
  plain_level (VStr a, ownA) -> plain_level (VStr b, ownB) -> plain_level (VStr c, ownC) ->
  forall n, exists model mc',
    getModel (3 + n) (VStr a) mc = Some (Fulfilled model, mc')
    /\ lookup_prop "parents" model = VArr [VStr c; VStr b] [].
Proof.
  intros Hc Ha Hta Hb Hfb Htb Hcne Hfc Htc Hroot Hpa Hpb Hpc n.
  assert (Htruthy : forall s d, s <> "" -> fallback_parent (VStr s) d = VStr s
                                           /\ truthy (VStr s) = true).
  { intros s d Hs. assert (Ht : truthy (VStr s) = true).
    { cbn. destruct (String.eqb s "") eqn:E; [apply String.eqb_eq in E; contradiction | reflexivity]. }
    split; [now apply fallback_parent_truthy | exact Ht]. }
  assert (Hl : lineage mc (VStr a) [(VStr a, ownA); (VStr b, ownB); (VStr c, ownC)]).
  { eapply lineage_step; [exact Ha | exact Hta | | ].
    - destruct (Htruthy b (lookup_prop "display" ownA) Hb) as [-> Ht]. exact Ht.
    - destruct (Htruthy b (lookup_prop "display" ownA) Hb) as [-> _].
      eapply lineage_step; [exact Hfb | exact Htb | | ].
      + destruct (Htruthy c (lookup_prop "display" ownB) Hcne) as [-> Ht]. exact Ht.
      + destruct (Htruthy c (lookup_prop "display" ownB) Hcne) as [-> _].
        eapply lineage_root; eassumption. }
  assert (Hok : Forall plain_level [(VStr a, ownA); (VStr b, ownB); (VStr c, ownC)])
    by (constructor; [exact Hpa|]; constructor; [exact Hpb|];
        constructor; [exact Hpc | constructor]).
  destruct (getModel_lineage mc (VStr a) _ Hl Hok mc n Hc (same_archives_refl mc))
    as (model & mc' & Hrun & _ & _ & _ & Hparents & _).
  exists model, mc'. split; [exact Hrun | exact Hparents].
Qed.

Ltac by_computation := vm_compute; reflexivity.
Ltac distinct_keys := apply NoDup_ListNoDup, (bool_decide_unpack _); by_computation.
Ltac plain := split; [by_computation | distinct_keys].

Lemma getModel_parents_root_first_witness :
  exists model mc',
    @getModel example_runtime 3 (VStr "minecraft:block/a") chain
    = Some (Fulfilled model, mc')
    /\ lookup_prop "parents" model
       = VArr [VStr "minecraft:block/c"; VStr "minecraft:block/b"] [].
Proof.
  eapply (@getModel_parents_root_first example_runtime chain
            "minecraft:block/a" "minecraft:block/b" "minecraft:block/c") with (n := 0%nat).
  - apply (@coherent_open example_runtime).
  - by_computation.
  - by_computation.
  - discriminate.
  - by_computation.
  - by_computation.
  - discriminate.
  - by_computation.
  - by_computation.
  - by_computation.
  - plain.
  - plain.
  - plain.
Defined.

(** C2 as it is stated fails at the keys that [getModel] writes itself.  The
    document of [named] defines the scalar [blockName]: the result of
    [getModel] for [named] does not hold it; and [heir], whose document has
    only a [parent], does not inherit it from its ancestor [named], the one
    level that defines it. *)
Lemma child_blockName_is_overwritten :
  exists file parent own model mc' file' parent' own' model' mc'',
    @model_document example_runtime chain (VStr "minecraft:block/named") = Fulfilled file
    /\ take_parent file = Fulfilled (parent, own)
    /\ lookup_prop "blockName" own = VStr "custom"
    /\ @getModel example_runtime 2 (VStr "minecraft:block/named") chain
       = Some (Fulfilled model, mc')
    /\ lookup_prop "blockName" model <> lookup_prop "blockName" own
    /\ @model_document example_runtime chain (VStr "minecraft:block/heir") = Fulfilled file'
    /\ take_parent file' = Fulfilled (parent', own')
    /\ has_own "blockName" own' = false
    /\ @getModel example_runtime 3 (VStr "minecraft:block/heir") chain
       = Some (Fulfilled model', mc'')
    /\ lookup_prop "blockName" model' <> lookup_prop "blockName" own.
Proof.
  eexists _, _, _, _, _, _, _, _, _, _.
  split; [by_computation|]. split; [by_computation|]. split; [by_computation|].
  split; [by_computation|]. split; [vm_compute; discriminate|].
  split; [by_computation|]. split; [by_computation|]. split; [by_computation|].
  split; [by_computation|]. vm_compute. discriminate.
Qed.

(** C2, amended.  For every model chain of plain levels [getModel] merges
    the own fields of a level over the inherited fields: at any key other
    than [parents] and [blockName], which [getModel] writes itself after the
    merge, the result holds the levels merged ([flattened]); a value of the
    child that is no mapping, or that meets an inherited value that is no
    mapping, replaces the inherited value; two mappings are merged key by
    key; and a field that only one level of the chain defines is in the
    result unchanged. *)
Theorem getModel_deep_merge `{Runtime} (mc : Minecraft) (name : value)
    (levels : list (value * props)) (k : string) :
  coherent mc ->
  lineage mc name levels ->
  Forall plain_level levels ->
  k <> "parents" -> k <> "blockName" ->
  forall n, exists model mc',
    getModel (length levels + n) name mc = Some (Fulfilled model, mc')
    /\ lookup_prop k model = flattened k (map snd levels)
    /\ (forall own rest,
          map snd levels = own :: rest -> has_own k own = true ->
          is_mapping (flattened k rest) && is_mapping (lookup_prop k own) = false ->
          lookup_prop k model = lookup_prop k own)
    /\ (forall own rest inherited mine,
          map snd levels = own :: rest -> has_own k own = true ->
          flattened k rest = VObj inherited -> lookup_prop k own = VObj mine ->
          lookup_prop k model = VObj (assign_props inherited mine)
          /\ (List.NoDup (map fst mine) ->
              forall k',
                lookup_prop k' (assign_props inherited mine)
                = if has_own k' mine
                  then merge_value (lookup_prop k' inherited) (lookup_prop k' mine)
                  else lookup_prop k' inherited))
    /\ (forall pre own post,
          map snd levels = pre ++ own :: post ->
          Forall (fun o => has_own k o = false) pre ->
          Forall (fun o => has_own k o = false) post ->
          lookup_prop k model = lookup_prop k own).
Proof.
  intros Hc Hl Hok Hk1 Hk2 n.
  destruct (getModel_lineage mc name levels Hl Hok mc n Hc (same_archives_refl mc))
    as (model & mc' & Hrun & _ & _ & _ & _ & _ & Hfields).
  exists model, mc'. split; [exact Hrun|].
  rewrite (Hfields k Hk1 Hk2). split; [reflexivity|]. split; [|split].
  - intros own rest -> Hown Hnm. cbn [flattened]. rewrite Hown.
    now apply merge_value_replaces.
  - intros own rest inherited mine -> Hown Hinh Hmine. cbn [flattened].
    rewrite Hown, Hinh, Hmine. split; [apply merge_value_mappings|].
    intros Hnd k'. now apply lookup_assign_props.
  - intros pre own post -> Hpre Hpost. now apply flattened_survives.
Qed.

Lemma getModel_deep_merge_witness :
  exists model mc',
    @getModel example_runtime 3 (VStr "minecraft:block/a") chain
    = Some (Fulfilled model, mc')
    /\ lookup_prop "textures" model
       = VObj [("all", VStr "block/a"); ("particle", VStr "block/b")].
Proof.
  destruct (@getModel_deep_merge example_runtime chain (VStr "minecraft:block/a")
              [(VStr "minecraft:block/a", [("textures", VObj [("all", VStr "block/a")])]);
               (VStr "minecraft:block/b",
                [("ambientocclusion", VBool false);
                 ("textures", VObj [("all", VStr "block/b"); ("particle", VStr "block/b")])]);
               (VStr "minecraft:block/c",
                [("display", VObj [("gui", VObj [("rotation",
                                     VArr [VNum 30; VNum 225; VNum 0] [])])]);
                 ("elements", VArr [VNum 1] []);
                 ("ambientocclusion", VBool true)])]
              "textures") with (n := 0%nat)
    as (model & mc' & Hrun & Hflat & _).
  - apply (@coherent_open example_runtime).
  - eapply lineage_step; [by_computation | by_computation | by_computation |].
    eapply lineage_step; [by_computation | by_computation | by_computation |].
    eapply lineage_root; by_computation.
  - constructor; [plain|]. constructor; [plain|]. constructor; [plain | constructor].
  - discriminate.
  - discriminate.
  - exists model, mc'. split; [exact Hrun|]. rewrite Hflat. by_computation.
Defined.

(** ** The cache does not change what a resolution returns *)

Section Transparency.
Context `{Runtime}.

Lemma agree_refl (mc : Minecraft) : coherent mc -> agree mc mc.
Proof. intros Hc. split; [apply same_archives_refl | split; assumption]. Qed.

Lemma agree_sym (a b : Minecraft) : agree a b -> agree b a.
Proof. intros (Hs & Ha & Hb). split; [now apply same_archives_sym | split; assumption]. Qed.

Lemma agree_trans (a b c : Minecraft) : agree a b -> agree b c -> agree a c.
Proof.
  intros (Hs & Ha & Hb) (Hs' & _ & Hc).
  split; [eapply same_archives_trans; eassumption | split; assumption].
Qed.

Lemma transparentM_lift {A : Type} (o : outcome A) : transparentM (lift o).
Proof. intros mc mc' Ha. cbn. split; [reflexivity|]. split; [exact Ha | apply same_archives_refl]. Qed.

Lemma transparentM_getParsedJson (path : string) : transparentM (getParsedJson path).
Proof.
  intros mc mc' (Hs & Hc & Hc').
  destruct (getParsedJson_document path mc Hc) as (Hd & Hc1 & Hs1).
  destruct (getParsedJson_document path mc' Hc') as (Hd' & Hc1' & Hs1').
  split; [rewrite Hd, Hd'; now apply same_archives_document|].
  split; [|exact Hs1]. unfold agree. split; [|split; assumption].
  eapply same_archives_trans; [apply same_archives_sym; exact Hs1|].
  exact (same_archives_trans _ _ _ Hs Hs1').
Qed.

Lemma transparentM_bind {A B : Type} (c : M A) (k : A -> M B) :
  transparentM c -> (forall a, transparentM (k a)) -> transparentM (bind c k).
Proof.
  intros Hc Hk mc mc' Ha. unfold bind.
  destruct (Hc mc mc' Ha) as (Ho & Ha1 & Hs1).
  destruct (c mc) as [o m], (c mc') as [o' m']. cbn [fst snd] in *. subst o'.
  destruct o as [a|e]; cbn [fst snd].
  - destruct (Hk a m m' Ha1) as (Ho2 & Ha2 & Hs2).
    split; [exact Ho2|]. split; [exact Ha2|]. eapply same_archives_trans; eassumption.
  - split; [reflexivity|]. split; assumption.
Qed.

Lemma transparentM_getModelFile (name : value) : transparentM (getModelFile name).
Proof.
  unfold getModelFile. apply transparentM_bind; [apply transparentM_lift|].
  intros path. apply transparentM_getParsedJson.
Qed.

Lemma coherent_log (e : io_event) (mc : Minecraft) : coherent mc -> coherent (log e mc).
Proof. intros Hc path v Hl Hv. exact (Hc path v Hl Hv). Qed.

Lemma agree_log (e : io_event) (mc mc' : Minecraft) :
  agree mc mc' -> agree (log e mc) (log e mc').
Proof.
  intros (Hs & Hc & Hc'). split; [|split; now apply coherent_log].
  destruct Hs as (?&?&?). repeat split; assumption.
Qed.

Lemma transparent_liftF {A : Type} (c : M A) : transparentM c -> transparent (liftF c).
Proof.
  intros Hc mc mc' Ha. unfold liftF. destruct (Hc mc mc' Ha) as (Ho & Ha1 & Hs1).
  destruct (c mc) as [o m], (c mc') as [o' m']. cbn [fst snd] in *. auto.
Qed.

Lemma transparent_bindF {A B : Type} (c : MF A) (k : A -> MF B) :
  transparent c -> (forall a, transparent (k a)) -> transparent (bindF c k).
Proof.
  intros Hc Hk mc mc' Ha. unfold bindF. specialize (Hc mc mc' Ha).
  destruct (c mc) as [[o m]|], (c mc') as [[o' m']|]; try contradiction; [|exact I].
  destruct Hc as (<- & Ha1 & Hs1). destruct o as [a|e].
  - specialize (Hk a m m' Ha1).
    destruct (k a m) as [[o2 m2]|], (k a m') as [[o2' m2']|]; try contradiction; [|exact I].
    destruct Hk as (<- & Ha2 & Hs2). split; [reflexivity|]. split; [exact Ha2|].
    eapply same_archives_trans; eassumption.
  - auto.
Qed.

Lemma transparent_getModel (fuel : nat) : forall name, transparent (getModel fuel name).
Proof.
  induction fuel as [|fuel IH]; intros name; cbn [getModel].
  - intros mc mc' _. exact I.
  - apply transparent_bindF; [apply transparent_liftF, transparentM_getModelFile|].
    intros file. apply transparent_bindF; [apply transparent_liftF, transparentM_lift|].
    intros [parent model].
    apply transparent_bindF.
    + destruct (truthy _).
      * apply transparent_bindF; [apply IH|]. intros inh.
        apply transparent_liftF, transparentM_lift.
      * apply transparent_liftF, (transparentM_lift (Fulfilled model)).
    + intros m. apply transparent_liftF, (transparentM_lift (Fulfilled _)).
Qed.

Lemma transparent_getModelFromBlockState (fuel : nat) (block_state : value) :
  transparent (getModelFromBlockState fuel block_state).
Proof.
  unfold getModelFromBlockState.
  apply transparent_bindF; [apply transparent_liftF, transparentM_lift|]. intros variant.
  apply transparent_bindF; [apply transparent_liftF, transparentM_lift|]. intros blockName.
  apply transparent_bindF; [apply transparent_liftF, transparentM_getModelFile|].
  intros model_file. destruct (truthy model_file); cbn [negb].
  - apply transparent_bindF; [apply transparent_liftF, transparentM_lift|]. intros parent.
    apply transparent_bindF; [apply transparent_liftF, transparentM_lift|]. intros mf.
    apply transparent_bindF; [apply transparent_liftF, transparentM_lift|]. intros display.
    apply transparent_bindF.
    + destruct (truthy _).
      * apply transparent_bindF; [apply transparent_getModel|]. intros inh.
        apply transparent_bindF; [apply transparent_liftF, transparentM_lift|]. intros m.
        apply transparent_liftF, (transparentM_lift (Fulfilled _)).
      * apply transparent_liftF, (transparentM_lift (Fulfilled _)).
    + intros m. apply transparent_liftF, (transparentM_lift (Fulfilled _)).
  - apply transparent_liftF. intros mc mc' Ha. cbn [fst snd].
    split; [reflexivity|]. split; [now apply agree_log | repeat split].
Qed.

Lemma transparentM_ret {A : Type} (a : A) : transparentM (ret a).
Proof. apply (transparentM_lift (Fulfilled a)). Qed.

Lemma transparentM_try_catch {A : Type} (c : M A) (h : js_error -> M A) :
  transparentM c -> (forall e, transparentM (h e)) -> transparentM (try_catch c h).
Proof.
  intros Hc Hh mc mc' Ha. unfold try_catch.
  destruct (Hc mc mc' Ha) as (Ho & Ha1 & Hs1).
  destruct (c mc) as [o m], (c mc') as [o' m']. cbn [fst snd] in *. subst o'.
  destruct o as [a|e]; cbn [fst snd].
  - split; [reflexivity|]. split; assumption.
  - destruct (Hh e m m' Ha1) as (Ho2 & Ha2 & Hs2).
    split; [exact Ho2|]. split; [exact Ha2|]. eapply same_archives_trans; eassumption.
Qed.

Lemma transparentM_jar_entries (src : source) (j : Jar) (path : string) :
  transparentM (jar_entries src j path).
Proof.
  intros mc mc' Ha. unfold jar_entries.
  destruct (entries j path); cbn [fst snd];
    (split; [reflexivity|]; split; [now apply agree_log | repeat split]).
Qed.

Lemma transparentM_getFileEntries_mods (path : string) (jars : list (string * Jar)) :
  transparentM (getFileEntries_mods path jars).
Proof.
  induction jars as [|[key j] jars IH]; cbn [getFileEntries_mods].
  - apply transparentM_ret.
  - apply transparentM_bind.
    + apply transparentM_try_catch; [apply transparentM_jar_entries|].
      intros _. apply transparentM_ret.
    + intros [|name names]; [exact IH | apply transparentM_ret].
Qed.

Lemma transparentM_getFileEntries (path : string) : transparentM (getFileEntries path).
Proof.
  intros mc mc' Ha. unfold getFileEntries.
  destruct Ha as ((Hj & Hm & Hn) & Hc & Hc'). rewrite <- Hj, <- Hm.
  apply transparentM_bind; [| |repeat split; assumption].
  - apply transparentM_try_catch; [apply transparentM_jar_entries|].
    intros _. apply transparentM_ret.
  - intros [|name names]; [apply transparentM_getFileEntries_mods | apply transparentM_ret].
Qed.

Lemma transparentM_getBlockStates_loop (namespace : string) (files : list string) :
  transparentM (getBlockStates_loop namespace files).
Proof.
  induction files as [|name files IH]; cbn [getBlockStates_loop].
  - apply transparentM_ret.
  - destruct (ends_with ".json" name); cbn [negb]; [|exact IH].
    apply transparentM_bind; [apply transparentM_getParsedJson|]. intros state.
    apply transparentM_bind; [apply transparentM_lift|]. intros state'.
    apply transparentM_bind; [exact IH|]. intros states. apply transparentM_ret.
Qed.

Lemma transparentM_getBlockStates (namespace : option string) :
  transparentM (getBlockStates namespace).
Proof.
  intros mc mc' Ha. unfold getBlockStates. cbv zeta.
  assert (Hn : defaultNamespace mc = defaultNamespace mc') by apply Ha.
  rewrite <- Hn.
  exact (transparentM_bind _ _ (transparentM_getFileEntries _)
           (fun files => transparentM_getBlockStates_loop _ files) mc mc' Ha).
Qed.

(** Every promise of the batch settles as the resolution of its block state
    on its own does. *)
Lemma allSettled_models_alone (fuel : nat) (mc0 : Minecraft) (states : list value) :
  (forall s, In s states -> is_Some (getModelFromBlockState fuel s mc0)) ->
  forall mc, agree mc0 mc ->
  exists promises mc',
    allSettled_models fuel states mc = Some (promises, mc')
    /\ fulfilled_values promises = flat_map (contribution fuel mc0) states.
Proof.
  induction states as [|s states IH]; intros Hterm mc Ha; cbn [allSettled_models].
  - exists [], mc. split; reflexivity.
  - pose proof (transparent_getModelFromBlockState fuel s mc0 mc Ha) as Ht.
    destruct (Hterm s (or_introl eq_refl)) as [[o0 m0] Hrun0].
    rewrite Hrun0 in Ht.
    destruct (getModelFromBlockState fuel s mc) as [[o m]|] eqn:Hrun; [|contradiction].
    destruct Ht as (<- & Ha1 & Hs1).
    assert (Ha' : agree mc0 m).
    { destruct Ha as (Hs & Hc0 & Hc), Ha1 as (_ & _ & Hcm).
      split; [|split; assumption].
      eapply same_archives_trans; [exact Hs|].
      pose proof (transparent_getModelFromBlockState fuel s mc mc (agree_refl _ Hc)) as Hself.
      rewrite Hrun in Hself. apply Hself. }
    destruct (IH (fun s' Hin => Hterm s' (or_intror Hin)) m Ha') as (ps & mc' & Hrest & Hvals).
    rewrite Hrest. eexists _, _. split; [reflexivity|].
    cbn [flat_map]. unfold contribution at 1. rewrite Hrun0.
    destruct o0 as [v|e]; cbn [fulfilled_values].
    + destruct (truthy v); cbn [app]; now rewrite Hvals.
    + now rewrite Hvals.
Qed.

End Transparency.

(** ** Batches *)

(** C9.  [getBlockList] settles one resolution per block state and keeps
    the values of those that are fulfilled: when the block states are
    listed and every resolution comes to an end, the batch is fulfilled with
    what each block state gives resolved on its own, in order.  A block
    whose model chain is broken is rejected on its own and adds nothing; the
    model of every valid block is in the list, whatever happens to the
    others. *)
Theorem getBlockList_isolates_failures `{Runtime} (fuel : nat) (namespace : option string)
    (mc mc1 : Minecraft) (states : list value) :
  coherent mc ->
  getBlockStates namespace mc = (Fulfilled states, mc1) ->
  (forall s, In s states -> is_Some (getModelFromBlockState fuel s mc1)) ->
  exists mc2,
    getBlockList fuel namespace mc
    = Some (Fulfilled (flat_map (contribution fuel mc1) states), mc2)
    /\ (forall s v, In s states ->
          fst <$> getModelFromBlockState fuel s mc1 = Some (Fulfilled v) ->
          truthy v = true ->
          In v (flat_map (contribution fuel mc1) states))
    /\ (forall s e, In s states ->
          fst <$> getModelFromBlockState fuel s mc1 = Some (Rejected e) ->
          contribution fuel mc1 s = []).
Proof.
  intros Hc Hstates Hterm.
  assert (Hc1 : coherent mc1).
  { destruct (transparentM_getBlockStates namespace mc mc (agree_refl _ Hc)) as (_ & Ha & _).
    rewrite Hstates in Ha. apply Ha. }
  destruct (allSettled_models_alone fuel mc1 states Hterm mc1 (agree_refl _ Hc1))
    as (promises & mc2 & Hrun & Hvals).
  exists mc2. split; [|split].
  - unfold getBlockList, bindF, liftF. rewrite Hstates, Hrun, Hvals. reflexivity.
  - intros s v Hin Hrun' Hv. apply in_flat_map. exists s. split; [exact Hin|].
    unfold contribution.
    destruct (getModelFromBlockState fuel s mc1) as [[o m]|]; [|discriminate].
    cbn in Hrun'. injection Hrun' as ->. rewrite Hv. now left.
  - intros s e Hin Hrun'. unfold contribution.
    destruct (getModelFromBlockState fuel s mc1) as [[o m]|]; [|discriminate].
    cbn in Hrun'. injection Hrun' as ->. reflexivity.
Qed.

Lemma getBlockList_isolates_failures_witness :
  exists lamp ghost stone model mc1 mc2,
    @getBlockStates example_runtime None world = (Fulfilled [lamp; ghost; stone], mc1)
    /\ fst <$> @getModelFromBlockState example_runtime 2 lamp mc1
       = Some (Rejected TypeError)
    /\ fst <$> @getModelFromBlockState example_runtime 2 ghost mc1
       = Some (Fulfilled VUndef)
    /\ fst <$> @getModelFromBlockState example_runtime 2 stone mc1
       = Some (Fulfilled model)
    /\ @getBlockList example_runtime 2 None world = Some (Fulfilled [model], mc2).
Proof.
  destruct (@getBlockList_isolates_failures example_runtime 2 None world
              (snd (@getBlockStates example_runtime None world))
              (match fst (@getBlockStates example_runtime None world) with
               | Fulfilled l => l
               | Rejected _ => []
               end))
    as (mc2 & Hrun & _).
  - apply (@coherent_open example_runtime).
  - by_computation.
  - intros s Hin. vm_compute in Hin.
    destruct Hin as [<-|[<-|[<-|[]]]]; vm_compute; eauto.
  - eexists _, _, _, _, _, mc2.
    split; [by_computation|]. split; [by_computation|]. split; [by_computation|].
    split; [by_computation|]. rewrite Hrun. by_computation.
Defined.

(** ** The fallback parent *)




(** ** Documents in the heap *)

Section Heap.

Lemma value_ind_nested (P : value -> Prop) :
  P VUndef -> P VNull -> (forall b, P (VBool b)) -> (forall n, P (VNum n)) ->
  (forall s, P (VStr s)) ->
  (forall elems named,
     Forall P elems -> Forall (fun e => P (snd e)) named -> P (VArr elems named)) ->
  (forall o, Forall (fun e => P (snd e)) o -> P (VObj o)) ->
  forall v, P v.
Proof.
  intros Hu Hn Hb Hz Hs Ha Ho.
  fix IH 1.
  intros [| |b|n|s|elems named|o];
    [exact Hu | exact Hn | apply Hb | apply Hz | apply Hs | | ].
  - apply Ha.
    + induction elems as [|x elems IHl]; constructor; [apply IH | exact IHl].
    + induction named as [|[k x] named IHl]; constructor; [apply IH | exact IHl].
  - apply Ho. induction o as [|[k x] o IHl]; constructor; [apply IH | exact IHl].
Qed.

Lemma build_array (elems : list value) (named : props) (st : Store) :
  build (VArr elems named) st
  = let '(hs, st1) := build_list elems st in
    let '(hn, st2) := build_props named st1 in
    alloc (HArray hs hn) st2.
Proof.
  cbn [build].
  assert (Hl : forall l s,
            (fix build_list (l : list value) (st : Store) {struct l} :=
               match l with
               | [] => ([], st)
               | x :: l' =>
                   let '(h, st1) := build x st in
                   let '(hs, st2) := build_list l' st1 in
                   (h :: hs, st2)
               end) l s = build_list l s).
  { induction l as [|x l IH]; intros s; cbn [build_list]; [reflexivity|].
    destruct (build x s). now rewrite IH. }
  assert (Hp : forall o s,
            (fix build_props (o : props) (st : Store) {struct o} :=
               match o with
               | [] => ([], st)
               | (k, x) :: o' =>
                   let '(h, st1) := build x st in
                   let '(hs, st2) := build_props o' st1 in
                   ((k, h) :: hs, st2)
               end) o s = build_props o s).
  { induction o as [|[k x] o IH]; intros s; cbn [build_props]; [reflexivity|].
    destruct (build x s). now rewrite IH. }
  rewrite Hl. destruct (build_list elems st). now rewrite Hp.
Qed.

Lemma build_object (o : props) (st : Store) :
  build (VObj o) st
  = let '(ho, st1) := build_props o st in alloc (HObject ho) st1.
Proof.
  cbn [build].
  assert (Hp : forall p s,
            (fix build_props (o : props) (st : Store) {struct o} :=
               match o with
               | [] => ([], st)
               | (k, x) :: o' =>
                   let '(h, st1) := build x st in
                   let '(hs, st2) := build_props o' st1 in
                   ((k, h) :: hs, st2)
               end) p s = build_props p s).
  { induction p as [|[k x] p IH]; intros s; cbn [build_props]; [reflexivity|].
    destruct (build x s). now rewrite IH. }
  now rewrite Hp.
Qed.

(** Reading a tree only looks at the objects the value reaches. *)
Lemma reach_ext (hp hp' : gmap nat hobject) (r : hvalue) (l : nat) :
  (forall l, reach hp r l -> hp' !! l = hp !! l) ->
  reach hp' r l -> reach hp r l.
Proof.
  intros Hsame Hr. induction Hr as [l | l l' o c Hl Hin Hr IH].
  - constructor.
  - assert (Hl' : hp !! l = Some o) by (rewrite <- Hsame; [exact Hl | constructor]).
    eapply reach_child; [exact Hl' | exact Hin |].
    apply IH. intros l2 Hr2. apply Hsame. eapply reach_child; eassumption.
Qed.

Lemma reify_ext (n : nat) (hp hp' : gmap nat hobject) (r : hvalue) :
  (forall l, reach hp r l -> hp' !! l = hp !! l) ->
  reify n hp' r = reify n hp r.
Proof.
  revert r. induction n as [|n IH]; intros r Hsame; destruct r; try reflexivity.
  cbn [reify]. rewrite (Hsame l (reach_here _ _)).
  destruct (hp !! l) as [o|] eqn:Hl; [|reflexivity].
  assert (Hc : forall c, In c (children o) -> reify n hp' c = reify n hp c).
  { intros c Hin. apply IH. intros l2 Hr2. apply Hsame.
    eapply reach_child; eassumption. }
  destruct o as [elems named|o]; cbn [children] in Hc.
  - rewrite (Forall_mapM_ext (reify n hp') (reify n hp) elems).
    2:{ apply Forall_forall. intros c Hin. apply Hc, in_or_app. left.
        now apply list_elem_of_In. }
    rewrite (Forall_mapM_ext (on_snd (reify n hp'))
               (on_snd (reify n hp)) named); [reflexivity|].
    apply Forall_forall. intros e Hin. unfold on_snd. rewrite Hc; [reflexivity|].
    apply in_or_app. right. apply in_map. now apply list_elem_of_In.
  - rewrite (Forall_mapM_ext (on_snd (reify n hp'))
               (on_snd (reify n hp)) o); [reflexivity|].
    apply Forall_forall. intros e Hin. unfold on_snd. rewrite Hc; [reflexivity|].
    apply in_map. now apply list_elem_of_In.
Qed.

Lemma reach_frame (hp hp' : gmap nat hobject) (r : hvalue) (n l : nat) :
  (forall l, reach hp r l -> (l < n)%nat) ->
  (forall l, (l < n)%nat -> hp' !! l = hp !! l) ->
  reach hp' r l -> reach hp r l.
Proof. intros Hb Hf. apply reach_ext. intros l2 Hr. apply Hf, Hb, Hr. Qed.

Lemma reify_frame (f : nat) (hp hp' : gmap nat hobject) (r : hvalue) (n : nat) :
  (forall l, reach hp r l -> (l < n)%nat) ->
  (forall l, (l < n)%nat -> hp' !! l = hp !! l) ->
  reify f hp' r = reify f hp r.
Proof. intros Hb Hf. apply reify_ext. intros l2 Hr. apply Hf, Hb, Hr. Qed.

Lemma built_refl (st : Store) : wf_store st -> built st st [].
Proof.
  intros Hw. split; [exact Hw|]. split; [lia|]. split; [reflexivity|].
  intros c l Hin. destruct Hin.
Qed.

Lemma built_cons (st st1 st2 : Store) (r : hvalue) (rs : list hvalue) :
  built st st1 [r] -> built st1 st2 rs -> built st st2 (r :: rs).
Proof.
  intros (Hw1 & Hn1 & Hf1 & Hr1) (Hw2 & Hn2 & Hf2 & Hr2).
  split; [exact Hw2|]. split; [lia|]. split.
  - intros l Hl. rewrite Hf2 by lia. now apply Hf1.
  - intros c l [<-|Hin] Hreach.
    + assert (Hb : forall l, reach (heap st1) r l -> (l < next st1)%nat).
      { intros l2 Hr. apply (Hr1 r l2 (or_introl eq_refl)) in Hr. lia. }
      apply (reach_frame _ _ _ _ _ Hb Hf2) in Hreach.
      apply (Hr1 r l (or_introl eq_refl)) in Hreach. lia.
    + specialize (Hr2 c l Hin Hreach). lia.
Qed.

Lemma reify_built (st st1 st2 : Store) (r : hvalue) (rs : list hvalue) (f : nat) :
  built st st1 [r] -> built st1 st2 rs ->
  reify f (heap st2) r = reify f (heap st1) r.
Proof.
  intros (Hw1 & Hn1 & Hf1 & Hr1) (Hw2 & Hn2 & Hf2 & Hr2).
  apply (reify_frame _ _ _ _ (next st1)); [|exact Hf2].
  intros l Hr. apply (Hr1 r l (or_introl eq_refl)) in Hr. lia.
Qed.

Lemma build_list_ok (l : list value) :
  Forall build_ok l ->
  forall st hs st', wf_store st -> build_list l st = (hs, st') ->
    built st st' hs
    /\ forall fuel, (next st' <= fuel)%nat -> mapM (reify fuel (heap st')) hs = Some l.
Proof.
  induction 1 as [|x l Hx _ IH]; intros st hs st' Hw Hb; cbn [build_list] in Hb.
  - injection Hb as <- <-. split; [now apply built_refl | reflexivity].
  - destruct (build x st) as [h st1] eqn:Hbx.
    destruct (build_list l st1) as [hs' st2] eqn:Hbl. injection Hb as <- <-.
    destruct (Hx st h st1 Hw Hbx) as (Hb1 & Hre1).
    destruct (IH st1 hs' st2 (proj1 Hb1) Hbl) as (Hb2 & Hre2).
    split; [eapply built_cons; eassumption|].
    intros fuel Hfuel. cbn [mapM].
    rewrite (reify_built _ _ _ _ _ _ Hb1 Hb2).
    rewrite Hre1 by (destruct Hb2 as (_ & ? & _); lia).
    cbn. rewrite (Hre2 fuel Hfuel). reflexivity.
Qed.

Lemma build_props_ok (o : props) :
  Forall (fun e => build_ok (snd e)) o ->
  forall st ho st', wf_store st -> build_props o st = (ho, st') ->
    built st st' (map snd ho)
    /\ forall fuel, (next st' <= fuel)%nat ->
         mapM (on_snd (reify fuel (heap st'))) ho = Some o.
Proof.
  induction 1 as [|[k x] o Hx _ IH]; intros st ho st' Hw Hb; cbn [build_props] in Hb.
  - injection Hb as <- <-. split; [now apply built_refl | reflexivity].
  - cbn [snd] in Hx. destruct (build x st) as [h st1] eqn:Hbx.
    destruct (build_props o st1) as [ho' st2] eqn:Hbl. injection Hb as <- <-.
    destruct (Hx st h st1 Hw Hbx) as (Hb1 & Hre1).
    destruct (IH st1 ho' st2 (proj1 Hb1) Hbl) as (Hb2 & Hre2).
    split; [cbn [map snd]; eapply built_cons; eassumption|].
    intros fuel Hfuel. cbn [mapM]. rewrite (Hre2 fuel Hfuel).
    unfold on_snd. cbn [fst snd].
    rewrite (reify_built _ _ _ _ _ _ Hb1 Hb2).
    rewrite Hre1 by (destruct Hb2 as (_ & ? & _); lia).
    reflexivity.
Qed.

Lemma built_app (st st1 st2 : Store) (rs1 rs2 : list hvalue) :
  built st st1 rs1 -> built st1 st2 rs2 -> built st st2 (rs1 ++ rs2).
Proof.
  intros (Hw1 & Hn1 & Hf1 & Hr1) (Hw2 & Hn2 & Hf2 & Hr2).
  split; [exact Hw2|]. split; [lia|]. split.
  - intros l Hl. rewrite Hf2 by lia. now apply Hf1.
  - intros c l Hin Hreach. apply in_app_or in Hin as [Hin|Hin].
    + assert (Hb : forall l, reach (heap st1) c l -> (l < next st1)%nat).
      { intros l2 Hr. apply (Hr1 c l2 Hin) in Hr. lia. }
      apply (reach_frame _ _ _ _ _ Hb Hf2) in Hreach.
      apply (Hr1 c l Hin) in Hreach. lia.
    + specialize (Hr2 c l Hin Hreach). lia.
Qed.

Lemma reify_built_in (st st1 st2 : Store) (c : hvalue) (rs1 rs2 : list hvalue) (f : nat) :
  built st st1 rs1 -> built st1 st2 rs2 -> In c rs1 ->
  reify f (heap st2) c = reify f (heap st1) c.
Proof.
  intros (Hw1 & Hn1 & Hf1 & Hr1) (Hw2 & Hn2 & Hf2 & Hr2) Hin.
  apply (reify_frame _ _ _ _ (next st1)); [|exact Hf2].
  intros l Hr. apply (Hr1 c l Hin) in Hr. lia.
Qed.

Lemma alloc_built (st st2 : Store) (o : hobject) :
  built st st2 (children o) ->
  built st (snd (alloc o st2)) [fst (alloc o st2)]
  /\ built st2 (snd (alloc o st2)) [].
Proof.
  intros (Hw2 & Hn2 & Hf2 & Hr2). unfold alloc. cbn [fst snd].
  assert (Hfr : forall l, (l < next st2)%nat ->
                  (<[next st2 := o]> (heap st2) : gmap nat hobject) !! l = heap st2 !! l).
  { intros l Hl. apply lookup_insert_ne. lia. }
  assert (Hw : wf_store {| heap := <[next st2 := o]> (heap st2); next := S (next st2) |}).
  { intros l Hl. cbn [heap next] in *. rewrite lookup_insert_ne by lia. apply Hw2. lia. }
  split.
  - split; [exact Hw|]. split; [cbn [next]; lia|]. split.
    + intros l Hl. cbn [heap]. rewrite Hfr by lia. now apply Hf2.
    + intros c l [<-|[]] Hreach. cbn [heap next] in *.
      inversion Hreach as [|l0 l' o' c' Hl Hin Hr']; subst; [lia|].
      rewrite lookup_insert_eq in Hl. injection Hl as <-.
      assert (Hb : forall l, reach (heap st2) c' l -> (l < next st2)%nat).
      { intros l2 Hr. apply (Hr2 c' l2 Hin) in Hr. lia. }
      apply (reach_frame _ _ _ _ _ Hb Hfr) in Hr'.
      apply (Hr2 c' l Hin) in Hr'. lia.
  - split; [exact Hw|]. split; [cbn [next]; lia|]. split; [exact Hfr|].
    intros c l [].
Qed.

Lemma build_all_ok (v : value) : build_ok v.
Proof.
  induction v as [| |b|n|s|elems named IHe IHn|o IHo] using value_ind_nested;
    intros st r st' Hw Hb.
  1-5: cbn [build] in Hb; injection Hb as <- <-;
    (split; [|intros [|f] _; reflexivity]); split; [exact Hw|]; split; [lia|];
    split; [reflexivity|];
    intros c l [<-|[]] Hr; inversion Hr.
  - rewrite build_array in Hb.
    destruct (build_list elems st) as [hs st1] eqn:Hbl.
    destruct (build_props named st1) as [hn st2] eqn:Hbp.
    destruct (build_list_ok elems IHe st hs st1 Hw Hbl) as (Hb1 & Hre1).
    destruct (build_props_ok named IHn st1 hn st2 (proj1 Hb1) Hbp) as (Hb2 & Hre2).
    pose proof (built_app _ _ _ _ _ Hb1 Hb2) as Hb12.
    destruct (alloc_built st st2 (HArray hs hn) Hb12) as (Ha & Ha').
    rewrite Hb in Ha, Ha'. cbn [fst snd] in Ha, Ha'. split; [exact Ha|].
    intros fuel Hfuel. unfold alloc in Hb. injection Hb as <- <-. cbn [next heap] in *.
    destruct fuel as [|f]; [lia|]. cbn [reify]. rewrite lookup_insert_eq.
    rewrite (Forall_mapM_ext _ (reify f (heap st1)) hs).
    2:{ apply Forall_forall. intros c Hin. apply list_elem_of_In in Hin.
        transitivity (reify f (heap st2) c).
        - exact (reify_built_in _ _ _ c _ _ f Hb12 Ha' (in_or_app _ _ _ (or_introl Hin))).
        - exact (reify_built_in _ _ _ c _ _ f Hb1 Hb2 Hin). }
    rewrite Hre1 by (destruct Hb2 as (_ & ? & _); lia). cbn.
    rewrite (Forall_mapM_ext _ (on_snd (reify f (heap st2))) hn).
    2:{ apply Forall_forall. intros e Hin. apply list_elem_of_In in Hin.
        assert (Hs : reify f (<[next st2 := HArray hs hn]> (heap st2)) (snd e)
                     = reify f (heap st2) (snd e)).
        { apply (reify_built_in _ _ _ (snd e) _ _ f Hb12 Ha').
          apply in_or_app. right. now apply in_map. }
        unfold on_snd. now rewrite Hs. }
    rewrite Hre2 by lia. reflexivity.
  - rewrite build_object in Hb.
    destruct (build_props o st) as [ho st1] eqn:Hbp.
    destruct (build_props_ok o IHo st ho st1 Hw Hbp) as (Hb1 & Hre1).
    destruct (alloc_built st st1 (HObject ho) Hb1) as (Ha & Ha').
    rewrite Hb in Ha, Ha'. cbn [fst snd] in Ha, Ha'. split; [exact Ha|].
    intros fuel Hfuel. unfold alloc in Hb. injection Hb as <- <-. cbn [next heap] in *.
    destruct fuel as [|f]; [lia|]. cbn [reify]. rewrite lookup_insert_eq.
    rewrite (Forall_mapM_ext _ (on_snd (reify f (heap st1))) ho).
    2:{ apply Forall_forall. intros e Hin. apply list_elem_of_In in Hin.
        assert (Hs : reify f (<[next st1 := HObject ho]> (heap st1)) (snd e)
                     = reify f (heap st1) (snd e)).
        { apply (reify_built_in _ _ _ (snd e) _ _ f Hb1 Ha'). now apply in_map. }
        unfold on_snd. now rewrite Hs. }
    rewrite Hre1 by lia. reflexivity.
Qed.

Lemma mapM_impl {A B : Type} (f g : A -> option B) (l : list A) (k : list B) :
  (forall x y, In x l -> f x = Some y -> g x = Some y) ->
  mapM f l = Some k -> mapM g l = Some k.
Proof.
  intros Himpl Hf. apply mapM_Some. apply mapM_Some in Hf.
  induction Hf as [|x y l k Hxy _ IH]; constructor.
  - apply Himpl; [now left | exact Hxy].
  - apply IH. intros x' y' Hin. apply Himpl. now right.
Qed.

Lemma reify_mono (n : nat) (hp : gmap nat hobject) :
  forall r v m, (n <= m)%nat -> reify n hp r = Some v -> reify m hp r = Some v.
Proof.
  induction n as [|n IH]; intros r v m Hle Hr.
  - destruct r; try (destruct m; exact Hr). discriminate.
  - destruct r; try (destruct m; exact Hr).
    destruct m as [|m]; [lia|]. cbn [reify] in *.
    assert (Hc : forall c w, reify n hp c = Some w -> reify m hp c = Some w)
      by (intros c w; apply IH; lia).
    assert (He : forall (e : string * hvalue) w,
              on_snd (reify n hp) e = Some w -> on_snd (reify m hp) e = Some w).
    { intros e w Hw. unfold on_snd in *.
      destruct (reify n hp (snd e)) as [x|] eqn:E; [|discriminate].
      now rewrite (Hc _ _ E). }
    destruct (hp !! l) as [[elems named|o]|]; [| |discriminate].
    + destruct (mapM (reify n hp) elems) as [es|] eqn:E1; [|discriminate].
      rewrite (mapM_impl _ (reify m hp) _ _ (fun x y _ => Hc x y) E1).
      cbn in *.
      destruct (mapM (on_snd (reify n hp)) named)
        as [ns|] eqn:E2; [|discriminate].
      now rewrite (mapM_impl _ (on_snd (reify m hp))
                     _ _ (fun x y _ => He x y) E2).
    + destruct (mapM (on_snd (reify n hp)) o)
        as [ps|] eqn:E2; [|discriminate].
      now rewrite (mapM_impl _ (on_snd (reify m hp))
                     _ _ (fun x y _ => He x y) E2).
Qed.

Lemma mapM_In {A B : Type} (f : A -> option B) (l : list A) (k : list B) (c : A) :
  mapM f l = Some k -> In c l -> exists w, f c = Some w.
Proof.
  intros Hf. apply mapM_Some in Hf.
  induction Hf as [|x y l k Hxy _ IH]; intros Hin;
    [destruct Hin | destruct Hin as [<-|Hin]; eauto].
Qed.

(** A tree that can be read lies within the heap. *)
Lemma reify_reach (hp : gmap nat hobject) (r : hvalue) (l : nat) :
  reach hp r l -> forall n v, reify n hp r = Some v -> is_Some (hp !! l).
Proof.
  induction 1 as [l | l l' o c Hl Hin Hr IH]; intros n v Hv.
  - destruct n as [|n]; [discriminate|]. cbn [reify] in Hv.
    destruct (hp !! l); [eauto | discriminate].
  - destruct n as [|n]; [discriminate|]. cbn [reify] in Hv. rewrite Hl in Hv.
    assert (Hc : exists w, reify n hp c = Some w).
    { assert (He : forall named ns,
                mapM (on_snd (reify n hp)) named = Some ns ->
                In c (map snd named) -> exists w, reify n hp c = Some w).
      { intros named ns E Hc. apply in_map_iff in Hc as (e & <- & He).
        destruct (mapM_In _ _ _ e E He) as [w Hw]. unfold on_snd in Hw.
        destruct (reify n hp (snd e)); [eauto | discriminate]. }
      destruct o as [elems named|o]; cbn [children] in Hin.
      - destruct (mapM (reify n hp) elems) as [es|] eqn:E1; [|discriminate].
        cbn in Hv.
        destruct (mapM (on_snd (reify n hp)) named) as [ns|] eqn:E2; [|discriminate].
        apply in_app_or in Hin as [Hin|Hin]; [exact (mapM_In _ _ _ c E1 Hin) | eauto].
      - destruct (mapM (on_snd (reify n hp)) o) as [ps|] eqn:E2; [|discriminate].
        eauto. }
    destruct Hc as [w Hw]. exact (IH n w Hw).
Qed.

Lemma reify_undefined (n : nat) (hp : gmap nat hobject) (r : hvalue) :
  reify n hp r = Some VUndef -> r = HUndef.
Proof.
  destruct r; try (destruct n; discriminate); [reflexivity|].
  destruct n as [|n]; [discriminate|]. cbn [reify].
  destruct (hp !! l) as [[elems named|o]|]; [| |discriminate].
  - destruct (mapM (reify n hp) elems); [|discriminate]. cbn.
    destruct (mapM (on_snd (reify n hp)) named); discriminate.
  - destruct (mapM (on_snd (reify n hp)) o); discriminate.
Qed.

Lemma cached_below (st : Store) (r : hvalue) (n : nat) (v : value) (l : nat) :
  wf_store st -> reify n (heap st) r = Some v -> reach (heap st) r l -> (l < next st)%nat.
Proof.
  intros Hw Hv Hr. destruct (reify_reach _ _ _ Hr _ _ Hv) as [o Ho].
  destruct (Nat.lt_ge_cases l (next st)) as [Hlt|Hge]; [exact Hlt|].
  rewrite (Hw l Hge) in Ho. discriminate.
Qed.

(** A tree stays what it is while other trees are built. *)
Lemma reify_kept (st st' : Store) (rs : list hvalue) (r : hvalue) (v : value) :
  wf_store st -> built st st' rs ->
  reify (next st) (heap st) r = Some v ->
  reify (next st') (heap st') r = Some v
  /\ forall l, reach (heap st') r l -> (l < next st)%nat.
Proof.
  intros Hw (Hw' & Hn & Hf & _) Hv.
  assert (Hb : forall l, reach (heap st) r l -> (l < next st)%nat)
    by (intros l; now apply (cached_below st r (next st) v)).
  split.
  - apply (reify_mono (next st)); [exact Hn|].
    now rewrite (reify_frame _ _ _ _ _ Hb Hf).
  - intros l Hr. apply Hb. exact (reach_frame _ _ _ _ _ Hb Hf Hr).
Qed.

(** The copy of a JSON value is that value. *)
Lemma json_copy_json (v : value) : is_json v = true -> json_copy v = v.
Proof.
  induction v as [| |b|n|s|elems named IHe IHn|o IHo] using value_ind_nested;
    try reflexivity; cbn [is_json json_copy].
  - intros Hj. apply andb_true_iff in Hj as [He Hn].
    destruct named; [|discriminate]. f_equal.
    induction IHe as [|x elems Hx _ IH]; [reflexivity|].
    cbn [forallb] in He. apply andb_true_iff in He as [Hjx He].
    cbn [map]. rewrite (IH He). rewrite (Hx Hjx). now destruct x.
  - intros Hj. f_equal.
    induction IHo as [|[k x] o Hx _ IH]; [reflexivity|].
    cbn [forallb snd] in Hj. apply andb_true_iff in Hj as [Hjx Hj].
    cbn [snd] in Hx. rewrite (IH Hj). rewrite (Hx Hjx). now destruct x.
Qed.

End Heap.

Section Copies.
Context `{Runtime}.

Lemma getParsedJson_ref_hit (path : string) (m : MinecraftRef) (r0 : hvalue) (v0 : value) :
  _cache_ref m !! path = Some r0 ->
  htruthy r0 = true ->
  reify (next (store m)) (heap (store m)) r0 = Some v0 ->
  getParsedJson_ref path m
  = (Fulfilled (fst (build (json_copy v0) (store m))),
     {| instance := instance m; _cache_ref := _cache_ref m;
        store := snd (build (json_copy v0) (store m)) |}).
Proof.
  intros Hc Ht Hv. unfold getParsedJson_ref. rewrite Hc.
  cbn [default from_option Datatypes.id]. rewrite Ht. cbn [negb]. rewrite Hc.
  cbn [default from_option Datatypes.id]. rewrite Ht.
  unfold clone_ref. rewrite Hv.
  assert (Hne : clone v0 = Fulfilled (json_copy v0)).
  { destruct v0; try reflexivity. apply reify_undefined in Hv. subst r0. discriminate. }
  rewrite Hne. destruct (build (json_copy v0) (store m)). reflexivity.
Qed.

(** C8.  When the cache holds a document for [path], every call of
    [getParsedJson(path)] returns a copy made of new objects.  After two
    calls the two results read as the same tree, the one the cached
    document reads as when that is a JSON value; the cached document is
    still in the cache and reads as before; no object is shared between
    the two results and the cached document; and whatever is done to the
    objects of one result (other objects may be created), the other result
    and the cached document read as before. *)
Theorem getParsedJson_ref_independent_copies
    (path : string) (m : MinecraftRef) (r0 : hvalue) (v0 : value) :
  wf_store (store m) ->
  _cache_ref m !! path = Some r0 ->
  htruthy r0 = true ->
  reify (next (store m)) (heap (store m)) r0 = Some v0 ->
  exists r1 m1 r2 m2,
    getParsedJson_ref path m = (Fulfilled r1, m1)
    /\ getParsedJson_ref path m1 = (Fulfilled r2, m2)
    /\ let hp := heap (store m2) in
       let n := next (store m2) in
       reify n hp r1 = Some (json_copy v0)
       /\ reify n hp r2 = Some (json_copy v0)
       /\ (is_json v0 = true -> json_copy v0 = v0)
       /\ _cache_ref m2 !! path = Some r0
       /\ reify n hp r0 = Some v0
       /\ (forall l, reach hp r1 l -> ~ reach hp r2 l /\ ~ reach hp r0 l)
       /\ (forall l, reach hp r2 l -> ~ reach hp r0 l)
       /\ (forall hp' f,
             (forall l, (l < n)%nat -> ~ reach hp r1 l -> hp' !! l = hp !! l) ->
             reify f hp' r2 = reify f hp r2 /\ reify f hp' r0 = reify f hp r0)
       /\ (forall hp' f,
             (forall l, (l < n)%nat -> ~ reach hp r2 l -> hp' !! l = hp !! l) ->
             reify f hp' r1 = reify f hp r1 /\ reify f hp' r0 = reify f hp r0).
Proof.
  intros Hw Hc Ht Hv.
  destruct (build (json_copy v0) (store m)) as [r1 st1] eqn:Hb1.
  destruct (build_all_ok (json_copy v0) (store m) r1 st1 Hw Hb1) as (Hbuilt1 & Hre1).
  destruct (reify_kept _ _ _ _ _ Hw Hbuilt1 Hv) as (Hv1 & _).
  destruct (build (json_copy v0) st1) as [r2 st2] eqn:Hb2.
  destruct (build_all_ok (json_copy v0) st1 r2 st2 (proj1 Hbuilt1) Hb2) as (Hbuilt2 & Hre2).
  destruct (reify_kept _ _ _ _ _ (proj1 Hbuilt1) Hbuilt2 Hv1) as (Hv2 & _).
  pose proof (built_cons _ _ _ _ _ Hbuilt1 Hbuilt2) as Hb12.
  destruct Hb12 as (Hw2 & Hn02 & Hf02 & Hr12).
  destruct Hbuilt1 as (Hw1 & Hn01 & Hf01 & Hr1).
  destruct Hbuilt2 as (_ & Hn12 & Hf12 & Hr2).
  assert (Hfoot1 : forall l, reach (heap st2) r1 l -> (next (store m) <= l < next st1)%nat).
  { intros l Hr.
    assert (Hb : forall l, reach (heap st1) r1 l -> (l < next st1)%nat).
    { intros l2 Hr'. apply (Hr1 r1 l2 (or_introl eq_refl)) in Hr'. lia. }
    apply (Hr1 r1 l (or_introl eq_refl)). exact (reach_frame _ _ _ _ _ Hb Hf12 Hr). }
  assert (Hfoot2 : forall l, reach (heap st2) r2 l -> (next st1 <= l < next st2)%nat).
  { intros l Hr. exact (Hr2 r2 l (or_introl eq_refl) Hr). }
  assert (Hfoot0 : forall l, reach (heap st2) r0 l -> (l < next (store m))%nat).
  { intros l Hr.
    assert (Hb : forall l, reach (heap (store m)) r0 l -> (l < next (store m))%nat)
      by (intros l2; now apply (cached_below (store m) r0 (next (store m)) v0)).
    apply Hb. exact (reach_frame _ _ _ _ _ Hb Hf02 Hr). }
  exists r1, {| instance := instance m; _cache_ref := _cache_ref m; store := st1 |},
         r2, {| instance := instance m; _cache_ref := _cache_ref m; store := st2 |}.
  split.
  { rewrite (getParsedJson_ref_hit path m r0 v0 Hc Ht Hv), Hb1. reflexivity. }
  split.
  { rewrite (getParsedJson_ref_hit path
               {| instance := instance m; _cache_ref := _cache_ref m; store := st1 |}
               r0 v0 Hc Ht Hv1).
    cbn [store]. rewrite Hb2. reflexivity. }
  cbn [store _cache_ref]. cbv zeta.
  split.
  { rewrite (reify_frame _ (heap st1) _ _ (next st1)); [apply Hre1; lia | | exact Hf12].
    intros l Hr. apply (Hr1 r1 l (or_introl eq_refl)) in Hr. lia. }
  split; [apply Hre2; lia|]. split; [apply json_copy_json|].
  split; [exact Hc|]. split; [exact Hv2|].
  split.
  { intros l Hr. apply Hfoot1 in Hr. split; intros Hr'.
    - apply Hfoot2 in Hr'. lia.
    - apply Hfoot0 in Hr'. lia. }
  split.
  { intros l Hr Hr'. apply Hfoot2 in Hr. apply Hfoot0 in Hr'. lia. }
  split.
  - intros hp' f Hsame. split; apply reify_ext; intros l Hr; apply Hsame.
    + apply Hfoot2 in Hr. lia.
    + intros Hr'. apply Hfoot1 in Hr'. apply Hfoot2 in Hr. lia.
    + apply Hfoot0 in Hr. lia.
    + intros Hr'. apply Hfoot1 in Hr'. apply Hfoot0 in Hr. lia.
  - intros hp' f Hsame. split; apply reify_ext; intros l Hr; apply Hsame.
    + apply Hfoot1 in Hr. lia.
    + intros Hr'. apply Hfoot2 in Hr'. apply Hfoot1 in Hr. lia.
    + apply Hfoot0 in Hr. lia.
    + intros Hr'. apply Hfoot2 in Hr'. apply Hfoot0 in Hr. lia.
Qed.

End Copies.

(** ** The two models of the cache *)

Section Simulation.
Context `{Runtime}.

Lemma reify_truthy (n : nat) (hp : gmap nat hobject) (r : hvalue) (v : value) :
  reify n hp r = Some v -> htruthy r = truthy v.
Proof.
  destruct r; try (destruct n; intros [= <-]; reflexivity).
  destruct n as [|n]; [discriminate|]. cbn [reify htruthy].
  destruct (hp !! l) as [[elems named|o]|]; [| |discriminate].
  - destruct (mapM (reify n hp) elems); [|discriminate]. cbn.
    destruct (mapM (on_snd (reify n hp)) named); [|discriminate]. now intros [= <-].
  - destruct (mapM (on_snd (reify n hp)) o); [|discriminate]. now intros [= <-].
Qed.

Lemma views_built (m : MinecraftRef) (mc : Minecraft) (st' : Store) (rs : list hvalue) :
  wf_store (store m) -> views m mc -> built (store m) st' rs ->
  views {| instance := instance m; _cache_ref := _cache_ref m; store := st' |} mc.
Proof.
  intros Hw (Hi & Hc) Hb. split; [exact Hi|]. intros path. specialize (Hc path).
  cbn [_cache_ref store].
  destruct (_cache_ref m !! path) as [r|], (_cache mc !! path) as [v|]; try exact Hc.
  exact (proj1 (reify_kept _ _ _ _ _ Hw Hb Hc)).
Qed.

(** The method on references does what the method on trees does. *)
Lemma getParsedJson_ref_simulates (path : string) (m : MinecraftRef) (mc : Minecraft) :
  wf_store (store m) -> views m mc ->
  wf_store (store (snd (getParsedJson_ref path m)))
  /\ views (snd (getParsedJson_ref path m)) (snd (getParsedJson path mc))
  /\ reads_as (store (snd (getParsedJson_ref path m)))
       (fst (getParsedJson_ref path m)) (fst (getParsedJson path mc)).
Proof.
  intros Hw Hv.
  assert (Hhit : forall m mc r0 v0,
            wf_store (store m) -> views m mc ->
            _cache_ref m !! path = Some r0 -> _cache mc !! path = Some v0 ->
            truthy v0 = true ->
            wf_store (store (snd (getParsedJson_ref path m)))
            /\ views (snd (getParsedJson_ref path m)) (snd (getParsedJson path mc))
            /\ reads_as (store (snd (getParsedJson_ref path m)))
                 (fst (getParsedJson_ref path m)) (fst (getParsedJson path mc))).
  { clear m mc Hw Hv. intros m mc r0 v0 Hw Hv Hr Hc Ht.
    pose proof (proj2 Hv path) as Hrv. rewrite Hr, Hc in Hrv.
    assert (Hht : htruthy r0 = true) by (rewrite (reify_truthy _ _ _ _ Hrv); exact Ht).
    rewrite (getParsedJson_ref_hit path m r0 v0 Hr Hht Hrv).
    assert (Hca : cache_at path mc = v0) by (unfold cache_at; now rewrite Hc).
    rewrite getParsedJson_hit by (now rewrite Hca). rewrite Hca.
    destruct (build (json_copy v0) (store m)) as [r1 st1] eqn:Hb.
    destruct (build_all_ok (json_copy v0) (store m) r1 st1 Hw Hb) as (Hbuilt & Hre).
    cbn [fst snd store]. split; [exact (proj1 Hbuilt)|].
    split; [exact (views_built _ _ _ _ Hw Hv Hbuilt)|].
    assert (Hne : clone v0 = Fulfilled (json_copy v0)) by (destruct v0; try reflexivity; discriminate).
    rewrite Hne. cbn. apply Hre. lia. }
  destruct (truthy (cache_at path mc)) eqn:Ht.
  - unfold cache_at in Ht. pose proof (proj2 Hv path) as Hrv.
    destruct (_cache mc !! path) as [v0|] eqn:Hc; [|discriminate].
    destruct (_cache_ref m !! path) as [r0|] eqn:Hr; [|contradiction].
    exact (Hhit m mc r0 v0 Hw Hv Hr Hc Ht).
  - assert (Hht : htruthy (default HUndef (_cache_ref m !! path)) = false).
    { unfold cache_at in Ht. pose proof (proj2 Hv path) as Hrv.
      destruct (_cache_ref m !! path) as [r0|], (_cache mc !! path) as [v0|];
        try contradiction; [|reflexivity].
      cbn in *. now rewrite (reify_truthy _ _ _ _ Hrv). }
    assert (Hsrc : sources (instance m) = sources mc).
    { destruct Hv as [Hi _]. rewrite Hi. reflexivity. }
    assert (Hlogs : forall l c, logs l (with_cache c (instance m))
                               = with_cache c (logs l (instance m))) by reflexivity.
    rewrite (getParsedJson_miss _ _ Ht). cbv zeta.
    unfold getParsedJson_ref. rewrite Hht. cbn [negb].
    rewrite getFile_spec, Hsrc.
    set (l := reads_until path (sources mc)).
    destruct (first_data path (sources mc)) as [bytes|].
    + unfold parseJson, JSON_parse_throwing.
      destruct (JSON_parse bytes) as [v|].
      * destruct (build v (store m)) as [r st1] eqn:Hb.
        destruct (build_all_ok v (store m) r st1 Hw Hb) as (Hbuilt & Hre).
        cbn [_cache_ref]. rewrite lookup_insert_eq. cbn [default from_option Datatypes.id].
        assert (Hrt : htruthy r = truthy v)
          by (apply (reify_truthy (next st1) (heap st1)); apply Hre; lia).
        assert (Hv1 : views {| instance := logs l (instance m);
                               _cache_ref := <[path := r]> (_cache_ref m); store := st1 |}
                        (with_cache (<[path := v]> (_cache (logs l mc))) (logs l mc))).
        { split.
          - cbn [instance _cache with_cache]. destruct Hv as [Hi _]. rewrite Hi. reflexivity.
          - intros p. cbn [_cache_ref _cache with_cache store logs].
            destruct (decide (path = p)) as [<-|Hne].
            + rewrite !lookup_insert_eq. apply Hre. lia.
            + rewrite !lookup_insert_ne by assumption.
              pose proof (proj2 Hv p) as Hp.
              destruct (_cache_ref m !! p), (_cache mc !! p); try exact Hp.
              exact (proj1 (reify_kept _ _ _ _ _ Hw Hbuilt Hp)). }
        rewrite Hrt. destruct (truthy v) eqn:Htv.
        -- unfold clone_ref. cbn [store]. rewrite (Hre (next st1)) by lia.
           assert (Hne : clone v = Fulfilled (json_copy v))
             by (destruct v; try reflexivity; discriminate).
           rewrite Hne.
           destruct (build (json_copy v) st1) as [r' st2] eqn:Hb'.
           destruct (build_all_ok (json_copy v) st1 r' st2 (proj1 Hbuilt) Hb')
             as (Hbuilt' & Hre').
           cbn [fst snd store instance _cache_ref].
           split; [exact (proj1 Hbuilt')|]. split.
           ++ exact (views_built
                       {| instance := logs l (instance m);
                          _cache_ref := <[path := r]> (_cache_ref m); store := st1 |}
                       _ st2 [r'] (proj1 Hbuilt) Hv1 Hbuilt').
           ++ cbn. apply Hre'. lia.
        -- cbn [fst snd store]. split; [exact (proj1 Hbuilt)|]. split; [exact Hv1|].
           cbn. destruct (next st1); reflexivity.
      * cbn [fst snd store]. split; [exact Hw|]. split; [|reflexivity].
        split; [|exact (proj2 Hv)].
        cbn [instance _cache logs]. destruct Hv as [Hi _]. rewrite Hi at 1. reflexivity.
    + cbn [_cache_ref]. rewrite Hht. cbn [fst snd store]. split; [exact Hw|]. split.
      * split; [|exact (proj2 Hv)].
        cbn [instance _cache logs]. destruct Hv as [Hi _]. rewrite Hi at 1. reflexivity.
      * cbn. destruct (next (store m)); reflexivity.
Qed.
End Simulation.

Lemma wf_empty_store : wf_store empty_store.
Proof. intros l _. apply lookup_empty. Qed.

Lemma getParsedJson_ref_independent_copies_witness :
  exists r1 m1 r2 m2 tree,
    @getParsedJson_ref example_runtime "assets/minecraft/models/block/a.json" chain_once
    = (Fulfilled r1, m1)
    /\ @getParsedJson_ref example_runtime "assets/minecraft/models/block/a.json" m1
       = (Fulfilled r2, m2)
    /\ reify (next (store m2)) (heap (store m2)) r1 = Some tree
    /\ reify (next (store m2)) (heap (store m2)) r2 = Some tree
    /\ forall l o,
         reach (heap (store m2)) r1 l ->
         reify (next (store m2)) (<[l := o]> (heap (store m2))) r2 = Some tree.
Proof.
  destruct (@getParsedJson_ref_independent_copies example_runtime
              "assets/minecraft/models/block/a.json" chain_once (HRef 1)
              (VObj [("parent", VStr "minecraft:block/b");
                     ("textures", VObj [("all", VStr "block/a")])]))
    as (r1 & m1 & r2 & m2 & Hcall1 & Hcall2 & Hr1 & Hr2 & _ & _ & _ & _ & _ & Hmut & _).
  - apply (@getParsedJson_ref_simulates example_runtime
             "assets/minecraft/models/block/a.json"
             {| instance := chain; _cache_ref := ∅; store := empty_store |} chain).
    + exact wf_empty_store.
    + split; [reflexivity|]. intros p. cbn [_cache_ref]. rewrite !lookup_empty.
      change (_cache chain) with (∅ : gmap string value). now rewrite lookup_empty.
  - by_computation.
  - reflexivity.
  - by_computation.
  - exists r1, m1, r2, m2, (json_copy (VObj [("parent", VStr "minecraft:block/b");
                                            ("textures", VObj [("all", VStr "block/a")])])).
    split; [exact Hcall1|]. split; [exact Hcall2|]. split; [exact Hr1|].
    split; [exact Hr2|]. intros l o Hreach.
    destruct (Hmut (<[l := o]> (heap (store m2))) (next (store m2))) as [-> _];
      [|exact Hr2].
    intros l' _ Hnot. apply lookup_insert_ne. intros ->. contradiction.
Defined.

(** ** The older revision *)

(** In [src/minecraft.ts] too a level appends its parent after the
    recursive call: the root comes first. *)
Example legacy_parents_root_first :
  exists model mc',
    @Legacy.getModel example_runtime 3 (VStr "minecraft:block/a") chain
    = Some (Fulfilled model, mc')
    /\ lookup_prop "parents" model
       = VArr [VStr "minecraft:block/c"; VStr "minecraft:block/b"] [].
Proof. eexists _, _. split; by_computation. Qed.

(** [src/minecraft.ts] has no fallback parent: a model without [parent]
    resolves to its own fields, without [parents]. *)
Lemma legacy_no_fallback `{Runtime} (n : nat) (name file parent : value) (own : props)
    (mc : Minecraft) :
  fst (getModelFile name mc) = Fulfilled file ->
  take_parent file = Fulfilled (parent, own) ->
  truthy parent = false ->
  Legacy.getModel (S n) name mc
  = Some (Fulfilled (deepAssign own [VObj [("blockName", name)]]),
          snd (getModelFile name mc)).
Proof.
  intros Hf Ht Hp. cbn [Legacy.getModel]. unfold bindF, liftF, lift, ret.
  destruct (getModelFile name mc) as [o mc1]. cbn [fst snd] in *. subst o.
  rewrite Ht, Hp. reflexivity.
Qed.

(** With [Promise.all] one broken model chain rejects the whole batch. *)
Example legacy_batch_rejected :
  fst <$> @Legacy.getBlockList example_runtime 2 None world = Some (Rejected TypeError)
  /\ exists models mc', @getBlockList example_runtime 2 None world
                        = Some (Fulfilled models, mc') /\ length models = 1%nat.
Proof. split; [by_computation|]. eexists _, _. split; by_computation. Qed.

(** ** Fuel *)

(** The fuel only bounds the depth of the recursion: more of it does not
    change a result. *)
Lemma getModel_more_fuel `{Runtime} (n : nat) :
  forall k name mc r, getModel n name mc = Some r -> getModel (n + k) name mc = Some r.
Proof.
  induction n as [|n IH]; intros k name mc r Hrun; [discriminate|].
  cbn [Nat.add]. rewrite getModel_S in *.
  destruct (getModelFile name mc) as [[file|e] mc1]; [|exact Hrun].
  destruct (take_parent file) as [[parent0 own]|e]; [|exact Hrun].
  cbv zeta in *.
  destruct (truthy (fallback_parent parent0 (lookup_prop "display" own))); [|exact Hrun].
  destruct (getModel n _ mc1) as [r'|] eqn:Hrec; [|discriminate].
  rewrite (IH k _ _ _ Hrec). exact Hrun.
Qed.

Lemma getModelFromBlockState_more_fuel `{Runtime} (n k : nat) (block_state : value)
    (mc : Minecraft) (r : outcome value * Minecraft) :
  getModelFromBlockState n block_state mc = Some r ->
  getModelFromBlockState (n + k) block_state mc = Some r.
Proof.
  unfold getModelFromBlockState, bindF, liftF, lift, ret.
  destruct (default_variant block_state) as [variant|e]; [|auto].
  destruct (get_member variant "model") as [blockName|e]; [|auto].
  destruct (getModelFile blockName mc) as [[model_file|e] mc1]; [|auto].
  destruct (truthy model_file); cbn [negb]; [|auto].
  destruct (get_member model_file "parent") as [parent|e]; [|auto].
  destruct (set_member model_file "parent" VUndef) as [mf|e]; [|auto].
  destruct (get_member mf "display") as [display|e]; [|auto].
  destruct (truthy (fallback_parent parent display)); [|auto].
  destruct (getModel n _ mc1) as [r'|] eqn:Hrec; [|discriminate].
  rewrite (getModel_more_fuel n k _ _ _ Hrec). auto.
Qed.

(** Mod ids that are array indices come first in the table, in ascending
    order, whenever they were registered; [__proto__] makes no entry. *)
Example registerModId_indices_first :
  let register (modid : string) (mc : Minecraft) :=
    snd (@registerModId example_runtime modid (inr (jar_of_files [])) mc) in
  map fst (_modid_jars
             (register "__proto__" (register "9" (register "010" (register "10" two_mods)))))
  = ["9"; "10"; "create"; "botania"; "010"].
Proof. vm_compute. reflexivity. Qed.

(** Registering a mod id again keeps its place in the table. *)
Example registerModId_again :
  map fst (_modid_jars
             (snd (@registerModId example_runtime "create"
                     (inr (jar_of_files botania_files)) two_mods)))
  = ["create"; "botania"].
Proof. reflexivity. Qed.

(** ** Listings across the archives *)

Lemma getFileEntries_mods_spec (path : string) (jars : list (string * Jar)) (mc : Minecraft) :
  getFileEntries_mods path jars mc
  = (Fulfilled (first_listing path (tagged jars)),
     logs (listings_until path (tagged jars)) mc).
Proof.
  revert mc. induction jars as [|[key j] jars IH]; intros mc; cbn.
  - unfold ret. now rewrite logs_nil.
  - unfold bind, try_catch, jar_entries, listed.
    destruct (entries j path) as [[|name names]|] eqn:E; cbn; unfold ret; cbn.
    + rewrite IH. now rewrite log_logs.
    + now rewrite <- (log_logs _ []), logs_nil.
    + rewrite IH. now rewrite log_logs.
Qed.

Lemma getFileEntries_spec (path : string) (mc : Minecraft) :
  getFileEntries path mc
  = (Fulfilled (first_listing path (sources mc)),
     logs (listings_until path (sources mc)) mc).
Proof.
  unfold getFileEntries, sources, bind, try_catch, jar_entries. cbn. unfold listed.
  destruct (entries (jar mc) path) as [[|name names]|] eqn:E; cbn; unfold ret; cbn.
  - rewrite getFileEntries_mods_spec. now rewrite log_logs.
  - now rewrite <- (log_logs _ []), logs_nil.
  - rewrite getFileEntries_mods_spec. now rewrite log_logs.
Qed.

Lemma first_listing_nil (path : string) (srcs : list (source * Jar)) :
  first_listing path srcs = [] <-> Forall (fun s => listed path (snd s) = []) srcs.
Proof.
  induction srcs as [|[s j] srcs IH]; cbn.
  - split; auto.
  - destruct (listed path j) as [|name names] eqn:E.
    + rewrite IH. split.
      * intros Hall. constructor; [exact E | exact Hall].
      * intros Hall. now apply Forall_inv_tail in Hall.
    + split; [discriminate|]. intros Hall. apply Forall_inv in Hall. cbn in Hall. congruence.
Qed.

Lemma first_listing_skip (path : string) (pre post : list (source * Jar)) :
  Forall (fun s => listed path (snd s) = []) pre ->
  first_listing path (pre ++ post) = first_listing path post
  /\ listings_until path (pre ++ post)
     = map (fun s => EEntries (fst s) path) pre ++ listings_until path post.
Proof.
  induction pre as [|[s j] pre IH]; cbn; intros Hall; [auto|].
  pose proof (Forall_inv Hall) as Hx. cbn in Hx.
  destruct (IH (Forall_inv_tail Hall)) as [IH1 IH2]. rewrite Hx, IH1, IH2. auto.
Qed.

(** X1.  [getFileEntries] answers with one listing, never with several put
    together: the listing of the primary jar when it is not empty, whatever
    the other jars list; else the listing of the first jar of the table, in
    the order of its enumeration, that is not empty.  A listing that fails
    counts for an empty one; the answer is empty exactly when every archive
    lists nothing or fails, and the call is never rejected.  A jar
    registered under a new mod id that is neither an array index nor
    [__proto__] is the last one asked. *)
Theorem getFileEntries_first_listing `{Runtime} (path : string) (mc : Minecraft) :
  (forall l, entries (jar mc) path = Some l -> l <> [] ->
     getFileEntries path mc = (Fulfilled l, logs [EEntries Primary path] mc))
  /\ (forall pre key j post l,
        listed path (jar mc) = [] ->
        _modid_jars mc = pre ++ (key, j) :: post ->
        Forall (fun e => listed path (snd e) = []) pre ->
        entries j path = Some l -> l <> [] ->
        getFileEntries path mc
        = (Fulfilled l,
           logs (EEntries Primary path
                   :: map (fun e => EEntries (Mod (fst e)) path) (pre ++ [(key, j)])) mc))
  /\ (fst (getFileEntries path mc) = Fulfilled []
      <-> Forall (fun s => listed path (snd s) = []) (sources mc))
  /\ (forall e, fst (getFileEntries path mc) <> Rejected e)
  /\ (forall modid j,
        has_own modid (_modid_jars mc) = false ->
        modid <> "__proto__" -> array_index modid = None ->
        sources (snd (registerModId modid (inr j) mc)) = sources mc ++ [(Mod modid, j)]).
Proof.
  rewrite getFileEntries_spec. cbn [fst]. repeat split.
  - intros l Hl Hne. unfold sources. cbn. unfold listed. rewrite Hl. cbn.
    destruct l; [contradiction | reflexivity].
  - intros pre key j post l Hp Ht Hpre Hl Hne. unfold sources. cbn.
    rewrite Hp, Ht. unfold tagged. rewrite map_app. cbn.
    edestruct (first_listing_skip path (map (fun e => (Mod (fst e), snd e)) pre)) as [H1 H2];
      [apply Forall_map; eapply Forall_impl; [exact Hpre | cbn; auto] | ].
    rewrite H1, H2. cbn. unfold listed. rewrite Hl. cbn.
    destruct l as [|name names]; [contradiction|].
    do 2 f_equal. f_equal. rewrite map_app, map_map. reflexivity.
  - intros Hf. apply first_listing_nil. now inversion Hf.
  - intros Hall. apply first_listing_nil in Hall. now rewrite Hall.
  - discriminate.
  - intros modid j Hn Hp Hi. unfold sources.
    cbn [registerModId snd with_modid_jars _modid_jars jar].
    rewrite (object_set_new _ _ _ Hn Hp Hi). unfold tagged. now rewrite map_app.
Qed.

Lemma getFileEntries_first_listing_witness :
  getFileEntries "assets/create/textures" two_mods
  = (Fulfilled ["assets/create/textures/block/cog.png"],
     logs [EEntries Primary "assets/create/textures";
           EEntries (Mod "create") "assets/create/textures"] two_mods).
Proof.
  destruct (@getFileEntries_first_listing example_runtime "assets/create/textures" two_mods)
    as (_ & Hmods & _).
  apply (Hmods [] "create" (jar_of_files create_files)
           [("botania", jar_of_files botania_files)]
           ["assets/create/textures/block/cog.png"]);
    [reflexivity | reflexivity | constructor | reflexivity | discriminate].
Defined.

(** ** The cache, call after call *)

Section CacheCalls.
Context `{Runtime}.

(** A call that returns a document leaves it in the cache. *)
Lemma getParsedJson_leaves_entry (path : string) (mc mc1 : Minecraft) (v : value) :
  getParsedJson path mc = (Fulfilled v, mc1) ->
  truthy v = true ->
  truthy (cache_at path mc1) = true /\ clone (cache_at path mc1) = Fulfilled v.
Proof.
  intros Hrun Hv. destruct (truthy (cache_at path mc)) eqn:Ht.
  - rewrite (getParsedJson_hit _ _ Ht) in Hrun. injection Hrun as Hc <-. auto.
  - rewrite (getParsedJson_miss _ _ Ht) in Hrun. cbv zeta in Hrun.
    destruct (first_data path (sources mc)) as [bytes|].
    + destruct (JSON_parse bytes) as [w|]; [|discriminate].
      destruct (truthy w) eqn:Hw.
      * injection Hrun as Hc <-. unfold cache_at. cbn [with_cache _cache].
        rewrite lookup_insert_eq. cbn [default from_option Datatypes.id]. auto.
      * injection Hrun as <- _. discriminate.
    + injection Hrun as <- _. discriminate.
Qed.

Lemma first_data_dict_set (path : string) (modid : string) (j : Jar) (bytes : string)
    (jars : list (string * Jar)) :
  Forall (fun s => has_data path (snd s) = false) (tagged jars) ->
  read j path = Data bytes ->
  first_data path (tagged (dict_set modid j jars)) = Some bytes.
Proof.
  intros Hall Hr. induction jars as [|[k' j'] jars IH]; cbn.
  - now rewrite Hr.
  - destruct (String.eqb modid k'); cbn.
    + now rewrite Hr.
    + pose proof (Forall_inv Hall) as Hx. cbn in Hx. unfold has_data in Hx.
      cbn in Hall. apply Forall_inv_tail in Hall.
      destruct (read j' path); try discriminate; now apply IH.
Qed.

Lemma first_data_insert_index (path : string) (i : N) (modid : string) (j : Jar)
    (bytes : string) (jars : list (string * Jar)) :
  Forall (fun s => has_data path (snd s) = false) (tagged jars) ->
  read j path = Data bytes ->
  first_data path (tagged (insert_index i modid j jars)) = Some bytes.
Proof.
  intros Hall Hr. induction jars as [|[k' j'] jars IH]; cbn [insert_index].
  - cbn. now rewrite Hr.
  - assert (Hhere : first_data path (tagged ((modid, j) :: (k', j') :: jars)) = Some bytes)
      by (cbn; now rewrite Hr).
    destruct (array_index k') as [i'|]; [|exact Hhere].
    destruct (i' <? i)%N; [|exact Hhere].
    pose proof (Forall_inv Hall) as Hx. cbn in Hx. unfold has_data in Hx.
    cbn in Hall. apply Forall_inv_tail in Hall. cbn.
    destruct (read j' path); try discriminate; now apply IH.
Qed.

(** A jar registered under any mod id but [__proto__] is asked, and found
    when no other archive has the path. *)
Lemma first_data_object_set (path : string) (modid : string) (j : Jar) (bytes : string)
    (jars : list (string * Jar)) :
  modid <> "__proto__" ->
  Forall (fun s => has_data path (snd s) = false) (tagged jars) ->
  read j path = Data bytes ->
  first_data path (tagged (object_set modid j jars)) = Some bytes.
Proof.
  intros Hmodid Hall Hr. unfold object_set.
  destruct (has_own modid jars); [now apply first_data_dict_set|].
  destruct (String.eqb_spec modid "__proto__"); [contradiction|].
  destruct (array_index modid) as [i|];
    [now apply first_data_insert_index | now apply first_data_dict_set].
Qed.

End CacheCalls.

(** X2.  Once [getParsedJson(path)] has returned a document, a further call
    returns the same document and leaves the instance as it is: no archive
    is read again. *)
Theorem getParsedJson_served_from_cache `{Runtime} (path : string) (mc mc1 : Minecraft)
    (v : value) :
  getParsedJson path mc = (Fulfilled v, mc1) ->
  truthy v = true ->
  getParsedJson path mc1 = (Fulfilled v, mc1).
Proof.
  intros Hrun Hv. destruct (getParsedJson_leaves_entry _ _ _ _ Hrun Hv) as [Ht Hc].
  rewrite (getParsedJson_hit _ _ Ht). now rewrite Hc.
Qed.

Lemma getParsedJson_served_from_cache_witness :
  exists v mc1,
    @getParsedJson example_runtime "assets/minecraft/models/block/a.json" chain
    = (Fulfilled v, mc1)
    /\ @getParsedJson example_runtime "assets/minecraft/models/block/a.json" mc1
       = (Fulfilled v, mc1)
    /\ io_log mc1 = [ERead Primary "assets/minecraft/models/block/a.json"].
Proof.
  eexists _, _. split; [by_computation|]. split; [|by_computation].
  apply (@getParsedJson_served_from_cache example_runtime
           "assets/minecraft/models/block/a.json" chain); by_computation.
Defined.

(** X3.  For a [path] that is no name of a member of [Object.prototype]:
    when the file that the archives give for [path] is not valid JSON and
    the cache has no document for [path], [getParsedJson(path)] is rejected
    with a [SyntaxError] and stores nothing: every further call reads the
    archives again and is rejected again. *)
Theorem getParsedJson_invalid_json `{Runtime} (path : string) (mc : Minecraft)
    (bytes : string) :
  prototype_member path = false ->
  truthy (cache_at path mc) = false ->
  first_data path (sources mc) = Some bytes ->
  JSON_parse bytes = None ->
  forall n,
    let mcn := after_calls n path mc in
    getParsedJson path mcn
    = (Rejected SyntaxError, logs (reads_until path (sources mc)) mcn)
    /\ _cache mcn = _cache mc.
Proof.
  intros _ Ht Hb Hp n. cbv zeta.
  assert (Hinv : sources (after_calls n path mc) = sources mc
                 /\ _cache (after_calls n path mc) = _cache mc).
  { induction n as [|n [IHs IHc]]; [auto|]. cbn [after_calls].
    assert (Htn : truthy (cache_at path (after_calls n path mc)) = false)
      by (unfold cache_at; now rewrite IHc).
    rewrite (getParsedJson_miss _ _ Htn). rewrite IHs, Hb, Hp. cbn [snd]. auto. }
  destruct Hinv as [Hs Hc].
  assert (Htn : truthy (cache_at path (after_calls n path mc)) = false)
    by (unfold cache_at; now rewrite Hc).
  rewrite (getParsedJson_miss _ _ Htn). rewrite Hs, Hb, Hp. auto.
Qed.

(** X4.  A miss is not remembered.  For a [path] that is no name of a
    member of [Object.prototype]: when no archive has [path],
    [getParsedJson(path)] returns [undefined]; as soon as a jar that holds a
    document at [path] is registered, under any mod id but [__proto__]
    (which makes no entry of the table), the next call returns that
    document. *)
Theorem getParsedJson_miss_not_remembered `{Runtime} (path : string) (mc : Minecraft)
    (modid : string) (j : Jar) (bytes : string) (v : value) :
  prototype_member path = false ->
  modid <> "__proto__" ->
  truthy (cache_at path mc) = false ->
  Forall (fun s => has_data path (snd s) = false) (sources mc) ->
  read j path = Data bytes ->
  JSON_parse bytes = Some v ->
  truthy v = true ->
  let mc1 := snd (getParsedJson path mc) in
  fst (getParsedJson path mc) = Fulfilled VUndef
  /\ fst (getParsedJson path (snd (registerModId modid (inr j) mc1))) = clone v.
Proof.
  intros _ Hmodid Ht Hall Hr Hp Hv. cbv zeta.
  pose proof (proj2 (first_data_none _ _) Hall) as Hnone.
  rewrite (getParsedJson_miss _ _ Ht). rewrite Hnone. cbn [fst snd].
  split; [reflexivity|].
  set (mc1 := logs _ mc).
  assert (Ht2 : truthy (cache_at path (snd (registerModId modid (inr j) mc1))) = false)
    by exact Ht.
  rewrite (getParsedJson_miss _ _ Ht2).
  assert (Hfd : first_data path (sources (snd (registerModId modid (inr j) mc1)))
                = Some bytes).
  { unfold sources in *. cbn in *. apply Forall_inv_tail in Hall as Htail.
    apply Forall_inv in Hall. cbn in Hall. unfold has_data in Hall.
    destruct (read (jar mc) path); try discriminate;
      now apply first_data_object_set. }
  rewrite Hfd, Hp, Hv. reflexivity.
Qed.

(** X5.  [registerModId] leaves the cache alone: a document that
    [getParsedJson(path)] has returned is returned again after any
    registration, also one that replaces the jar the document came from,
    and no archive is asked. *)
Theorem registerModId_keeps_cached_documents `{Runtime} (path : string)
    (mc mc1 : Minecraft) (v : value) (modid : string) (p : string + Jar) :
  getParsedJson path mc = (Fulfilled v, mc1) ->
  truthy v = true ->
  let mc2 := snd (registerModId modid p mc1) in
  getParsedJson path mc2 = (Fulfilled v, mc2).
Proof.
  intros Hrun Hv mc2. destruct (getParsedJson_leaves_entry _ _ _ _ Hrun Hv) as [Ht Hc].
  assert (Hsame : cache_at path mc2 = cache_at path mc1) by reflexivity.
  rewrite getParsedJson_hit; rewrite Hsame; [now rewrite Hc | exact Ht].
Qed.

(** X6.  Registering a mod id again replaces its jar, in place: a file that
    only the jar registered before had is found before the call and is no
    longer found after it. *)
Theorem registerModId_replaces_jar `{Runtime} (path : string) (mc : Minecraft)
    (modid : string) (j0 j : Jar) (pre post : list (string * Jar)) (buf : string) :
  _modid_jars mc = pre ++ (modid, j0) :: post ->
  has_own modid pre = false ->
  has_data path (jar mc) = false ->
  Forall (fun e => has_data path (snd e) = false) (pre ++ post) ->
  read j0 path = Data buf ->
  has_data path j = false ->
  fst (getFile path mc) = Fulfilled (Some buf)
  /\ fst (getFile path (snd (registerModId modid (inr j) mc))) = Fulfilled None.
Proof.
  intros Ht Hn Hp Hall Hr Hj.
  apply Forall_app in Hall as [Hpre Hpost].
  assert (Htag : forall l : list (string * Jar),
            Forall (fun e => has_data path (snd e) = false) l ->
            Forall (fun s : source * Jar => has_data path (snd s) = false) (tagged l)).
  { intros l Hl. unfold tagged. apply Forall_map. eapply Forall_impl; [exact Hl | cbn; auto]. }
  rewrite !getFile_spec. cbn [fst]. unfold sources. cbn [registerModId snd with_modid_jars jar _modid_jars].
  assert (Hta : forall a b : list (string * Jar), tagged (a ++ b) = tagged a ++ tagged b)
    by (intros; apply map_app).
  rewrite Ht, (object_set_old _ _ _ _ _ Hn), !Hta.
  change (tagged ((modid, j0) :: post)) with ((Mod modid, j0) :: tagged post).
  change (tagged ((modid, j) :: post)) with ((Mod modid, j) :: tagged post).
  unfold has_data in Hp. cbn [first_data].
  destruct (read (jar mc) path) eqn:Ep; try discriminate.
  all: destruct (first_data_skip path (tagged pre) ((Mod modid, j0) :: tagged post) (Htag _ Hpre))
         as [-> _].
  all: destruct (first_data_skip path (tagged pre) ((Mod modid, j) :: tagged post) (Htag _ Hpre))
         as [-> _].
  all: cbn [first_data]; rewrite Hr; split; [reflexivity|].
  all: unfold has_data in Hj; destruct (read j path); try discriminate.
  all: now rewrite (proj2 (first_data_none _ _) (Htag _ Hpost)).
Qed.

Lemma getParsedJson_invalid_json_witness :
  fst (@getParsedJson example_runtime "assets/minecraft/models/block/broken.json"
         (@after_calls example_runtime 2 "assets/minecraft/models/block/broken.json" broken))
  = Rejected SyntaxError.
Proof.
  destruct (@getParsedJson_invalid_json example_runtime
              "assets/minecraft/models/block/broken.json" broken
              (jq "{ 'parent': 'block/cube', }") eq_refl eq_refl eq_refl eq_refl 2%nat)
    as [Hcall _].
  rewrite Hcall. reflexivity.
Defined.

Lemma getParsedJson_miss_not_remembered_witness :
  fst (@getParsedJson example_runtime "assets/create/models/block/gear.json" chain)
  = Fulfilled VUndef
  /\ fst (@getParsedJson example_runtime "assets/create/models/block/gear.json"
            (snd (@registerModId example_runtime "create" (inr (jar_of_files gear_files))
                    (snd (@getParsedJson example_runtime
                            "assets/create/models/block/gear.json" chain)))))
     = Fulfilled (VObj [("parent", VStr "minecraft:block/c")]).
Proof.
  apply (@getParsedJson_miss_not_remembered example_runtime
           "assets/create/models/block/gear.json" chain "create" (jar_of_files gear_files)
           (jq "{ 'parent': 'minecraft:block/c' }") (VObj [("parent", VStr "minecraft:block/c")]));
    [reflexivity | discriminate | reflexivity | repeat constructor | reflexivity
    | by_computation | reflexivity].
Defined.

Lemma registerModId_keeps_cached_documents_witness :
  exists v mc1,
    @getParsedJson example_runtime "assets/minecraft/models/block/a.json" chain
    = (Fulfilled v, mc1)
    /\ let mc2 := snd (@registerModId example_runtime "create"
                         (inr (jar_of_files gear_files)) mc1) in
       @getParsedJson example_runtime "assets/minecraft/models/block/a.json" mc2
       = (Fulfilled v, mc2).
Proof.
  eexists _, _. split; [by_computation|].
  apply (@registerModId_keeps_cached_documents example_runtime
           "assets/minecraft/models/block/a.json" chain); by_computation.
Defined.

Lemma registerModId_replaces_jar_witness :
  fst (getFile "assets/create/textures/block/cog.png" two_mods)
  = Fulfilled (Some "cog of create")
  /\ fst (getFile "assets/create/textures/block/cog.png"
            (snd (@registerModId example_runtime "create"
                    (inr (jar_of_files primary_files))
                    (snd (@registerModId example_runtime "botania"
                            (inr (jar_of_files primary_files)) two_mods)))))
     = Fulfilled None.
Proof.
  split; [reflexivity|].
  apply (@registerModId_replaces_jar example_runtime "assets/create/textures/block/cog.png"
           (snd (@registerModId example_runtime "botania"
                   (inr (jar_of_files primary_files)) two_mods))
           "create" (jar_of_files create_files) (jar_of_files primary_files)
           [] [("botania", jar_of_files primary_files)] "cog of create");
    [reflexivity | reflexivity | reflexivity | repeat constructor | reflexivity | reflexivity].
Defined.

(** ** Copies are plain JSON *)

Lemma json_copy_is_json (v : value) : v <> VUndef -> is_json (json_copy v) = true.
Proof.
  induction v as [| |b|n|s|elems named IHe IHn|o IHo] using value_ind_nested;
    intros Hv; try reflexivity; [contradiction| |]; cbn [is_json json_copy].
  - rewrite andb_true_r. clear IHn Hv.
    induction IHe as [|x elems Hx _ IH]; [reflexivity|].
    cbn [map forallb]. rewrite IH, andb_true_r.
    destruct x; try reflexivity; apply Hx; discriminate.
  - clear Hv. induction IHo as [|[k x] o Hx _ IH]; [reflexivity|].
    cbn [snd] in Hx.
    destruct x; cbn [forallb snd]; rewrite ?IH, ?andb_true_r; try reflexivity;
      apply Hx; discriminate.
Qed.

(** X7.  [clone] gives plain JSON and is idempotent: what it returns holds
    no [undefined] and no property beside the elements of an array, and the
    clone of it is equal to it; a value that is plain JSON already is
    returned as an equal value. *)
Theorem clone_idempotent (v : value) :
  (forall w, clone v = Fulfilled w -> is_json w = true /\ clone w = Fulfilled w)
  /\ (is_json v = true -> clone v = Fulfilled v).
Proof.
  assert (Hjson : forall u, is_json u = true -> clone u = Fulfilled u).
  { intros u Hu. destruct u; try discriminate; cbn [clone];
      now rewrite (json_copy_json _ Hu). }
  split; [|apply Hjson].
  intros w Hc.
  assert (Hw : w = json_copy v /\ v <> VUndef)
    by (destruct v; try discriminate; injection Hc as <-;
        (split; [reflexivity | discriminate])).
  destruct Hw as [-> Hne]. pose proof (json_copy_is_json v Hne) as Hj.
  split; [exact Hj | exact (Hjson _ Hj)].
Qed.

Lemma clone_idempotent_witness :
  clone (VObj [("a", VUndef); ("b", VArr [VUndef; VNum 1] [("k", VNull)])])
  = Fulfilled (VObj [("b", VArr [VNull; VNum 1] [])])
  /\ clone (VObj [("b", VArr [VNull; VNum 1] [])])
     = Fulfilled (VObj [("b", VArr [VNull; VNum 1] [])]).
Proof.
  split; [reflexivity|].
  apply (proj1 (clone_idempotent
                  (VObj [("a", VUndef); ("b", VArr [VUndef; VNum 1] [("k", VNull)])]))).
  reflexivity.
Defined.

(** ** Names and paths *)

Lemma Minecraft_id_prefixed (ns rest : string) :
  includes colon ns = false ->
  Minecraft_id (ns +:+ ":" +:+ rest)
  = {| namespace := ns; id := nth 0 (split colon rest) "" |}.
Proof.
  intros Hns. unfold Minecraft_id. rewrite includes_app. simpl. rewrite orb_true_r.
  change (":" +:+ rest) with (String colon rest).
  rewrite (split_at_first _ _ _ Hns). reflexivity.
Qed.

(** X8.  [id] keeps the first two pieces of a name: what follows a second
    separator is dropped, so that [getModelFile('ns:id:more')] asks for the
    file of [ns:id]. *)
Theorem id_drops_further_segments (ns local more : string) :
  includes colon ns = false ->
  includes colon local = false ->
  Minecraft_id (ns +:+ ":" +:+ local +:+ ":" +:+ more)
  = {| namespace := ns; id := local |}
  /\ model_path (VStr (ns +:+ ":" +:+ local +:+ ":" +:+ more))
     = model_path (VStr (ns +:+ ":" +:+ local)).
Proof.
  intros Hns Hlocal.
  assert (H1 : Minecraft_id (ns +:+ ":" +:+ local +:+ ":" +:+ more)
               = {| namespace := ns; id := local |}).
  { rewrite (Minecraft_id_prefixed _ _ Hns).
    change (":" +:+ more) with (String colon more).
    now rewrite (split_at_first _ _ _ Hlocal). }
  assert (H2 : Minecraft_id (ns +:+ ":" +:+ local) = {| namespace := ns; id := local |}).
  { rewrite (Minecraft_id_prefixed _ _ Hns). now rewrite (split_no_separator _ _ Hlocal). }
  split; [exact H1|]. unfold model_path. now rewrite H1, H2.
Qed.

Lemma id_drops_further_segments_witness :
  Minecraft_id "create:block/cog:extra" = {| namespace := "create"; id := "block/cog" |}
  /\ model_path (VStr "create:block/cog:extra") = model_path (VStr "create:block/cog").
Proof. apply (id_drops_further_segments "create" "block/cog" "extra"); reflexivity. Defined.

(** X9.  A bare model name, the name under [block/] and the name with the
    namespace [minecraft] in front are one and the same file for
    [getModelFile], which answers the three alike; so are no name at all and
    the name [block]. *)
Theorem getModelFile_name_forms `{Runtime} (s : string) :
  includes colon s = false ->
  includes slash s = false ->
  model_path (VStr s) = Fulfilled ("assets/minecraft/models/block/" +:+ s +:+ ".json")
  /\ getModelFile (VStr ("block/" +:+ s)) = getModelFile (VStr s)
  /\ getModelFile (VStr ("minecraft:block/" +:+ s)) = getModelFile (VStr s)
  /\ getModelFile VUndef = getModelFile (VStr "block").
Proof.
  intros Hc Hs.
  assert (H0 : model_path (VStr s)
               = Fulfilled ("assets/minecraft/models/block/" +:+ s +:+ ".json")).
  { unfold model_path, Minecraft_id. rewrite Hc. cbn [id namespace]. now rewrite Hs. }
  assert (H1 : model_path (VStr ("block/" +:+ s)) = model_path (VStr s)).
  { rewrite H0. unfold model_path, Minecraft_id.
    rewrite includes_app, Hc. cbn [includes orb Ascii.eqb Bool.eqb colon].
    cbn [id namespace]. rewrite includes_app. reflexivity. }
  assert (H2 : model_path (VStr ("minecraft:block/" +:+ s)) = model_path (VStr s)).
  { rewrite H0. unfold model_path.
    change ("minecraft:block/" +:+ s) with ("minecraft" +:+ ":" +:+ ("block/" +:+ s)).
    rewrite Minecraft_id_prefixed by reflexivity.
    rewrite split_no_separator by (rewrite includes_app, Hc; reflexivity).
    cbn [nth id namespace]. rewrite includes_app. reflexivity. }
  split; [exact H0|]. unfold getModelFile. rewrite H1, H2. repeat split.
Qed.

Lemma getModelFile_name_forms_witness :
  @getModelFile example_runtime (VStr "minecraft:block/stone") world
  = @getModelFile example_runtime (VStr "stone") world.
Proof.
  destruct (@getModelFile_name_forms example_runtime "stone" eq_refl eq_refl)
    as (_ & _ & Hfull & _).
  exact (f_equal (fun f => f world) Hfull).
Defined.

(** ** Texture metadata *)

(** X10.  [getTextureMetadata] is never rejected: when the file it asks for
    is not valid JSON the answer is [null], and when no archive has the
    file the answer is [undefined]. *)
Theorem getTextureMetadata_never_rejected `{Runtime} (name : string) (mc : Minecraft) :
  let path := "assets/" +:+ namespace (Minecraft_id name) +:+ "/textures/"
              +:+ name +:+ ".png.mcmeta" in
  (forall e, fst (getTextureMetadata name mc) <> Rejected e)
  /\ (forall bytes,
        truthy (cache_at path mc) = false ->
        first_data path (sources mc) = Some bytes ->
        JSON_parse bytes = None ->
        fst (getTextureMetadata name mc) = Fulfilled VNull)
  /\ (truthy (cache_at path mc) = false ->
      Forall (fun s => has_data path (snd s) = false) (sources mc) ->
      fst (getTextureMetadata name mc) = Fulfilled VUndef).
Proof.
  intros path. unfold getTextureMetadata, try_catch. fold path. split; [|split].
  - intros e. destruct (getParsedJson path mc) as [[v|e'] mc1]; discriminate.
  - intros bytes Ht Hb Hp. rewrite (getParsedJson_miss _ _ Ht), Hb, Hp. reflexivity.
  - intros Ht Hall. rewrite (getParsedJson_miss _ _ Ht).
    now rewrite (proj2 (first_data_none _ _) Hall).
Qed.

(** X11.  For a name with a namespace in front, [getTextureMetadata] asks
    for a path that still holds the whole name, separator included
    ([assets/ns/textures/ns:id.png.mcmeta]), while the texture itself is at
    [assets/ns/textures/id.png]: when no archive has a file under the path
    asked for, the answer is [undefined], whatever lies beside the
    texture. *)
Theorem getTextureMetadata_keeps_prefix `{Runtime} (ns local : string) (mc : Minecraft) :
  includes colon ns = false ->
  includes colon local = false ->
  let name := ns +:+ ":" +:+ local in
  let asked := "assets/" +:+ ns +:+ "/textures/" +:+ name +:+ ".png.mcmeta" in
  truthy (cache_at asked mc) = false ->
  Forall (fun s => has_data asked (snd s) = false) (sources mc) ->
  texture_path name = "assets/" +:+ ns +:+ "/textures/" +:+ local +:+ ".png"
  /\ getTextureMetadata name mc
     = (Fulfilled VUndef, logs (reads_until asked (sources mc)) mc).
Proof.
  intros Hns Hlocal name asked Ht Hall.
  assert (Hid : Minecraft_id name = {| namespace := ns; id := local |}).
  { unfold name. rewrite (Minecraft_id_prefixed _ _ Hns).
    now rewrite (split_no_separator _ _ Hlocal). }
  split.
  - unfold texture_path. now rewrite Hid.
  - unfold getTextureMetadata, try_catch. rewrite Hid. cbn [namespace]. fold asked.
    rewrite (getParsedJson_miss _ _ Ht).
    now rewrite (proj2 (first_data_none _ _) Hall).
Qed.

Lemma getTextureMetadata_never_rejected_witness :
  fst (@getTextureMetadata example_runtime "block/lava" broken) = Fulfilled VNull
  /\ fst (@getTextureMetadata example_runtime "block/water" broken) = Fulfilled VUndef.
Proof.
  destruct (@getTextureMetadata_never_rejected example_runtime "block/lava" broken)
    as (_ & Hnull & _).
  destruct (@getTextureMetadata_never_rejected example_runtime "block/water" broken)
    as (_ & _ & Hundef).
  split.
  - apply (Hnull (jq "{ 'animation': ")); reflexivity.
  - apply Hundef; [reflexivity | repeat constructor].
Defined.

Lemma getTextureMetadata_keeps_prefix_witness :
  has_data "assets/create/textures/block/gear.png.mcmeta" (jar_of_files gear_files) = true
  /\ texture_path "create:block/gear" = "assets/create/textures/block/gear.png"
  /\ fst (@getTextureMetadata example_runtime "create:block/gear" geared) = Fulfilled VUndef.
Proof.
  split; [reflexivity|].
  destruct (@getTextureMetadata_keeps_prefix example_runtime "create" "block/gear" geared)
    as [Hpath Hrun]; [reflexivity | reflexivity | reflexivity | repeat constructor |].
  split; [exact Hpath|]. exact (f_equal fst Hrun).
Defined.

(** ** What a resolution always does *)

(** X12.  Every descriptor that [getModel(blockName)] returns holds the
    name it was asked for under [blockName], whatever the documents of the
    chain hold there. *)
Theorem getModel_stamps_blockName `{Runtime} (n : nat) (name : value)
    (mc mc' : Minecraft) (model : props) :
  getModel n name mc = Some (Fulfilled model, mc') ->
  lookup_prop "blockName" model = name.
Proof.
  destruct n as [|n]; [discriminate|]. rewrite getModel_S.
  destruct (getModelFile name mc) as [[file|e] mc1] eqn:Hfile; [|discriminate].
  assert (Hname : is_mapping name = false).
  { unfold getModelFile, bind, lift in Hfile.
    destruct (model_path name) as [path|e] eqn:Hp; [|discriminate].
    exact (model_path_not_mapping _ _ Hp). }
  destruct (take_parent file) as [[parent0 own]|e]; [|discriminate]. cbv zeta.
  destruct (truthy _).
  - destruct (getModel n _ mc1) as [[[inh|e] mc2]|]; try discriminate.
    destruct (inherit _ _ _) as [m|e]; [|discriminate].
    rewrite (stamp_spec _ _ Hname). intros Hrun. injection Hrun as <- _.
    apply lookup_dict_set_eq.
  - rewrite (stamp_spec _ _ Hname). intros Hrun. injection Hrun as <- _.
    apply lookup_dict_set_eq.
Qed.

Lemma getModel_stamps_blockName_witness :
  exists model mc',
    @getModel example_runtime 2 (VStr "minecraft:block/named") chain
    = Some (Fulfilled model, mc')
    /\ lookup_prop "blockName" model = VStr "minecraft:block/named".
Proof.
  eexists _, _. split; [by_computation|].
  eapply (@getModel_stamps_blockName example_runtime 2 (VStr "minecraft:block/named") chain).
  by_computation.
Defined.

(** ** Resolutions that do not end *)

Section Endless.
Context `{Runtime}.

(** One level of a resolution that goes on to a parent whose resolution
    does not end. *)
Lemma getModel_step_none (mc0 mc : Minecraft) (n : nat) (name next : value) :
  follows mc0 name next ->
  coherent mc -> same_archives mc0 mc ->
  (forall mc1, coherent mc1 -> same_archives mc0 mc1 -> getModel n next mc1 = None) ->
  getModel (S n) name mc = None.
Proof.
  intros (file & parent & own & Hd & Ht & Hf & Htr) Hc Hs Hnext.
  rewrite getModel_S.
  destruct (getModelFile_document name mc Hc) as (Hdoc & Hc1 & Hs1).
  destruct (getModelFile name mc) as [o mc1]. cbn [fst snd] in Hdoc, Hc1, Hs1.
  rewrite <- (same_archives_model_document _ _ _ Hs), Hd in Hdoc. subst o.
  rewrite Ht. cbv zeta. rewrite Hf, Htr.
  now rewrite (Hnext mc1 Hc1 (same_archives_trans _ _ _ Hs Hs1)).
Qed.

End Endless.

(** X13.  [getModel] does not look for cycles.  In a family of models each
    of which leads the resolution to a model of the family, by its
    [parent] or by the fallback rule, the resolution of any of them never
    returns: no depth of recursion is enough. *)
Theorem getModel_cycle_never_returns `{Runtime} (P : value -> Prop) (mc : Minecraft) :
  coherent mc ->
  (forall name, P name -> exists next, follows mc name next /\ P next) ->
  forall n name, P name -> getModel n name mc = None.
Proof.
  intros Hc Hfam n.
  assert (Hgen : forall name mc', P name -> coherent mc' -> same_archives mc mc' ->
                   getModel n name mc' = None).
  { induction n as [|n IH]; intros name mc' Hp Hc' Hs; [reflexivity|].
    destruct (Hfam name Hp) as (next & Hfol & Hnext).
    eapply getModel_step_none; eauto. }
  intros name Hp. apply Hgen; [exact Hp | exact Hc | apply same_archives_refl].
Qed.

Lemma getModel_cycle_never_returns_witness :
  @getModel example_runtime 1000 (VStr "minecraft:block/ping") loop = None.
Proof.
  apply (@getModel_cycle_never_returns example_runtime
           (fun name => name = VStr "minecraft:block/ping"
                        \/ name = VStr "minecraft:block/pong") loop).
  - apply (@coherent_open example_runtime).
  - intros name [-> | ->].
    + exists (VStr "minecraft:block/pong"). split; [|now right].
      eexists _, _, _. repeat split; by_computation.
    + exists (VStr "minecraft:block/ping"). split; [|now left].
      eexists _, _, _. repeat split; by_computation.
  - now left.
Defined.

(** X14.  The fallback rule holds for the base block model too.  When the
    document of [minecraft:block/block] has neither a parent nor gui data,
    the base model falls back to itself: [getModel] returns neither for it
    nor for any model that has neither a parent nor gui data. *)
Theorem getModel_base_without_gui `{Runtime} (mc : Minecraft) (name file parent : value)
    (own : props) (file0 parent0 : value) (own0 : props) :
  coherent mc ->
  model_document mc (VStr "minecraft:block/block") = Fulfilled file0 ->
  take_parent file0 = Fulfilled (parent0, own0) ->
  truthy parent0 = false ->
  no_gui (lookup_prop "display" own0) = true ->
  model_document mc name = Fulfilled file ->
  take_parent file = Fulfilled (parent, own) ->
  truthy parent = false ->
  no_gui (lookup_prop "display" own) = true ->
  forall n,
    getModel n (VStr "minecraft:block/block") mc = None
    /\ getModel n name mc = None.
Proof.
  intros Hc Hd0 Ht0 Hp0 Hg0 Hd Ht Hp Hg.
  set (root := VStr "minecraft:block/block").
  assert (Hfol0 : follows mc root root).
  { exists file0, parent0, own0. repeat split; try assumption.
    unfold fallback_parent. now rewrite Hp0, Hg0. }
  assert (Hfol : follows mc name root).
  { exists file, parent, own. repeat split; try assumption.
    unfold fallback_parent. now rewrite Hp, Hg. }
  assert (Hroot : forall n mc', coherent mc' -> same_archives mc mc' ->
                    getModel n root mc' = None).
  { induction n as [|n IH]; intros mc' Hc' Hs; [reflexivity|].
    eapply getModel_step_none; eauto. }
  intros n. split; [apply Hroot; [exact Hc | apply same_archives_refl]|].
  destruct n as [|n]; [reflexivity|].
  eapply getModel_step_none; eauto using same_archives_refl.
Qed.

Lemma getModel_base_without_gui_witness :
  @getModel example_runtime 1000 (VStr "minecraft:block/block") bare = None
  /\ @getModel example_runtime 1000 (VStr "minecraft:block/stone") bare = None.
Proof.
  eapply (@getModel_base_without_gui example_runtime bare (VStr "minecraft:block/stone")).
  - apply (@coherent_open example_runtime).
  - by_computation.
  - by_computation.
  - by_computation.
  - by_computation.
  - by_computation.
  - by_computation.
  - by_computation.
  - by_computation.
Defined.

(** ** One resolution after the other *)

(** X15.  Resolving a model a second time gives what the first resolution
    gave: the documents that the first call has left in the cache do not
    change the outcome. *)
Theorem getModel_again `{Runtime} (n : nat) (name : value) (mc mc1 : Minecraft)
    (o : outcome props) :
  coherent mc ->
  getModel n name mc = Some (o, mc1) ->
  exists mc2, getModel n name mc1 = Some (o, mc2).
Proof.
  intros Hc Hrun.
  pose proof (transparent_getModel n name mc mc (agree_refl _ Hc)) as Hself.
  rewrite Hrun in Hself. destruct Hself as (_ & (_ & _ & Hc1) & Hs1).
  pose proof (transparent_getModel n name mc mc1 (conj Hs1 (conj Hc Hc1))) as Htr.
  rewrite Hrun in Htr.
  destruct (getModel n name mc1) as [[o' mc2]|]; [|contradiction].
  destruct Htr as (<- & _). now exists mc2.
Qed.

Lemma getModel_again_witness :
  exists o mc1 mc2,
    @getModel example_runtime 3 (VStr "minecraft:block/a") chain = Some (o, mc1)
    /\ @getModel example_runtime 3 (VStr "minecraft:block/a") mc1 = Some (o, mc2).
Proof.
  destruct (@getModel_again example_runtime 3 (VStr "minecraft:block/a") chain
              (snd (default (Rejected TypeError, chain)
                      (@getModel example_runtime 3 (VStr "minecraft:block/a") chain)))
              (fst (default (Rejected TypeError, chain)
                      (@getModel example_runtime 3 (VStr "minecraft:block/a") chain))))
    as [mc2 Hrun].
  - apply (@coherent_open example_runtime).
  - by_computation.
  - eexists _, _, mc2. split; [by_computation | exact Hrun].
Defined.

(** ** The two revisions *)

(** X16.  The two revisions of [getModel] differ by the fallback rule only:
    on archives where every model document has a parent or gui data, the
    older [getModel] of [src/minecraft.ts] and the newer one give the same
    outcome and leave the same instance. *)
Theorem revisions_agree_without_fallback `{Runtime} (mc : Minecraft) :
  coherent mc ->
  (forall name file parent own,
     model_document mc name = Fulfilled file ->
     take_parent file = Fulfilled (parent, own) ->
     truthy parent = true \/ no_gui (lookup_prop "display" own) = false) ->
  forall n name, Legacy.getModel n name mc = getModel n name mc.
Proof.
  intros Hc Hdocs n.
  assert (Hgen : forall name mc', coherent mc' -> same_archives mc mc' ->
                   Legacy.getModel n name mc' = getModel n name mc').
  { induction n as [|n IH]; intros name mc' Hc' Hs; [reflexivity|].
    cbn [Legacy.getModel getModel]. unfold bindF, liftF, lift, ret.
    destruct (getModelFile_document name mc' Hc') as (Hdoc & Hc1 & Hs1).
    destruct (getModelFile name mc') as [[file|e] mc1]; [|reflexivity].
    cbn [fst snd] in Hdoc, Hc1, Hs1.
    destruct (take_parent file) as [[parent own]|e] eqn:Ht; [|reflexivity].
    assert (Hfb : fallback_parent parent (lookup_prop "display" own) = parent).
    { rewrite <- (same_archives_model_document _ _ _ Hs) in Hdoc. symmetry in Hdoc.
      unfold fallback_parent.
      destruct (Hdocs name file parent own Hdoc Ht) as [-> | ->];
        [reflexivity | now rewrite andb_false_r]. }
    rewrite Hfb. destruct (truthy parent); [|reflexivity].
    now rewrite (IH parent mc1 Hc1 (same_archives_trans _ _ _ Hs Hs1)). }
  intros name. apply Hgen; [exact Hc | apply same_archives_refl].
Qed.

Lemma revisions_agree_without_fallback_witness :
  @Legacy.getModel example_runtime 3 (VStr "minecraft:block/a") chain
  = @getModel example_runtime 3 (VStr "minecraft:block/a") chain.
Proof.
  apply (@revisions_agree_without_fallback example_runtime chain).
  - apply (@coherent_open example_runtime).
  - intros name file parent own Hd Ht. unfold model_document in Hd.
    destruct (model_path name) as [path|e]; [|discriminate].
    unfold document, sources, chain, Minecraft_open in Hd.
    cbn [jar _modid_jars tagged map first_data jar_of_files read] in Hd.
    set (p := fun f : string * string => String.eqb path (fst f)) in Hd.
    unfold chain_files in Hd. cbn [List.find] in Hd.
    repeat match type of Hd with
           | context [p ?f] => destruct (p f)
           end.
    all: vm_compute in Hd; try discriminate; injection Hd as <-.
    all: vm_compute in Ht; try discriminate; injection Ht as <- <-.
    all: first [left; reflexivity | right; reflexivity].
Defined.

(** ** The block states of a namespace *)

Section BlockStates.
Context `{Runtime}.

Lemma set_member_get (o : value) (k : string) (v o' : value) :
  set_member o k v = Fulfilled o' ->
  get_member o' k = Fulfilled v /\ is_object o' = true.
Proof.
  destruct o; cbn [set_member]; try discriminate; intros Hs; injection Hs as <-;
    cbn [get_member is_object]; now rewrite lookup_dict_set_eq.
Qed.

(** The states that the loop of [getBlockStates] returns: one for each
    entry that ends in [.json], in the order of the listing, an object or
    an array that holds the identifier of its entry. *)
Lemma getBlockStates_loop_identifiers (namespace : string) (files : list string) :
  forall mc states mc1,
    getBlockStates_loop namespace files mc = (Fulfilled states, mc1) ->
    Forall2 (fun state name =>
               get_member state "identifier" = Fulfilled (block_identifier namespace name)
               /\ is_object state = true)
      states (List.filter (ends_with ".json") files).
Proof.
  induction files as [|name files IH]; intros mc states mc1; cbn [getBlockStates_loop].
  - unfold ret. intros Hrun. injection Hrun as <- _. constructor.
  - cbn [List.filter]. destruct (ends_with ".json" name); cbn [negb]; [|apply IH].
    unfold bind, lift, ret.
    destruct (getParsedJson name mc) as [[doc|e] m1]; [|discriminate].
    destruct (set_member doc "identifier" _) as [state|e] eqn:Hset; [|discriminate].
    destruct (getBlockStates_loop namespace files m1) as [[rest|e] m2] eqn:Hrest;
      [|discriminate].
    intros Hrun. injection Hrun as <- _. constructor; [|exact (IH _ _ _ Hrest)].
    exact (set_member_get _ _ _ _ Hset).
Qed.

Lemma block_identifier_truthy (namespace name : string) :
  truthy (block_identifier namespace name) = true.
Proof.
  unfold block_identifier. cbn [truthy].
  destruct (namespace +:+ ":" +:+ drop_last 5 (basename name)) eqn:E; [|reflexivity].
  destruct namespace; discriminate.
Qed.

Lemma identifiers_of_states (namespace : string) (states : list value) (names : list string) :
  Forall2 (fun state name =>
             get_member state "identifier" = Fulfilled (block_identifier namespace name)
             /\ is_object state = true) states names ->
  identifiers_of states = Fulfilled (map (block_identifier namespace) names).
Proof.
  induction 1 as [|state name states names [Hid _] _ IH]; [reflexivity|].
  cbn [identifiers_of map]. rewrite Hid, IH. now rewrite block_identifier_truthy.
Qed.

Lemma find_state_spec (namespace identifier : string) (states : list value)
    (names : list string) :
  Forall2 (fun state name =>
             get_member state "identifier" = Fulfilled (block_identifier namespace name)
             /\ is_object state = true) states names ->
  (find_state identifier states = Fulfilled VUndef
   /\ Forall (fun s => get_member s "identifier" <> Fulfilled (VStr identifier)) states)
  \/ exists pre state post,
       states = pre ++ state :: post
       /\ find_state identifier states = Fulfilled state
       /\ is_object state = true
       /\ get_member state "identifier" = Fulfilled (VStr identifier)
       /\ Forall (fun s => get_member s "identifier" <> Fulfilled (VStr identifier)) pre.
Proof.
  induction 1 as [|state name states names [Hid Hobj] _ IH].
  - left. split; [reflexivity | constructor].
  - cbn [find_state]. rewrite Hid. unfold block_identifier. cbn [loose_eq_string].
    destruct (String.eqb _ identifier) eqn:E.
    + apply String.eqb_eq in E. right. exists [], state, states.
      split; [reflexivity|]. split; [reflexivity|]. split; [exact Hobj|].
      split; [|constructor]. rewrite Hid. unfold block_identifier. now rewrite E.
    + assert (Hne : get_member state "identifier" <> Fulfilled (VStr identifier)).
      { rewrite Hid. unfold block_identifier. intros Heq. injection Heq as Heq.
        rewrite Heq, String.eqb_refl in E. discriminate. }
      destruct IH as [[Hf Hall] | (pre & s & post & -> & Hf & Ho & Hi & Hpre)].
      * left. split; [exact Hf | now constructor].
      * right. exists (state :: pre), s, post.
        split; [reflexivity|]. split; [exact Hf|]. split; [exact Ho|].
        split; [exact Hi | now constructor].
Qed.

Lemma identifiers_map (namespace : string) (states : list value) (names : list string) :
  Forall2 (fun state name =>
             get_member state "identifier" = Fulfilled (block_identifier namespace name)
             /\ is_object state = true) states names ->
  map (fun state => get_member state "identifier") states
  = map (fun name => Fulfilled (block_identifier namespace name)) names.
Proof.
  induction 1 as [|state name states names [Hid _] _ IH]; [reflexivity|].
  cbn [map]. now rewrite Hid, IH.
Qed.

Lemma find_state_other_namespace (namespace identifier : string) (states : list value)
    (names : list string) :
  Forall2 (fun state name =>
             get_member state "identifier" = Fulfilled (block_identifier namespace name)
             /\ is_object state = true) states names ->
  (forall stem, identifier <> namespace +:+ ":" +:+ stem) ->
  find_state identifier states = Fulfilled VUndef.
Proof.
  intros Hall Hother.
  induction Hall as [|state name states names [Hid _] _ IH]; [reflexivity|].
  cbn [find_state]. rewrite Hid. unfold block_identifier. cbn [loose_eq_string].
  destruct (String.eqb _ identifier) eqn:E; [|exact IH].
  apply String.eqb_eq in E. symmetry in E. now apply Hother in E.
Qed.

End BlockStates.

(** X17.  [getBlockStates] returns one state for each entry of the listing
    that ends in [.json], in the order of the listing, and skips the other
    entries; the state of an entry holds, under [identifier], the namespace
    and the base name of the entry without its [.json]. *)
Theorem getBlockStates_identifiers `{Runtime} (ns : option string) (mc mc1 : Minecraft)
    (states : list value) :
  getBlockStates ns mc = (Fulfilled states, mc1) ->
  let namespace := default (defaultNamespace mc) ns in
  let files := first_listing ("assets/" +:+ namespace +:+ "/blockstates") (sources mc) in
  map (fun state => get_member state "identifier") states
  = map (fun name => Fulfilled (VStr (namespace +:+ ":" +:+ drop_last 5 (basename name))))
      (List.filter (ends_with ".json") files).
Proof.
  intros Hrun namespace files. unfold getBlockStates in Hrun. cbv zeta in Hrun.
  fold namespace in Hrun. unfold bind in Hrun. rewrite getFileEntries_spec in Hrun.
  fold files in Hrun.
  exact (identifiers_map _ _ _ (getBlockStates_loop_identifiers _ _ _ _ _ Hrun)).
Qed.

Lemma getBlockStates_identifiers_witness :
  exists states mc1,
    @getBlockStates example_runtime None world = (Fulfilled states, mc1)
    /\ map (fun state => get_member state "identifier") states
       = [Fulfilled (VStr "minecraft:lamp"); Fulfilled (VStr "minecraft:ghost");
          Fulfilled (VStr "minecraft:stone")].
Proof.
  exists (match fst (@getBlockStates example_runtime None world) with
          | Fulfilled l => l
          | Rejected _ => []
          end), (snd (@getBlockStates example_runtime None world)).
  split; [by_computation|].
  etransitivity;
    [apply (@getBlockStates_identifiers example_runtime None world
              (snd (@getBlockStates example_runtime None world))); by_computation
    | by_computation].
Defined.

(** X18.  [getBlockNameList] is fulfilled when [getBlockStates] is, with the
    identifier of every listed entry that ends in [.json], in the order of
    the listing, none left out; and it is rejected when [getBlockStates]
    is. *)
Theorem getBlockNameList_names `{Runtime} (ns : option string) (mc : Minecraft) :
  let namespace := default (defaultNamespace mc) ns in
  let files := first_listing ("assets/" +:+ namespace +:+ "/blockstates") (sources mc) in
  getBlockNameList ns mc
  = match getBlockStates ns mc with
    | (Fulfilled _, mc1) =>
        (Fulfilled
           (map (fun name => VStr (namespace +:+ ":" +:+ drop_last 5 (basename name)))
              (List.filter (ends_with ".json") files)), mc1)
    | (Rejected e, mc1) => (Rejected e, mc1)
    end.
Proof.
  intros namespace files. unfold getBlockNameList, bind.
  destruct (getBlockStates ns mc) as [[states|e] mc1] eqn:Hrun; [|reflexivity].
  unfold getBlockStates in Hrun. cbv zeta in Hrun. fold namespace in Hrun.
  unfold bind in Hrun. rewrite getFileEntries_spec in Hrun. fold files in Hrun.
  pose proof (getBlockStates_loop_identifiers _ _ _ _ _ Hrun) as Hall.
  unfold lift. now rewrite (identifiers_of_states _ _ _ Hall).
Qed.

(** X19.  [getBlockState(identifier)] returns the first of the block states
    of the default namespace that holds the identifier, and [undefined]
    when none does; it is rejected when [getBlockStates] is. *)
Theorem getBlockState_first_match `{Runtime} (identifier : string) (mc mc1 : Minecraft)
    (states : list value) :
  getBlockStates None mc = (Fulfilled states, mc1) ->
  (getBlockState identifier mc = (Fulfilled VUndef, mc1)
   /\ Forall (fun s => get_member s "identifier" <> Fulfilled (VStr identifier)) states)
  \/ exists pre state post,
       states = pre ++ state :: post
       /\ getBlockState identifier mc = (Fulfilled state, mc1)
       /\ truthy state = true
       /\ get_member state "identifier" = Fulfilled (VStr identifier)
       /\ Forall (fun s => get_member s "identifier" <> Fulfilled (VStr identifier)) pre.
Proof.
  intros Hrun. unfold getBlockState, bind, lift. rewrite Hrun.
  unfold getBlockStates in Hrun. cbv zeta in Hrun.
  unfold bind in Hrun. rewrite getFileEntries_spec in Hrun.
  pose proof (getBlockStates_loop_identifiers _ _ _ _ _ Hrun) as Hall.
  destruct (find_state_spec _ identifier _ _ Hall)
    as [[Hf Hnone] | (pre & state & post & Hst & Hf & Ho & Hi & Hpre)].
  - left. now rewrite Hf.
  - right. exists pre, state, post. rewrite Hf. repeat split; try assumption.
    destruct state; try discriminate; reflexivity.
Qed.

Lemma getBlockState_first_match_witness :
  exists state mc1,
    @getBlockState example_runtime "minecraft:ghost" world = (Fulfilled state, mc1)
    /\ get_member state "identifier" = Fulfilled (VStr "minecraft:ghost")
    /\ fst (@getBlockState example_runtime "minecraft:air" world) = Fulfilled VUndef.
Proof.
  destruct (@getBlockState_first_match example_runtime "minecraft:ghost" world
              (snd (@getBlockStates example_runtime None world))
              (match fst (@getBlockStates example_runtime None world) with
               | Fulfilled l => l
               | Rejected _ => []
               end))
    as [[_ Hnone] | (pre & state & post & _ & Hrun & _ & Hid & _)]; [by_computation| |].
  - exfalso. vm_compute in Hnone.
    apply Forall_inv_tail, Forall_inv in Hnone. now apply Hnone.
  - exists state, (snd (@getBlockStates example_runtime None world)).
    split; [exact Hrun|]. split; [exact Hid | by_computation].
Defined.

(** X20.  [getBlockState] looks among the block states of the default
    namespace only: for an identifier that does not begin with that
    namespace and a separator the answer is [undefined], whatever the
    archives hold under other namespaces. *)
Theorem getBlockState_default_namespace_only `{Runtime} (identifier : string)
    (mc mc1 : Minecraft) (states : list value) :
  getBlockStates None mc = (Fulfilled states, mc1) ->
  (forall stem, identifier <> defaultNamespace mc +:+ ":" +:+ stem) ->
  getBlockState identifier mc = (Fulfilled VUndef, mc1).
Proof.
  intros Hrun Hother. unfold getBlockState, bind, lift. rewrite Hrun.
  unfold getBlockStates in Hrun. cbv zeta in Hrun.
  unfold bind in Hrun. rewrite getFileEntries_spec in Hrun.
  pose proof (getBlockStates_loop_identifiers _ _ _ _ _ Hrun) as Hall.
  cbn [default from_option Datatypes.id] in Hall.
  now rewrite (find_state_other_namespace _ _ _ _ Hall Hother).
Qed.

Lemma getBlockState_default_namespace_only_witness :
  fst (@getBlockState example_runtime "create:stone" world) = Fulfilled VUndef.
Proof.
  rewrite (@getBlockState_default_namespace_only example_runtime "create:stone" world
             (snd (@getBlockStates example_runtime None world))
             (match fst (@getBlockStates example_runtime None world) with
              | Fulfilled l => l
              | Rejected _ => []
              end)); [reflexivity | by_computation | intros stem; discriminate].
Defined.

Section BadFiles.
Context `{Runtime}.

Lemma set_member_object (o : value) (k : string) (v : value) :
  is_object o = false -> set_member o k v = Rejected TypeError.
Proof. destruct o; try reflexivity; discriminate. Qed.

(** One entry whose document cannot take a property ends the loop of
    [getBlockStates] with a rejection. *)
Lemma getBlockStates_loop_bad_file (mc0 : Minecraft) (namespace name : string)
    (files : list string) :
  In name files ->
  ends_with ".json" name = true ->
  (forall v, document mc0 name = Fulfilled v -> is_object v = false) ->
  forall mc, coherent mc -> same_archives mc0 mc ->
  exists e mc1,
    getBlockStates_loop namespace files mc = (Rejected e, mc1)
    /\ (e = SyntaxError \/ e = TypeError).
Proof.
  intros Hin Hjson Hbad.
  induction files as [|file files IH]; intros mc Hc Hs; [destruct Hin|].
  cbn [getBlockStates_loop].
  destruct (ends_with ".json" file) eqn:Hf; cbn [negb].
  - unfold bind, lift, ret.
    destruct (getParsedJson_document file mc Hc) as (Hdoc & Hc1 & Hs1).
    destruct (getParsedJson file mc) as [[doc|e] m1]; cbn [fst snd] in Hdoc, Hc1, Hs1.
    + destruct (set_member doc "identifier" _) as [state|e] eqn:Hset.
      * assert (Hin' : In name files).
        { destruct Hin as [->|Hin']; [|exact Hin'].
          rewrite <- (same_archives_document _ _ _ Hs) in Hdoc. symmetry in Hdoc.
          rewrite (set_member_object _ _ _ (Hbad _ Hdoc)) in Hset. discriminate. }
        destruct (IH Hin' m1 Hc1 (same_archives_trans _ _ _ Hs Hs1))
          as (e & m2 & -> & He).
        eauto.
      * exists e, m1. split; [reflexivity|].
        destruct doc; cbn [set_member] in Hset; try discriminate;
          injection Hset as <-; now right.
    + exists e, m1. split; [reflexivity|].
      unfold document in Hdoc. destruct (first_data file (sources mc)); [|discriminate].
      destruct (JSON_parse s) as [v|]; [|left; congruence].
      destruct (truthy v) eqn:Ht; [|discriminate]. destruct v; discriminate.
  - destruct Hin as [->|Hin']; [congruence|]. now apply IH.
Qed.

End BadFiles.

(** X21.  One bad block-state file fails the listing as a whole.  When an
    entry that ends in [.json] among those listed holds a document that
    cannot take a property (invalid JSON, [null], a number, a string, a
    boolean), [getBlockStates] is rejected, with a [SyntaxError] or a
    [TypeError], and so are [getBlockList] and [getBlockNameList], whatever
    the other entries hold. *)
Theorem getBlockStates_one_bad_file `{Runtime} (ns : option string) (mc : Minecraft)
    (name : string) :
  let namespace := default (defaultNamespace mc) ns in
  coherent mc ->
  In name (first_listing ("assets/" +:+ namespace +:+ "/blockstates") (sources mc)) ->
  ends_with ".json" name = true ->
  (forall v, document mc name = Fulfilled v -> is_object v = false) ->
  exists e mc1,
    (e = SyntaxError \/ e = TypeError)
    /\ getBlockStates ns mc = (Rejected e, mc1)
    /\ getBlockNameList ns mc = (Rejected e, mc1)
    /\ forall fuel, getBlockList fuel ns mc = Some (Rejected e, mc1).
Proof.
  intros namespace Hc Hin Hjson Hbad.
  assert (Hrun : exists e mc1,
            getBlockStates ns mc = (Rejected e, mc1) /\ (e = SyntaxError \/ e = TypeError)).
  { unfold getBlockStates. cbv zeta. fold namespace. unfold bind.
    rewrite getFileEntries_spec.
    apply (getBlockStates_loop_bad_file mc namespace name _ Hin Hjson Hbad).
    - intros path v Hl Hv. exact (Hc path v Hl Hv).
    - apply same_archives_logs. }
  destruct Hrun as (e & mc1 & Hrun & He). exists e, mc1.
  split; [exact He|]. split; [exact Hrun|]. split.
  - unfold getBlockNameList, bind. now rewrite Hrun.
  - intros fuel. unfold getBlockList, bindF, liftF. now rewrite Hrun.
Qed.

Lemma getBlockStates_one_bad_file_witness :
  exists mc1,
    @getBlockStates example_runtime None spoiled = (Rejected TypeError, mc1)
    /\ @getBlockList example_runtime 2 None spoiled = Some (Rejected TypeError, mc1).
Proof.
  destruct (@getBlockStates_one_bad_file example_runtime None spoiled
              "assets/minecraft/blockstates/void.json")
    as (e & mc1 & _ & Hstates & _ & Hlist).
  - apply (@coherent_open example_runtime).
  - vm_compute. auto.
  - reflexivity.
  - intros v Hv. vm_compute in Hv. injection Hv as <-. reflexivity.
  - exists mc1. specialize (Hlist 2%nat).
    assert (He : e = TypeError).
    { assert (Hf : fst (@getBlockStates example_runtime None spoiled) = Rejected e)
        by now rewrite Hstates.
      vm_compute in Hf. now injection Hf as <-. }
    subst e. split; assumption.
Defined.

(** X22.  When no archive lists an entry under the block states of the
    namespace, or every listing fails, [getBlockStates], [getBlockNameList]
    and [getBlockList] are fulfilled with the empty list: a namespace that
    is not there is no error. *)
Theorem getBlockList_nothing_listed `{Runtime} (ns : option string) (mc : Minecraft) :
  let namespace := default (defaultNamespace mc) ns in
  Forall (fun s => listed ("assets/" +:+ namespace +:+ "/blockstates") (snd s) = [])
    (sources mc) ->
  fst (getBlockStates ns mc) = Fulfilled []
  /\ fst (getBlockNameList ns mc) = Fulfilled []
  /\ forall fuel, fst <$> getBlockList fuel ns mc = Some (Fulfilled []).
Proof.
  intros namespace Hall. apply first_listing_nil in Hall.
  assert (Hrun : exists mc1, getBlockStates ns mc = (Fulfilled [], mc1)).
  { unfold getBlockStates. cbv zeta. fold namespace. unfold bind.
    rewrite getFileEntries_spec, Hall. cbn [getBlockStates_loop]. unfold ret. eauto. }
  destruct Hrun as [mc1 Hrun]. split; [now rewrite Hrun|]. split.
  - unfold getBlockNameList, bind. now rewrite Hrun.
  - intros fuel. unfold getBlockList, bindF, liftF. now rewrite Hrun.
Qed.

Lemma getBlockList_nothing_listed_witness :
  fst <$> @getBlockList example_runtime 0 (Some "create") world = Some (Fulfilled []).
Proof.
  apply (@getBlockList_nothing_listed example_runtime (Some "create") world).
  repeat constructor.
Defined.

Lemma settles_all `{Runtime} (fuel : nat) (mc : Minecraft) (states : list value) :
  forallb (settles fuel mc) states = true ->
  forall s, In s states -> is_Some (getModelFromBlockState fuel s mc).
Proof.
  intros Hall s Hin. rewrite forallb_forall in Hall. specialize (Hall s Hin).
  unfold settles in Hall. destruct (getModelFromBlockState fuel s mc); [eauto | discriminate].
Qed.

(** X23.  A model that [getModelOfIdentifier] returns is one of the models
    of [getBlockList()]: when every resolution of the batch comes to an
    end, the list holds it. *)
Theorem getModelOfIdentifier_in_getBlockList `{Runtime} (fuel : nat) (identifier : string)
    (mc mc1 mc' : Minecraft) (states : list value) (v : value) :
  coherent mc ->
  getBlockStates None mc = (Fulfilled states, mc1) ->
  (forall s, In s states -> is_Some (getModelFromBlockState fuel s mc1)) ->
  getModelOfIdentifier fuel identifier mc = Some (Fulfilled v, mc') ->
  truthy v = true ->
  exists models mc'',
    getBlockList fuel None mc = Some (Fulfilled models, mc'') /\ In v models.
Proof.
  intros Hc Hstates Hterm Hrun Hv.
  unfold getModelOfIdentifier, bindF, liftF, getBlockState, bind, lift in Hrun.
  destruct (transparentM_getBlockStates None mc mc (agree_refl _ Hc)) as (_ & Ha & _).
  rewrite Hstates in Hrun, Ha. cbn [snd] in Ha. destruct Ha as (_ & Hc1 & _).
  destruct (find_state identifier states) as [state|e] eqn:Hfind; [|discriminate].
  destruct (truthy state) eqn:Hstate;
    [|unfold ret in Hrun; injection Hrun as <- _; discriminate].
  assert (Hin : In state states).
  { clear - Hfind Hstate. induction states as [|s states IH]; cbn [find_state] in Hfind.
    - injection Hfind as <-. discriminate.
    - destruct (get_member s "identifier") as [i|e]; [|discriminate].
      destruct (loose_eq_string i identifier).
      + injection Hfind as <-. now left.
      + right. now apply IH. }
  destruct (allSettled_models_alone fuel mc1 states Hterm mc1 (agree_refl _ Hc1))
    as (promises & mc2 & Hbatch & Hvals).
  exists (flat_map (contribution fuel mc1) states), mc2. split.
  - unfold getBlockList, bindF, liftF. rewrite Hstates, Hbatch, Hvals. reflexivity.
  - apply in_flat_map. exists state. split; [exact Hin|].
    unfold contribution. rewrite Hrun, Hv. now left.
Qed.

Lemma getModelOfIdentifier_in_getBlockList_witness :
  exists v mc' mc'',
    @getModelOfIdentifier example_runtime 2 "minecraft:stone" world
    = Some (Fulfilled v, mc')
    /\ @getBlockList example_runtime 2 None world = Some (Fulfilled [v], mc'').
Proof.
  destruct (@getModelOfIdentifier_in_getBlockList example_runtime 2 "minecraft:stone" world
              (snd (@getBlockStates example_runtime None world))
              (snd (default (Rejected TypeError, world)
                      (@getModelOfIdentifier example_runtime 2 "minecraft:stone" world)))
              (match fst (@getBlockStates example_runtime None world) with
               | Fulfilled l => l
               | Rejected _ => []
               end)
              (match fst (default (Rejected TypeError, world)
                            (@getModelOfIdentifier example_runtime 2 "minecraft:stone"
                               world)) with
               | Fulfilled v => v
               | Rejected _ => VUndef
               end))
    as (models & mc'' & Hlist & _).
  - apply (@coherent_open example_runtime).
  - by_computation.
  - apply settles_all. by_computation.
  - by_computation.
  - by_computation.
  - eexists _, _, mc''. split; [by_computation|]. rewrite Hlist.
    assert (Hm : fst <$> @getBlockList example_runtime 2 None world
                 = Some (Fulfilled models)) by now rewrite Hlist.
    vm_compute in Hm. injection Hm as <-. reflexivity.
Defined.

(** ** The model of a block state *)

(** X24.  When no archive has the model file that the chosen variant
    names, [getModelFromBlockState] is not rejected: it warns, with the
    name of the model, and returns [undefined], whatever the depth of
    recursion allowed. *)
Theorem getModelFromBlockState_missing_model `{Runtime} (fuel : nat)
    (block_state variant : value) (name : string) (mc : Minecraft) :
  let i := Minecraft_id name in
  let path := "assets/" +:+ namespace i +:+ "/models/"
              +:+ (if includes slash (id i) then id i else "block/" +:+ id i)
              +:+ ".json" in
  coherent mc ->
  default_variant block_state = Fulfilled variant ->
  get_member variant "model" = Fulfilled (VStr name) ->
  Forall (fun s => has_data path (snd s) = false) (sources mc) ->
  getModelFromBlockState fuel block_state mc
  = Some (Fulfilled VUndef, log (EWarn (VStr name)) (snd (getModelFile (VStr name) mc))).
Proof.
  intros i path Hc Hv Hm Hall.
  assert (Hfile : fst (getModelFile (VStr name) mc) = Fulfilled VUndef).
  { unfold getModelFile, bind, lift, model_path. fold i. fold path.
    destruct (getParsedJson_document path mc Hc) as (Hd & _).
    rewrite Hd. unfold document. apply first_data_none in Hall. now rewrite Hall. }
  unfold getModelFromBlockState, bindF, liftF, lift. rewrite Hv, Hm.
  destruct (getModelFile (VStr name) mc) as [o mc1]. cbn [fst snd] in *. subst o.
  reflexivity.
Qed.

Lemma getModelFromBlockState_missing_model_witness :
  exists mc1,
    @getModelFromBlockState example_runtime 0
      (VObj [("variants", VObj [("", VObj [("model", VStr "minecraft:block/ghost")])])])
      world
    = Some (Fulfilled VUndef, mc1)
    /\ io_log mc1 = [ERead Primary "assets/minecraft/models/block/ghost.json";
                     EWarn (VStr "minecraft:block/ghost")].
Proof.
  eexists. split.
  - apply (@getModelFromBlockState_missing_model example_runtime 0
             (VObj [("variants", VObj [("", VObj [("model", VStr "minecraft:block/ghost")])])])
             (VObj [("model", VStr "minecraft:block/ghost")]) "minecraft:block/ghost" world).
    + apply (@coherent_open example_runtime).
    + reflexivity.
    + reflexivity.
    + repeat constructor.
  - by_computation.
Defined.

(** X25.  A block state without usable [variants] is rejected with a
    [TypeError] before any archive is read: so it is when [variants] is
    missing or falsy, as in a block state made of [multipart] only, and
    when [variants] is an object without keys. *)
Theorem getModelFromBlockState_without_variants `{Runtime} (fuel : nat) (o : props)
    (mc : Minecraft) :
  truthy (lookup_prop "variants" o) = false \/ lookup_prop "variants" o = VObj [] ->
  getModelFromBlockState fuel (VObj o) mc = Some (Rejected TypeError, mc).
Proof.
  intros Hv. unfold getModelFromBlockState, bindF, liftF, lift, default_variant.
  cbn [get_member]. destruct Hv as [Hv | ->]; [|reflexivity].
  destruct (lookup_prop "variants" o) as [| |b|n|s|elems named|vs]; try discriminate;
    try reflexivity.
  cbn [truthy] in Hv. apply negb_false_iff, String.eqb_eq in Hv. now subst s.
Qed.

Lemma getModelFromBlockState_without_variants_witness :
  @getModelFromBlockState example_runtime 2
    (VObj [("multipart", VArr [] []); ("identifier", VStr "minecraft:fence")]) world
  = Some (Rejected TypeError, world).
Proof.
  apply (@getModelFromBlockState_without_variants example_runtime). now left.
Defined.

Section SameModel.
Context `{Runtime}.

Lemma lookup_remove_ne (k k' : string) (o : props) :
  k <> k' -> lookup_prop k (remove_prop k' o) = lookup_prop k o.
Proof.
  intros Hne. induction o as [|[k2 v2] o IH]; [reflexivity|]. cbn [remove_prop lookup_prop].
  destruct (String.eqb k' k2) eqn:E.
  - apply String.eqb_eq in E. subst k2.
    destruct (String.eqb k k') eqn:E'; [apply String.eqb_eq in E'; contradiction | exact IH].
  - cbn [lookup_prop]. now rewrite IH.
Qed.

Lemma has_own_remove_ne (k k' : string) (o : props) :
  k <> k' -> has_own k (remove_prop k' o) = has_own k o.
Proof.
  intros Hne. induction o as [|[k2 v2] o IH]; [reflexivity|]. cbn [remove_prop has_own].
  destruct (String.eqb k' k2) eqn:E.
  - apply String.eqb_eq in E. subst k2.
    destruct (String.eqb k k') eqn:E'; [apply String.eqb_eq in E'; contradiction | exact IH].
  - cbn [has_own]. now rewrite IH.
Qed.

Lemma NoDup_remove_prop (k : string) (o : props) :
  List.NoDup (map fst o) -> List.NoDup (map fst (remove_prop k o)).
Proof.
  induction o as [|[k2 v2] o IH]; [auto|]. cbn [map fst remove_prop]. intros Hn.
  inversion Hn as [|x l Hnotin Hn']; subst.
  destruct (String.eqb k k2) eqn:E; [now apply IH|].
  cbn [map fst]. constructor; [|now apply IH].
  intros Hin. apply Hnotin. apply has_own_In. apply has_own_In in Hin.
  destruct (String.eqb_spec k2 k) as [->|Hne].
  - now rewrite String.eqb_refl in E.
  - now rewrite has_own_remove_ne in Hin.
Qed.

(** Two sets of own fields that differ at one key only are merged alike
    over the same inherited fields, but for that key. *)
Lemma inherit_agree (skip : string) (inh own1 own2 : props) (parent : value) :
  skip <> "parents" ->
  List.NoDup (map fst own1) -> List.NoDup (map fst own2) ->
  (forall k, k <> skip ->
     lookup_prop k own1 = lookup_prop k own2 /\ has_own k own1 = has_own k own2) ->
  match inherit (VObj inh) (VObj own1) parent, inherit (VObj inh) (VObj own2) parent with
  | Fulfilled m1, Fulfilled m2 =>
      forall k, k <> skip -> lookup_prop k m1 = lookup_prop k m2
  | Rejected e1, Rejected e2 => e1 = e2
  | _, _ => False
  end.
Proof.
  intros Hskip Hn1 Hn2 Hsame. unfold inherit, deepAssign. cbn [fold_left].
  set (merged1 := assign_props (assign_props [] inh) own1).
  set (merged2 := assign_props (assign_props [] inh) own2).
  assert (Hm : forall k, k <> skip -> lookup_prop k merged1 = lookup_prop k merged2).
  { intros k Hk. unfold merged1, merged2.
    rewrite (lookup_assign_props _ _ _ Hn1), (lookup_assign_props _ _ _ Hn2).
    destruct (Hsame k Hk) as [-> ->]. reflexivity. }
  assert (Hp : lookup_prop "parents" merged1 = lookup_prop "parents" merged2)
    by (apply Hm; congruence).
  rewrite Hp.
  destruct (truthy (lookup_prop "parents" merged2)) eqn:Ht; cbn [negb].
  - rewrite Hp. destruct (push (lookup_prop "parents" merged2) parent) as [ps|e];
      [|reflexivity].
    intros k Hk. destruct (String.eqb_spec k "parents") as [->|Hne].
    + now rewrite !lookup_dict_set_eq.
    + rewrite !lookup_dict_set_ne by assumption. now apply Hm.
  - rewrite !lookup_dict_set_eq. cbn [push].
    intros k Hk. destruct (String.eqb_spec k "parents") as [->|Hne].
    + now rewrite !lookup_dict_set_eq.
    + rewrite !lookup_dict_set_ne by assumption. now apply Hm.
Qed.

End SameModel.

(** The two resolutions of a model file that is an object, side by side. *)
Lemma getModelFromBlockState_beside_getModel `{Runtime} (fuel : nat)
    (block_state variant name : value) (p : props) (mc mc1 : Minecraft) :
  default_variant block_state = Fulfilled variant ->
  get_member variant "model" = Fulfilled name ->
  getModelFile name mc = (Fulfilled (VObj p), mc1) ->
  List.NoDup (map fst p) ->
  match getModel (S fuel) name mc, getModelFromBlockState fuel block_state mc with
  | None, None => True
  | Some (Rejected e, m), Some (Rejected e', m') => e = e' /\ m = m'
  | Some (Fulfilled model, m), Some (Fulfilled v, m') =>
      m = m'
      /\ exists model',
           v = VObj model'
           /\ (forall k, k <> "parent" -> lookup_prop k model' = lookup_prop k model)
           /\ lookup_prop "parent" model' = VUndef
  | _, _ => False
  end.
Proof.
  intros Hv Hm Hfile Hnd.
  assert (Hname : is_mapping name = false).
  { unfold getModelFile, bind, lift in Hfile.
    destruct (model_path name) as [path|e] eqn:Hp; [|discriminate].
    exact (model_path_not_mapping _ _ Hp). }
  rewrite getModel_S, Hfile.
  unfold getModelFromBlockState, bindF, liftF, lift, ret. rewrite Hv, Hm, Hfile.
  cbn [truthy negb get_member set_member take_parent own_props].
  cbv zeta.
  rewrite (lookup_remove_ne "display" "parent") by discriminate.
  rewrite (lookup_dict_set_ne "display" "parent") by discriminate.
  set (parent := fallback_parent (lookup_prop "parent" p) (lookup_prop "display" p)).
  set (own1 := remove_prop "parent" p). set (own2 := dict_set "parent" VUndef p).
  assert (Hsame : forall k, k <> "parent" ->
            lookup_prop k own1 = lookup_prop k own2 /\ has_own k own1 = has_own k own2).
  { intros k Hk. unfold own1, own2.
    rewrite (lookup_remove_ne _ _ _ Hk), (lookup_dict_set_ne _ _ _ _ Hk).
    rewrite (has_own_remove_ne _ _ _ Hk), has_own_dict_set.
    destruct (String.eqb_spec k "parent"); [contradiction | auto]. }
  assert (Hn1 : List.NoDup (map fst own1)) by now apply NoDup_remove_prop.
  assert (Hn2 : List.NoDup (map fst own2)) by now apply NoDup_dict_set.
  destruct (truthy parent).
  - destruct (getModel fuel parent mc1) as [[[inh|e] mc2]|]; [|auto|exact I].
    pose proof (inherit_agree "parent" inh own1 own2 parent ltac:(discriminate)
                  Hn1 Hn2 Hsame) as Hag.
    destruct (inherit (VObj inh) (VObj own1) parent) as [m1|e1] eqn:H1,
             (inherit (VObj inh) (VObj own2) parent) as [m2|e2] eqn:H2;
      try contradiction; [|auto].
    cbn [deepAssign_onto]. split; [reflexivity|].
    exists (deepAssign m2 [VObj [("blockName", name)]]). split; [reflexivity|].
    rewrite !(stamp_spec _ _ Hname). split.
    + intros k Hk. destruct (String.eqb_spec k "blockName") as [->|Hne].
      * now rewrite !lookup_dict_set_eq.
      * rewrite !lookup_dict_set_ne by assumption. symmetry. now apply Hag.
    + rewrite lookup_dict_set_ne by discriminate.
      destruct (inherit_fulfilled _ _ _ _ H2) as (Hk2 & _).
      rewrite (Hk2 "parent") by discriminate.
      rewrite (lookup_assign_props _ _ _ Hn2). unfold own2.
      rewrite has_own_dict_set, String.eqb_refl. cbn [orb].
      now rewrite lookup_dict_set_eq.
  - cbn [deepAssign_onto]. split; [reflexivity|].
    exists (deepAssign own2 [VObj [("blockName", name)]]). split; [reflexivity|].
    rewrite !(stamp_spec _ _ Hname). split.
    + intros k Hk. destruct (String.eqb_spec k "blockName") as [->|Hne].
      * now rewrite !lookup_dict_set_eq.
      * rewrite !lookup_dict_set_ne by assumption. symmetry. now apply Hsame.
    + rewrite lookup_dict_set_ne by discriminate. apply lookup_dict_set_eq.
Qed.

(** X26.  [getModelFromBlockState] resolves the model of the chosen variant
    as [getModel] does.  For a model file that is an object, it returns
    when [getModel] of that model returns, is rejected with the same error
    when [getModel] is, and leaves the same instance; the descriptor it
    returns holds the same value under every key but [parent], which it
    holds with the value [undefined] where [getModel] leaves it out of the
    own fields. *)
Theorem getModelFromBlockState_as_getModel `{Runtime} (fuel : nat)
    (block_state variant name : value) (p : props) (mc mc1 : Minecraft) :
  default_variant block_state = Fulfilled variant ->
  get_member variant "model" = Fulfilled name ->
  getModelFile name mc = (Fulfilled (VObj p), mc1) ->
  List.NoDup (map fst p) ->
  (forall model m,
     getModel (S fuel) name mc = Some (Fulfilled model, m) ->
     exists model',
       getModelFromBlockState fuel block_state mc = Some (Fulfilled (VObj model'), m)
       /\ (forall k, k <> "parent" -> lookup_prop k model' = lookup_prop k model)
       /\ lookup_prop "parent" model' = VUndef)
  /\ (forall e m,
        getModel (S fuel) name mc = Some (Rejected e, m) ->
        getModelFromBlockState fuel block_state mc = Some (Rejected e, m))
  /\ (getModel (S fuel) name mc = None ->
      getModelFromBlockState fuel block_state mc = None).
Proof.
  intros Hv Hm Hfile Hnd.
  pose proof (getModelFromBlockState_beside_getModel fuel block_state variant name p mc mc1
                Hv Hm Hfile Hnd) as Hag.
  destruct (getModel (S fuel) name mc) as [[[model|e] m]|],
           (getModelFromBlockState fuel block_state mc) as [[[v|e'] m']|];
    try contradiction.
  - destruct Hag as (<- & model' & -> & Hk & Hp).
    split; [|split; intros; discriminate].
    intros model0 m0 Heq. injection Heq as <- <-. eauto.
  - destruct Hag as [<- <-].
    split; [intros; discriminate|]. split; [|intros; discriminate].
    intros e0 m0 Heq. now injection Heq as <- <-.
  - split; [intros; discriminate|]. split; [intros; discriminate | reflexivity].
Qed.

Lemma getModelFromBlockState_as_getModel_witness :
  exists model',
    fst <$> @getModelFromBlockState example_runtime 1
              (VObj [("variants",
                      VObj [("", VObj [("model", VStr "minecraft:block/stone")])])]) world
    = Some (Fulfilled (VObj model'))
    /\ lookup_prop "parents" model' = VArr [VStr "minecraft:block/block"] []
    /\ lookup_prop "blockName" model' = VStr "minecraft:block/stone".
Proof.
  destruct (@getModelFromBlockState_as_getModel example_runtime 1
              (VObj [("variants",
                      VObj [("", VObj [("model", VStr "minecraft:block/stone")])])])
              (VObj [("model", VStr "minecraft:block/stone")])
              (VStr "minecraft:block/stone")
              [("textures", VObj [("all", VStr "block/stone")])] world
              (snd (@getModelFile example_runtime (VStr "minecraft:block/stone") world)))
    as (Hsame & _); [reflexivity | reflexivity | by_computation | distinct_keys |].
  destruct (Hsame
              (match fst (default (Rejected TypeError, world)
                            (@getModel example_runtime 2 (VStr "minecraft:block/stone")
                               world)) with
               | Fulfilled model => model
               | Rejected _ => []
               end)
              (snd (default (Rejected TypeError, world)
                      (@getModel example_runtime 2 (VStr "minecraft:block/stone") world))))
    as (model' & Hrun & Hk & _); [by_computation|].
  exists model'. split; [now rewrite Hrun|].
  rewrite !Hk by discriminate. split; by_computation.
Defined.

(** ** The older revision: names and batches *)

Lemma append_cons (c : ascii) (a b : string) : String c a +:+ b = String c (a +:+ b).
Proof. reflexivity. Qed.

Lemma append_assoc (a b c : string) : (a +:+ b) +:+ c = a +:+ (b +:+ c).
Proof.
  induction a as [|x a IH]; [reflexivity|]. rewrite !append_cons. now rewrite IH.
Qed.

Lemma length_append (a b : string) :
  String.length (a +:+ b) = (String.length a + String.length b)%nat.
Proof.
  induction a as [|c a IH]; [reflexivity|]. rewrite append_cons.
  cbn [String.length Nat.add]. now rewrite IH.
Qed.

Lemma substring_whole_prefix (a b : string) :
  substring 0 (String.length a) (a +:+ b) = a.
Proof.
  induction a as [|c a IH]; [now destruct b|]. rewrite append_cons.
  cbn [String.length substring]. now rewrite IH.
Qed.

Lemma substring_skip (a b : string) (n m : nat) :
  substring (String.length a + n) m (a +:+ b) = substring n m b.
Proof.
  induction a as [|c a IH]; [reflexivity|]. rewrite append_cons.
  cbn [String.length substring Nat.add]. exact IH.
Qed.

Lemma substring_whole (s : string) : substring 0 (String.length s) s = s.
Proof. induction s as [|c s IH]; [reflexivity|]. cbn [String.length substring]. now rewrite IH. Qed.

Lemma ends_with_append (s suffix : string) : ends_with suffix (s +:+ suffix) = true.
Proof.
  unfold ends_with. rewrite length_append.
  replace (String.length s + String.length suffix - String.length suffix)%nat
    with (String.length s + 0)%nat by lia.
  rewrite substring_skip.
  rewrite substring_whole, String.eqb_refl, andb_true_r. apply Nat.leb_le. lia.
Qed.

Lemma slice_between_stem (prefix stem : string) :
  Legacy.slice_between (String.length prefix) 5 (prefix +:+ stem +:+ ".json") = stem.
Proof.
  unfold Legacy.slice_between. rewrite !length_append.
  replace (String.length prefix + (String.length stem + String.length ".json") - 5
           - String.length prefix)%nat with (String.length stem) by (cbn; lia).
  rewrite <- (Nat.add_0_r (String.length prefix)) at 1.
  rewrite substring_skip. apply substring_whole_prefix.
Qed.

(** X27.  In [src/minecraft.ts] the name that [getBlockNameList] makes of
    a listed entry [assets/ns/models/block/stem.json] is [ns:stem].  For an
    entry that lies in [models/block] itself, [getModelFile] of that name
    asks for the entry; for an entry in a directory below, whose stem holds
    a separator, it asks for another path, outside [models/block]. *)
Theorem legacy_names_lead_back (ns stem : string) (mc : Minecraft) (names : list string) :
  includes colon ns = false ->
  includes colon stem = false ->
  let dir := "assets/" +:+ ns +:+ "/models/block" in
  let entry := "assets/" +:+ ns +:+ "/models/block/" +:+ stem +:+ ".json" in
  entries (jar mc) dir = Some names ->
  In entry names ->
  (exists blocks,
     fst (Legacy.getBlockNameList (Some ns) mc) = Fulfilled blocks
     /\ In (ns +:+ ":" +:+ stem) blocks)
  /\ (includes slash stem = false ->
      model_path (VStr (ns +:+ ":" +:+ stem)) = Fulfilled entry)
  /\ (includes slash stem = true ->
      model_path (VStr (ns +:+ ":" +:+ stem))
      = Fulfilled ("assets/" +:+ ns +:+ "/models/" +:+ stem +:+ ".json")
      /\ "assets/" +:+ ns +:+ "/models/" +:+ stem +:+ ".json" <> entry).
Proof.
  intros Hns Hstem dir entry Hlist Hin.
  assert (Hid : Minecraft_id (ns +:+ ":" +:+ stem) = {| namespace := ns; id := stem |}).
  { rewrite (Minecraft_id_prefixed _ _ Hns). now rewrite (split_no_separator _ _ Hstem). }
  pose proof append_assoc as Hassoc.
  split; [|split].
  - unfold Legacy.getBlockNameList, bind, jar_entries, ret.
    cbn [default from_option Datatypes.id]. fold dir. rewrite Hlist. cbn [fst].
    eexists. split; [reflexivity|].
    assert (He : entry = ("assets/" +:+ ns +:+ "/models/block/") +:+ stem +:+ ".json")
      by (unfold entry; now rewrite !Hassoc).
    assert (Hjson : ends_with ".json" entry = true).
    { rewrite He, <- Hassoc. apply ends_with_append. }
    apply in_map_iff. exists entry. split.
    + rewrite He at 1. now rewrite slice_between_stem.
    + apply filter_In. split; assumption.
  - intros Hs. unfold model_path. rewrite Hid. cbn [namespace id]. rewrite Hs.
    unfold entry. cbn. now rewrite !Hassoc.
  - intros Hs. unfold model_path. rewrite Hid. cbn [namespace id]. rewrite Hs.
    split; [reflexivity|]. unfold entry. intros Heq.
    apply (f_equal String.length) in Heq. rewrite !length_append in Heq. cbn in Heq. lia.
Qed.

Lemma legacy_names_lead_back_witness :
  fst (Legacy.getBlockNameList None nested) = Fulfilled ["minecraft:c"; "minecraft:sub/d"]
  /\ model_path (VStr "minecraft:c") = Fulfilled "assets/minecraft/models/block/c.json"
  /\ model_path (VStr "minecraft:sub/d") = Fulfilled "assets/minecraft/models/sub/d.json"
  /\ "assets/minecraft/models/sub/d.json" <> "assets/minecraft/models/block/sub/d.json".
Proof.
  split; [reflexivity|].
  destruct (legacy_names_lead_back "minecraft" "c" nested
              ["assets/minecraft/models/block/c.json";
               "assets/minecraft/models/block/sub/d.json"])
    as (_ & Hflat & _); [reflexivity | reflexivity | reflexivity | now left |].
  destruct (legacy_names_lead_back "minecraft" "sub/d" nested
              ["assets/minecraft/models/block/c.json";
               "assets/minecraft/models/block/sub/d.json"])
    as (_ & _ & Hdeep); [reflexivity | reflexivity | reflexivity | right; now left |].
  split; [exact (Hflat eq_refl)|]. exact (Hdeep eq_refl).
Defined.

(** X28.  In [src/minecraft.ts] the block names come from the primary jar
    alone, and a listing that fails is not caught: [getBlockNameList] and
    [getBlockList] are then rejected with the error of the archive, and the
    jars registered with [registerModId] are never asked. *)
Theorem legacy_listing_primary_only `{Runtime} (ns : option string) (mc : Minecraft) :
  let namespace := default (defaultNamespace mc) ns in
  let dir := "assets/" +:+ namespace +:+ "/models/block" in
  (entries (jar mc) dir = None ->
   Legacy.getBlockNameList ns mc = (Rejected ArchiveError, log (EEntries Primary dir) mc)
   /\ forall fuel,
        Legacy.getBlockList fuel ns mc
        = Some (Rejected ArchiveError, log (EEntries Primary dir) mc))
  /\ (forall table,
        fst (Legacy.getBlockNameList ns (with_modid_jars table mc))
        = fst (Legacy.getBlockNameList ns mc)).
Proof.
  intros namespace dir. split.
  - intros Hfail.
    assert (Hrun : Legacy.getBlockNameList ns mc
                   = (Rejected ArchiveError, log (EEntries Primary dir) mc)).
    { unfold Legacy.getBlockNameList, bind, jar_entries. fold namespace. fold dir.
      now rewrite Hfail. }
    split; [exact Hrun|]. intros fuel.
    unfold Legacy.getBlockList, bindF, liftF. now rewrite Hrun.
  - intros table. unfold Legacy.getBlockNameList, bind, jar_entries, ret.
    cbn [with_modid_jars jar defaultNamespace].
    destruct (entries (jar mc) _); reflexivity.
Qed.

Lemma legacy_listing_primary_only_witness :
  fst <$> @Legacy.getBlockList example_runtime 2 None unreadable
  = Some (Rejected ArchiveError)
  /\ fst <$> @getBlockList example_runtime 2 None unreadable = Some (Fulfilled []).
Proof.
  destruct (@legacy_listing_primary_only example_runtime None unreadable) as [Hfail _].
  destruct (Hfail eq_refl) as [_ Hlist]. rewrite (Hlist 2%nat). split; reflexivity.
Defined.

Section LegacyBatch.
Context `{Runtime}.

Lemma transparent_legacy_getModel (fuel : nat) :
  forall name, transparent (Legacy.getModel fuel name).
Proof.
  induction fuel as [|fuel IH]; intros name; cbn [Legacy.getModel].
  - intros mc mc' _. exact I.
  - apply transparent_bindF; [apply transparent_liftF, transparentM_getModelFile|].
    intros file. apply transparent_bindF; [apply transparent_liftF, transparentM_lift|].
    intros [parent model].
    apply transparent_bindF.
    + destruct (truthy _).
      * apply transparent_bindF; [apply IH|]. intros inh.
        apply transparent_liftF, transparentM_lift.
      * apply transparent_liftF, (transparentM_lift (Fulfilled model)).
    + intros m. apply transparent_liftF, (transparentM_lift (Fulfilled _)).
Qed.

Lemma legacy_getModel_stamps (n : nat) (name : value) (mc mc' : Minecraft) (model : props) :
  Legacy.getModel n name mc = Some (Fulfilled model, mc') ->
  lookup_prop "blockName" model = name.
Proof.
  destruct n as [|n]; [discriminate|]. cbn [Legacy.getModel].
  unfold bindF, liftF, lift, ret.
  destruct (getModelFile name mc) as [[file|e] mc1] eqn:Hfile; [|discriminate].
  assert (Hname : is_mapping name = false).
  { unfold getModelFile, bind, lift in Hfile.
    destruct (model_path name) as [path|e] eqn:Hp; [|discriminate].
    exact (model_path_not_mapping _ _ Hp). }
  destruct (take_parent file) as [[parent own]|e]; [|discriminate].
  destruct (truthy parent).
  - destruct (Legacy.getModel n parent mc1) as [[[inh|e] mc2]|]; try discriminate.
    destruct (inherit _ _ _) as [m|e]; [|discriminate].
    rewrite (stamp_spec _ _ Hname).
    intros Hrun. injection Hrun as <- _. apply lookup_dict_set_eq.
  - rewrite (stamp_spec _ _ Hname).
    intros Hrun. injection Hrun as <- _. apply lookup_dict_set_eq.
Qed.

(** A batch of [Promise.all] that is fulfilled holds, for every name, what
    the resolution of that name on its own gives. *)
Lemma Promise_all_models (fuel : nat) (mc0 : Minecraft) (names : list string) :
  forall mc models mc',
    agree mc0 mc ->
    Legacy.Promise_all (map (fun block => Legacy.getModel fuel (VStr block)) names) mc
    = Some (Fulfilled models, mc') ->
    Forall2 (fun name model =>
               fst <$> Legacy.getModel fuel (VStr name) mc0 = Some (Fulfilled model)
               /\ lookup_prop "blockName" model = VStr name) names models.
Proof.
  induction names as [|name names IH]; intros mc models mc' Ha; cbn [map Legacy.Promise_all].
  - intros Hrun. injection Hrun as <- _. constructor.
  - pose proof (transparent_legacy_getModel fuel (VStr name) mc0 mc Ha) as Ht.
    destruct (Legacy.getModel fuel (VStr name) mc) as [[o m]|] eqn:Hone; [|discriminate].
    destruct (Legacy.getModel fuel (VStr name) mc0) as [[o0 m0]|] eqn:Hone0;
      [|contradiction].
    destruct Ht as (<- & Ha1 & Hs1).
    assert (Ha' : agree mc0 m).
    { destruct Ha as (Hs & Hc0 & Hc), Ha1 as (_ & _ & Hcm).
      split; [|split; assumption].
      eapply same_archives_trans; [exact Hs|].
      pose proof (transparent_legacy_getModel fuel (VStr name) mc mc (agree_refl _ Hc))
        as Hself.
      rewrite Hone in Hself. apply Hself. }
    destruct (Legacy.Promise_all _ m) as [[os m2]|] eqn:Hrest; [|discriminate].
    destruct o0 as [model|e]; [|discriminate].
    destruct os as [l|e]; [|discriminate].
    intros Hrun. injection Hrun as <- _. constructor.
    + split; [now rewrite Hone0|]. exact (legacy_getModel_stamps _ _ _ _ _ Hone0).
    + exact (IH m l m2 Ha' Hrest).
Qed.

End LegacyBatch.

(** X29.  In [src/minecraft.ts] the batch is all or nothing.  When
    [getBlockList] is fulfilled, its list holds one descriptor for every
    block name, in the order of the names: the one that [getModel] gives for
    that name, with the name under [blockName].  So a single name whose
    resolution is rejected keeps the batch from being fulfilled. *)
Theorem legacy_getBlockList_all_or_nothing `{Runtime} (fuel : nat) (ns : option string)
    (mc mc1 : Minecraft) (names : list string) :
  coherent mc ->
  Legacy.getBlockNameList ns mc = (Fulfilled names, mc1) ->
  (forall models mc',
     Legacy.getBlockList fuel ns mc = Some (Fulfilled models, mc') ->
     Forall2 (fun name model =>
                fst <$> Legacy.getModel fuel (VStr name) mc1 = Some (Fulfilled model)
                /\ lookup_prop "blockName" model = VStr name) names models)
  /\ (forall name e,
        In name names ->
        fst <$> Legacy.getModel fuel (VStr name) mc1 = Some (Rejected e) ->
        forall models mc', Legacy.getBlockList fuel ns mc <> Some (Fulfilled models, mc')).
Proof.
  intros Hc Hnames.
  assert (Hc1 : coherent mc1).
  { unfold Legacy.getBlockNameList, bind, jar_entries, ret in Hnames.
    destruct (entries (jar mc) _); [|discriminate].
    injection Hnames as _ <-. now apply coherent_log. }
  assert (Hall : forall models mc',
            Legacy.getBlockList fuel ns mc = Some (Fulfilled models, mc') ->
            Forall2 (fun name model =>
                       fst <$> Legacy.getModel fuel (VStr name) mc1 = Some (Fulfilled model)
                       /\ lookup_prop "blockName" model = VStr name) names models).
  { intros models mc' Hrun. unfold Legacy.getBlockList, bindF, liftF in Hrun.
    rewrite Hnames in Hrun.
    exact (Promise_all_models fuel mc1 names mc1 models mc' (agree_refl _ Hc1) Hrun). }
  split; [exact Hall|].
  intros name e Hin Hrej models mc' Hrun.
  specialize (Hall models mc' Hrun). clear Hrun Hnames.
  induction Hall as [|n m ns' ms [Hok _] _ IH]; [destruct Hin|].
  destruct Hin as [->|Hin]; [congruence | now apply IH].
Qed.

Lemma legacy_getBlockList_all_or_nothing_witness :
  exists models,
    fst <$> @Legacy.getBlockList example_runtime 3 None chain = Some (Fulfilled models)
    /\ Forall2 (fun name model => lookup_prop "blockName" model = VStr name)
         ["minecraft:a"; "minecraft:b"; "minecraft:c"; "minecraft:named"; "minecraft:heir"]
         models.
Proof.
  destruct (@legacy_getBlockList_all_or_nothing example_runtime 3 None chain
              (snd (@Legacy.getBlockNameList None chain))
              ["minecraft:a"; "minecraft:b"; "minecraft:c"; "minecraft:named";
               "minecraft:heir"]) as [Hall _].
  - apply (@coherent_open example_runtime).
  - reflexivity.
  - specialize (Hall
       (match fst (default (Rejected TypeError, chain)
                     (@Legacy.getBlockList example_runtime 3 None chain)) with
        | Fulfilled l => l
        | Rejected _ => []
        end)
       (snd (default (Rejected TypeError, chain)
               (@Legacy.getBlockList example_runtime 3 None chain)))).
    eexists. split; [by_computation|].
    eapply Forall2_impl; [apply Hall; by_computation|].
    intros name model [_ Hname]. exact Hname.
Defined.

(** ** Resolutions served from the cache *)

Section Cached.
Context `{Runtime}.

Lemma keeps_refl (mc : Minecraft) : keeps mc mc.
Proof. intros path _. reflexivity. Qed.

Lemma keeps_trans (a b c : Minecraft) : keeps a b -> keeps b c -> keeps a c.
Proof.
  intros Hab Hbc path Ht. rewrite <- (Hab path Ht). apply Hbc. now rewrite (Hab path Ht).
Qed.

Lemma getParsedJson_keeps (path : string) (mc : Minecraft) :
  keeps mc (snd (getParsedJson path mc)).
Proof.
  destruct (truthy (cache_at path mc)) eqn:Ht.
  - rewrite (getParsedJson_hit _ _ Ht). apply keeps_refl.
  - rewrite (getParsedJson_miss _ _ Ht). cbv zeta.
    destruct (first_data path (sources mc)) as [bytes|]; [|intros p _; reflexivity].
    destruct (JSON_parse bytes) as [v|]; [|intros p _; reflexivity].
    intros p Hp. cbn [snd]. unfold cache_at. cbn [with_cache _cache logs].
    rewrite lookup_insert_ne; [reflexivity|]. intros <-. congruence.
Qed.

(** What [getParsedJson] returns, when it is not [undefined], is the copy
    of the entry that the call leaves in the cache. *)
Lemma getParsedJson_returns_entry (path : string) (mc mc1 : Minecraft) (v : value) :
  getParsedJson path mc = (Fulfilled v, mc1) ->
  v <> VUndef ->
  truthy (cache_at path mc1) = true /\ clone (cache_at path mc1) = Fulfilled v.
Proof.
  intros Hrun Hv. destruct (truthy (cache_at path mc)) eqn:Ht.
  - rewrite (getParsedJson_hit _ _ Ht) in Hrun. injection Hrun as Hc <-. auto.
  - rewrite (getParsedJson_miss _ _ Ht) in Hrun. cbv zeta in Hrun.
    destruct (first_data path (sources mc)) as [bytes|].
    + destruct (JSON_parse bytes) as [w|]; [|discriminate].
      destruct (truthy w) eqn:Hw.
      * injection Hrun as Hc <-. unfold cache_at. cbn [with_cache _cache].
        rewrite lookup_insert_eq. cbn [default from_option Datatypes.id]. auto.
      * injection Hrun as <- _. contradiction.
    + injection Hrun as <- _. contradiction.
Qed.

Lemma getModelFile_keeps (name : value) (mc : Minecraft) :
  keeps mc (snd (getModelFile name mc)).
Proof.
  unfold getModelFile, bind, lift. destruct (model_path name) as [path|e]; cbn [snd].
  - apply getParsedJson_keeps.
  - apply keeps_refl.
Qed.

Lemma getModel_keeps (n : nat) :
  forall name mc o mc', getModel n name mc = Some (o, mc') -> keeps mc mc'.
Proof.
  induction n as [|n IH]; intros name mc o mc'; [discriminate|]. rewrite getModel_S.
  pose proof (getModelFile_keeps name mc) as Hk.
  destruct (getModelFile name mc) as [[file|e] mc1]; cbn [snd] in Hk;
    [|intros Hrun; now injection Hrun as _ <-].
  destruct (take_parent file) as [[parent0 own]|e];
    [|intros Hrun; now injection Hrun as _ <-].
  cbv zeta. destruct (truthy _); [|intros Hrun; now injection Hrun as _ <-].
  destruct (getModel n _ mc1) as [[[inh|e] mc2]|] eqn:Hrec; [| |discriminate].
  - specialize (IH _ _ _ _ Hrec).
    destruct (inherit _ _ _); intros Hrun; injection Hrun as _ <-;
      eapply keeps_trans; eassumption.
  - specialize (IH _ _ _ _ Hrec). intros Hrun. injection Hrun as _ <-.
    eapply keeps_trans; eassumption.
Qed.

(** A resolution that was fulfilled is fulfilled alike from any instance
    that keeps the documents it has left in the cache, without a change to
    that instance. *)
Lemma getModel_from_kept (n : nat) :
  forall name mc model mc1 mc2,
    getModel n name mc = Some (Fulfilled model, mc1) ->
    keeps mc1 mc2 ->
    getModel n name mc2 = Some (Fulfilled model, mc2).
Proof.
  induction n as [|n IH]; intros name mc model mc1 mc2; [discriminate|].
  rewrite !getModel_S.
  pose proof (getModelFile_keeps name mc) as Hk0.
  destruct (getModelFile name mc) as [[file|e] m1] eqn:Hfile; [|discriminate].
  cbn [snd] in Hk0.
  destruct (take_parent file) as [[parent0 own]|e] eqn:Htake; [|discriminate].
  cbv zeta.
  assert (Hagain : forall m2, keeps m1 m2 -> getModelFile name m2 = (Fulfilled file, m2)).
  { intros m2 Hk. unfold getModelFile, bind, lift in Hfile |- *.
    destruct (model_path name) as [path|e]; [|discriminate].
    assert (Hv : file <> VUndef) by (intros ->; discriminate).
    destruct (getParsedJson_returns_entry _ _ _ _ Hfile Hv) as [Ht Hc].
    rewrite getParsedJson_hit; rewrite (Hk path Ht); [now rewrite Hc | exact Ht]. }
  destruct (truthy (fallback_parent parent0 (lookup_prop "display" own))) eqn:Hp.
  - destruct (getModel n _ m1) as [[[inh|e] m2]|] eqn:Hrec; try discriminate.
    destruct (inherit _ _ _) as [m|e] eqn:Hi; [|discriminate].
    intros Hrun Hk. injection Hrun as <- <-.
    rewrite (Hagain mc2 (keeps_trans _ _ _ (getModel_keeps _ _ _ _ _ Hrec) Hk)).
    rewrite Htake. cbv zeta. rewrite Hp.
    rewrite (IH _ _ _ _ _ Hrec Hk). now rewrite Hi.
  - intros Hrun Hk. injection Hrun as <- <-.
    rewrite (Hagain mc2 Hk). rewrite Htake. cbv zeta. now rewrite Hp.
Qed.

End Cached.

(** X30.  A resolution that has been fulfilled is served from the cache
    when it is asked again: [getModel] returns the same descriptor and
    leaves the instance as it is, without a read of any archive. *)
Theorem getModel_served_from_cache `{Runtime} (n : nat) (name : value)
    (mc mc1 : Minecraft) (model : props) :
  getModel n name mc = Some (Fulfilled model, mc1) ->
  getModel n name mc1 = Some (Fulfilled model, mc1).
Proof. intros Hrun. exact (getModel_from_kept n _ _ _ _ _ Hrun (keeps_refl mc1)). Qed.

Lemma getModel_served_from_cache_witness :
  exists model mc1,
    @getModel example_runtime 3 (VStr "minecraft:block/a") chain = Some (Fulfilled model, mc1)
    /\ @getModel example_runtime 3 (VStr "minecraft:block/a") mc1
       = Some (Fulfilled model, mc1)
    /\ length (io_log mc1) = 3%nat.
Proof.
  exists (match fst (default (Rejected TypeError, chain)
                       (@getModel example_runtime 3 (VStr "minecraft:block/a") chain)) with
          | Fulfilled model => model
          | Rejected _ => []
          end),
         (snd (default (Rejected TypeError, chain)
                 (@getModel example_runtime 3 (VStr "minecraft:block/a") chain))).
  split; [by_computation|]. split; [|by_computation].
  apply (@getModel_served_from_cache example_runtime 3 (VStr "minecraft:block/a") chain).
  by_computation.
Defined.
